(* ===== verification/_CoqProject ===== *)
-Q . S2P
Prelude.v
Text.v
Dom.v
Selector.v
SelectorText.v
Edit.v
Host.v
Script.v
EventLoop.v
Waiter.v
Resources.v
Rounds.v
Checkpoint.v
Flow.v
Session.v
Scenarios.v
