(* ===== verification/Prelude.v ===== *)
(** * Verification of the Moodle single-sign-on helper script

    The program is [src/service/js/click_loginbutton.js]: a content script
    that drives a university SSO login page.  It exposes three functions on
    [window] ([clickUniversityLoginButton], [clickUserSelectionTile],
    [focusTextbox]) and keeps one private one ([waitForTextboxToAppear]),
    which arms a [MutationObserver] whose callback focuses the password box
    the first time it is present with a positive [offsetHeight] and then
    disconnects itself.

    The script has no state of its own: everything it does is a call into
    the browser.  The development therefore has two layers.

    - The platform layer writes down the part of the DOM the script relies
      on, as executable definitions: strings and token lists, the node tree
      in document order, the three selector forms the script uses, the
      effect log of [click] and [focus], and the registry, record queues and
      notification loop of mutation observers.
    - The script layer is the line-by-line translation of the source in a
      state-and-exception monad over the platform state.

    ** Files, in dependency order

    - [Prelude] (this file): the [result] type, the effect monad [eff]
      (state survives an exception, as in JavaScript), its laws up to
      pointwise equality with [Proper] instances, the rewrite database
      [eff] that runs a computation call by call, and the list lemmas the
      other files share (first matches, counting).
    - [Text]: substring search ([includes], the test behind the selector
      operator *=) and ASCII-whitespace tokenisation ([tokens], behind class
      selectors), each with its specification.
    - [Dom]: elements, the node tree with its induction principle, document
      order ([elements_of], [ids_of]), well-formedness ([wf_node]:
      identifiers are unique), lookup of a handle ([find_element]),
      inclusive ancestors and [document_body].
    - [Selector]: compound selectors (tag, classes, attribute tests),
      [matches], [querySelectorAll] as the document-order filter and
      [querySelector] as an early-exit search proved equal to its head.
    - [SelectorText]: the texts of selectors.  The script passes string
      literals to the query calls; [lex] reads a text into lexemes in one
      pass, [parse_lexemes] reads the lexemes as a selector,
      [print_selector] writes a selector out, and the two are inverse to
      each other on well-formed selectors ([parse_print], [print_parse]).
    - [Edit]: the edits a page and the layout engine make ([edit]: insert,
      remove, set an attribute, a height, a text), when an edit applies
      ([edit_ok]), its result ([apply_edit]) and its mutation record
      ([edit_record]); edits keep the document well formed.
    - [Host]: the browser state ([host]: document, effect log, active
      element, observers), the [Page] interface (what the listeners of the
      page edit on a click and when the focus moves, which elements can
      take focus; a page whose focus listeners edit nothing is a
      [QuietFocus] page), the monadic DOM calls used by
      the script (the query calls take the text of a selector and throw a
      [SyntaxError] on a text that does not read), the queueing of mutation
      records ([enqueue], [page_edit]) and one round of notification
      ([notify_observer], [notify]), the latter against the [Script]
      interface (how a callback runs).
    - [Script]: the source, function by function: the three selector
      literals ([loginSelectorText], line 3; [tileSelectorText], line 8;
      [passwdSelectorText], lines 25 and 44) and the selectors they stand
      for, [clickUniversityLoginButton] (lines 1-5),
      [clickUserSelectionTile] (7-17), [waitForTextboxToAppear] (19-41),
      the observer callback [textboxCallback] with the body of its [for]
      loop [checkMutation] (21-34), [focusTextbox] (43-49) and the
      [window] exports (52-54); the reference definitions the functions
      are proved equivalent to, which say what a function is for and
      translate no line of their own ([textboxCallback_ref] with
      [focusWhenShown], [clickUserSelectionTile_ref]); the vocabulary of
      the statements ([visible_textbox], [is_tile]); and the theorems on
      each.
    - [EventLoop]: the driver, the page and the browser taking turns
      ([action]: a call of an exported name, an edit, a notification
      checkpoint), as the function [exec]/[run] and as the labelled relation
      [step]; the checkpoint as a loop of rounds with fuel ([drain],
      [checkpoint]); the class [Preserved] of relations every primitive
      state change respects, with the invariant [inv] as an instance; and
      the lemmas that lift what every turn respects to rounds and
      checkpoints ([turns_checkpoint], [inv_turns_checkpoint]).
    - [Waiter]: what the script promises, as an abstract machine of
      one-shot subscriptions ([astep]: click, focus, subscribe, fire), the
      abstraction [abstract] from browser states to its states, and the
      refinement of the machine by every run of the script.
    - [Resources]: the account of what each state change adds to the log
      and to the list of observers ([adds]), from which: the elements the
      script acts on are in the document, and the numbers of observers and
      clicks are bounded by the calls of the driver; and the focus
      [budget], a potential that bounds the focus calls.
    - [Rounds]: the checkpoint loop ends.  [rounds n h] is the state after
      [n] rounds of turns; a round either leaves every queue empty or
      disarms an observer ([round_progress]), so the armed observers bound
      the rounds ([drain_terminates]); with one observer armed the
      checkpoint is that observer's turn ([sole_waiter_checkpoint]).
    - [Checkpoint]: what one checkpoint does while the password box shows.
      On every page a checkpoint with a record queued focuses the box
      ([checkpoint_focuses_box]); when the focus listeners of the page hide
      the box, the first of two waiters fires and the second stays armed
      ([focus_listener_starves_waiter]); on a [QuietFocus] page the account
      is exact: the observers with a queued record fire, one focus call
      each, and no other.
    - [Flow]: the functions, the page and the checkpoints put together:
      from the call of the tile clicker to the focus in the password box
      (on every page when no other waiter is armed, [tile_flow_fresh]; with
      any number of waiters on a [QuietFocus] page, [tile_flow]), where the
      focus is afterwards ([landed]) and where it can be at all
      ([focus_only_on_password]), what happens while the box stays hidden
      ([hidden_run]), a box shown during the click itself
      ([armed_too_late]), and a box that shows but cannot take focus
      ([unfocusable_box_spends_waiter]).
    - [Session]: the script across the pages of a login.  A [tab] is the
      page of the moment with the names the script has defined on the
      global object of that page; [load_script] is the top level of the
      script (the assignments of lines 52-54, each an [export]),
      [navigate] the start of a new page, without observers and without
      the names, and [tab_call] a call by name, which does nothing before
      the script is loaded.  A [tab_event] is a navigation, an evaluation of
      the script or an action within the page; [sexec] and [srun] perform
      them.  Between two navigations a session is a run of the event loop
      ([srun_within]).
    - [Scenarios]: sample documents and pages (two of them with focus
      listeners that edit the document, one on which the password box
      cannot take focus), the theorems applied to them, the scenarios of
      the specification run step by step, and a login followed through its
      pages.

    ** What the theorems show

    - Per function ([Script]): the behaviour on every branch, including the
      [TypeError] of [observe] when the document has no body, and that no
      other function can throw; the element acted on is the first match in
      document order; [focusTextbox] does not look at the height.  A call
      by name throws a [TypeError] or nothing, and [call_throws] says
      exactly when.  What the literal of line 8 selects is said in the
      words of the attributes: the query answers with the [div]s of class
      [table] and role [button], and the function clicks the first
      ([clickUserSelectionTile_tiles]).
    - Selector texts ([SelectorText], [Host], [Script]): reading and
      printing are inverse; a query by the printed text of a selector is
      the query by the selector ([query_printed]); the three literals of
      the source read as the three selectors.  The grammar of the model
      has one spelling for each selector, so nothing is shown about the
      other spellings a browser accepts.
    - The callback ([Script]): in a well-formed document a run amounts to
      one test (a child-list record in the batch, and the password input
      present with positive height); a run focuses at most once and
      disconnects when it does.
    - Equivalence ([Script]): the loop of the callback is equivalent to
      the reference definition [textboxCallback_ref], one look at the
      password box if the batch has a child-list record; the tile clicker
      is equivalent to the reference definition written with
      [querySelector] and a null test.
    - Invariant ([EventLoop]): every run keeps the document well formed and
      the observers in the shape the script gives them; under it the type
      test of the callback is always passed.
    - Monotonicity: the log only grows, observers are never removed or
      registered again, and disconnection is final.
    - Liveness ([Flow], [Checkpoint]): an armed observer focuses the
      password input at the first checkpoint after a child-list change
      below its target that leaves the input visible, and the input is then
      the active element if it can take focus ([waiter_fires]: on every
      page when it is the only observer armed, on a [QuietFocus] page with
      any number of them); on a [QuietFocus] page the same from the call of
      the tile clicker on ([tile_flow]).  On every page: the flow from the
      call of the tile clicker when no other waiter is armed
      ([tile_flow_fresh]), and some waiter focuses the box at a checkpoint
      that finds a record queued while the box shows
      ([checkpoint_focuses_box]).  Not every waiter does: on every page
      whose focus listeners leave the box absent or without height when it
      is focused, and from every state with two waiters armed and a record
      queued with each, the checkpoint focuses once, the waiter created
      first is disconnected and the second stays armed with an empty queue
      ([focus_listener_starves_waiter]).
    - Patience ([Flow]): while the password box does not show at any
      checkpoint, no observer fires and every armed observer stays armed.
    - Termination ([Rounds]): the checkpoint loop [drain] ends within as
      many rounds as observers are armed, with every queue empty, on every
      page; on a [QuietFocus] page, and whenever the box is hidden, the
      first round is the last ([checkpoint_notify], [checkpoint_hidden]);
      [checkpoint_two_rounds] is a checkpoint that needs two.
    - One checkpoint ([Checkpoint]): while the password box shows on a
      [QuietFocus] page, the log grows by exactly one focus call for each
      observer that had a record queued, and that many observers are
      disarmed; so two waiters armed by two calls focus the box twice.
    - Budget ([Resources]): focus calls plus armed observers grow by at
      most one per call of [focusTextbox] or [clickUserSelectionTile].
    - Bounds and handles ([Resources]): observers are created by the tile
      clicker only, one per call at most, and never freed; clicks are made
      by the two clickers only; every element call of a function or of a
      callback is made on an element that is in the document when the
      function or the callback starts, and on a [QuietFocus] page on an
      element of the document of the start of the action
      ([exec_targets]).
    - Refinement ([Waiter]): every run is a run of the subscription
      machine, with the events each action is allowed; in the machine a
      subscription fires at most once, so each observer focuses at most
      once.
    - Blind spots: attribute, text and layout changes never wake the waiter
      ([silent_run]); an input the page reveals during the click itself is
      missed until the next child-list change ([armed_too_late]); an input
      that has a height but cannot take focus uses up the waiter, which
      disconnects after a focus call that moved nothing
      ([unfocusable_box_spends_waiter]).
    - The login across pages ([Session]): the evaluation of the script
      defines exactly the three exported names, whatever was defined
      before ([load_script_exports]); the invariant and the focus budget
      hold across navigations ([session_budget]); a navigation discards the
      waiters, and the script arms none when it is loaded
      ([navigation_discards_waiters]); and the login as a whole, the click
      on the login link, the navigation, the click on the tile and the
      focus on the password box, adds exactly these three calls to the log
      of the tab ([login_flow]).
    - Focus ([Flow], [focus_only_on_password]): after a call of an
      exported function and after the turn of an observer the active
      element is the one before or the first match of the password
      selector in the document the function or the callback started in;
      on a [QuietFocus] page the same holds of every action, a checkpoint
      included.  For runs the theorem says less: the active element of
      the end is the one of the start or the target of a focus call the
      run has logged; that each logged focus call is aimed at a password
      input of the document of its moment is [exec_targets].

    ** Bounds and modelling choices

    The document is a finite tree and every loop of the source is over a
    finite list, so all definitions of the script are structurally
    recursive and total.  The one definition with fuel is the checkpoint
    loop [drain], where fuel counts rounds of turns.  [exec] takes a
    checkpoint to be [checkpoint], the loop with as many rounds allowed as
    there are observers: [drain_terminates] shows that under the invariant
    the loop ends within as many rounds as observers are armed, which are
    not more, so the fuel never runs out in a run from a state that
    satisfies the invariant and [checkpoint] is the state the loop ends
    in.  Out of fuel, [checkpoint] answers with the state it started in;
    this case is outside the invariant, and the theorems that carry no
    invariant hypothesis ([focus_only_on_password], [run_bounds],
    [run_monotone]) state what holds of the turns and of doing nothing
    alike.  The lexer is a single structural pass over the text.
    [offsetHeight] is kept as a [Z], as the source compares a JavaScript
    number with 0.  Element identity is a natural number carried by each
    node ([el_id]: the identity of the node as an object, not its [id]
    attribute); handles held by the script are these identifiers and are
    dereferenced in the live document ([find_element]), which is the
    object the source holds whenever identifiers are unique.  No two nodes
    of a DOM tree are the same object, so uniqueness ([wf_node], part of
    [inv]) is a property of every document a browser has; the theorems
    that depend on it have it as a hypothesis.  An observer handle is its
    index in the list of observers, which only grows within a page.  The
    event loop
    is a list of actions chosen by the environment; a theorem about [run]
    holds for every such list, and a theorem about [srun] for every list
    of navigations, evaluations of the script and actions.  The log of
    element calls is the record of the tab: a navigation keeps it, so that
    a theorem about a session can speak of the calls made in all its
    pages.

    ** Not modelled

    What makes the browser navigate (the target of a link, the network,
    redirects, load events): a navigation to a given document is an event
    of the environment, and the document it loads is an input.  Event
    propagation and listeners other than the reactions of the page to a
    click and to a move of the focus (the [blur] of the element that loses
    the focus is not a reaction of its own, and listeners do not call the
    script).  CSS layout itself: the source reads [offsetHeight] and calls
    [focus], and how a browser computes the height of an element and
    whether it can take focus from the style sheets is outside the
    repository, so both are inputs (a field of the element, a method of
    the [Page] interface) and the theorems hold for every value of them.
    [takeRecords], attribute filters and old values of mutation records,
    and the transient registrations a browser keeps on removed
    subtrees.

    Selector syntax is modelled for compound selectors in the form the
    source writes them: an optional tag name, class names, and attribute
    tests with the operators = and *= and a value between double quotes,
    without white space, escapes, combinators or pseudo-classes.  A text
    outside this form is taken as a [SyntaxError] by the model although a
    browser accepts some of them; no theorem about the script depends on
    such a text, since the three literals of the source are inside the
    form. *)

From stdpp Require Export base tactics option list sets strings.
From Stdlib Require Export ZArith Lia.

(** * Results *)

(** The outcome of a call that may throw: a value or an exception. *)
Inductive result (E A : Type) : Type :=
| Ok (a : A)
| Throw (e : E).
Arguments Ok {E A} a.
Arguments Throw {E A} e.

#[export] Instance result_eq_dec {E A} `{EqDecision E, EqDecision A} :
  EqDecision (result E A).
Proof. solve_decision. Defined.

(** * The effect monad *)

(** A computation over a state [S] that may throw an [E].  The state is
    returned on both outcomes: what a JavaScript function did before it
    threw stays done. *)
Definition eff (S E A : Type) : Type := S → result E A * S.

Section eff.
Context {S E : Type}.

Definition eff_ret {A} (a : A) : eff S E A := λ s, (Ok a, s).

Definition eff_bind {A B} (k : A → eff S E B) (m : eff S E A) : eff S E B :=
  λ s, match m s with
       | (Ok a, s') => k a s'
       | (Throw e, s') => (Throw e, s')
       end.

Definition throw {A} (e : E) : eff S E A := λ s, (Throw e, s).
Definition gets {A} (f : S → A) : eff S E A := λ s, (Ok (f s), s).
Definition modify (f : S → S) : eff S E unit := λ s, (Ok tt, f s).

(** The outcome and the final state of a run. *)
Definition outcome {A} (m : eff S E A) (s : S) : result E A := (m s).1.
Definition final {A} (m : eff S E A) (s : S) : S := (m s).2.
End eff.

#[export] Instance eff_mret {S E} : MRet (eff S E) := λ _, eff_ret.
#[export] Instance eff_mbind {S E} : MBind (eff S E) := λ _ _, eff_bind.

(** Two computations are equivalent when they agree on every state. *)
#[export] Instance eff_equiv {S E A} : Equiv (eff S E A) :=
  λ m1 m2, ∀ s, m1 s = m2 s.

(** * Automation *)

(** [eff]: the equations that run a monadic computation one call at a
    time, for [autorewrite]. *)
Create Rewrite HintDb eff.

(** Unfolds the monad's operations, leaving plain functions on states. *)
Ltac eff_unfold :=
  repeat progress
    (unfold mbind, mret, eff_mbind, eff_mret, eff_bind, eff_ret,
       throw, gets, modify, outcome, final in *; cbn beta iota in *).

Section eff_laws.
Context {S E : Type}.
Implicit Types s : S.

#[export] Instance eff_equivalence {A} : Equivalence (≡@{eff S E A}).
Proof.
  split; [by intros ??|by intros ?? H s; rewrite H|].
  intros m1 m2 m3 H1 H2 s. by rewrite H1, H2.
Qed.

#[export] Instance eff_bind_proper {A B} :
  Proper (pointwise_relation A (≡) ==> (≡) ==> (≡@{eff S E B})) mbind.
Proof.
  intros k1 k2 Hk m1 m2 Hm s. eff_unfold. rewrite Hm.
  destruct (m2 s) as [[a|e] s']; [apply Hk|done].
Qed.

Lemma eff_bind_ret_l {A B} (a : A) (k : A → eff S E B) :
  mret a ≫= k ≡ k a.
Proof. by intros s. Qed.

Lemma eff_bind_ret_r {A} (m : eff S E A) : m ≫= mret ≡ m.
Proof. intros s. eff_unfold. by destruct (m s) as [[a|e] s']. Qed.

Lemma eff_bind_assoc {A B C} (m : eff S E A)
    (k : A → eff S E B) (k' : B → eff S E C) :
  (m ≫= k) ≫= k' ≡ m ≫= (λ a, k a ≫= k').
Proof. intros s. eff_unfold. by destruct (m s) as [[a|e] s']. Qed.

(** Running a bind whose first part is a primitive of the monad. *)
Lemma run_gets {A B} (f : S → A) (k : A → eff S E B) s :
  (gets f ≫= k) s = k (f s) s.
Proof. done. Qed.

Lemma run_modify {B} (f : S → S) (k : unit → eff S E B) s :
  (modify f ≫= k) s = k tt (f s).
Proof. done. Qed.

Lemma run_throw {A B} (e : E) (k : A → eff S E B) s :
  (throw e ≫= k) s = (Throw e, s).
Proof. done. Qed.

Lemma run_ret {A B} (a : A) (k : A → eff S E B) s :
  (mret a ≫= k) s = k a s.
Proof. done. Qed.
End eff_laws.

#[export] Hint Rewrite @run_gets @run_modify @run_throw @run_ret : eff.

(** * First matches in lists *)

Section first_match.
Context {A : Type} (P : A → Prop) `{!∀ x, Decision (P x)}.
Implicit Types l : list A.

(** The head of a filtered list is the first element that satisfies the
    predicate: everything before it fails it. *)
Lemma head_filter_app l1 l2 :
  head (filter P (l1 ++ l2)) =
    match head (filter P l1) with
    | Some x => Some x
    | None => head (filter P l2)
    end.
Proof. rewrite filter_app. by destruct (filter P l1). Qed.

Lemma head_filter_cons x l :
  head (filter P (x :: l)) = if decide (P x) then Some x else head (filter P l).
Proof. rewrite filter_cons. by destruct (decide (P x)). Qed.

Lemma head_filter_None l :
  head (filter P l) = None ↔ Forall (λ x, ¬ P x) l.
Proof.
  rewrite head_None. split.
  - intros Hnil. apply Forall_forall. intros x Hx HP.
    assert (x ∈ filter P l) as Hin by (by apply list_elem_of_filter).
    rewrite Hnil in Hin. by apply elem_of_nil in Hin.
  - induction 1 as [|x l HP _ IH]; [done|].
    by rewrite filter_cons_False.
Qed.

Lemma head_filter_holds l x : head (filter P l) = Some x → P x ∧ x ∈ l.
Proof.
  intros Hx. apply head_Some_elem_of in Hx.
  by apply list_elem_of_filter in Hx.
Qed.

Lemma filter_nonempty_length l :
  0 < length (filter P l) ↔ is_Some (head (filter P l)).
Proof. destruct (filter P l); cbn; [|split; eauto with lia]. split; [lia|by intros [??]]. Qed.
End first_match.

(** * Maps over lists *)

(** A map that fixes every element fixes the list. *)
Lemma fmap_fixed {A} (f : A → A) (l : list A) :
  Forall (λ x, f x = x) l → f <$> l = l.
Proof. intros Hf. rewrite <-(list_fmap_id l) at 2. by apply Forall_fmap_ext. Qed.

(** Flattening after a map, elementwise. *)
Lemma bind_fmap_ext {A B C} (f : A → B) (g : B → list C) (g' : A → list C)
    (l : list A) :
  Forall (λ x, g (f x) = g' x) l → (f <$> l) ≫= g = l ≫= g'.
Proof. induction 1 as [|x l Hx _ IH]; [done|]. cbn. by rewrite Hx, IH. Qed.

(** The indices below [n], split at one of them. *)
Lemma seq_middle n i : i < n → seq 0 n = seq 0 i ++ i :: seq (S i) (n - S i).
Proof.
  intros Hi. replace n with (i + S (n - S i)) at 1 by lia. by rewrite seq_app.
Qed.

(** Altering an element, seen through a map that forgets the change or
    that sends every altered element to the same value. *)
Lemma fmap_alter_same {A B} (f : A → B) (g : A → A) i (l : list A) :
  (∀ x, f (g x) = f x) → f <$> alter g i l = f <$> l.
Proof.
  intros Hf. rewrite (list_fmap_alter f g id) by (by apply Forall_true).
  apply list_alter_id. done.
Qed.

Lemma fmap_alter_const {A B} (f : A → B) (g : A → A) (y : B) i (l : list A) :
  (∀ x, f (g x) = y) → f <$> alter g i l = <[i:=y]> (f <$> l).
Proof.
  intros Hf. revert i. induction l as [|x l IH]; intros [|i]; [done..| |].
  - cbn. by rewrite Hf.
  - cbn. f_equal. apply IH.
Qed.

(** * Counting *)

Section counting.
Context {A : Type} (P : A → Prop) `{!∀ x, Decision (P x)}.
Implicit Types (l : list A) (f : A → A).

(** The number of elements of a list that satisfy [P]. *)
Definition count l : nat := length (filter P l).

Lemma count_cons x l : count (x :: l) = (if decide (P x) then 1 else 0) + count l.
Proof. unfold count. rewrite filter_cons. by case_decide. Qed.

Lemma count_app l1 l2 : count (l1 ++ l2) = count l1 + count l2.
Proof. unfold count. by rewrite filter_app, length_app. Qed.

Lemma count_snoc l x : count (l ++ [x]) = count l + (if decide (P x) then 1 else 0).
Proof. rewrite count_app, count_cons. unfold count. cbn. lia. Qed.

Lemma count_le_length l : count l ≤ length l.
Proof. apply length_filter. Qed.

Lemma count_lookup l i x : l !! i = Some x → P x → 0 < count l.
Proof.
  revert i. induction l as [|y l IH]; intros i Hi Hx; [done|].
  rewrite count_cons. destruct i as [|i]; simplify_eq/=.
  - rewrite decide_True by done. lia.
  - specialize (IH _ Hi Hx). lia.
Qed.

(** When at most one element counts, it is at one position. *)
Lemma count_unique l i j x y :
  count l ≤ 1 → l !! i = Some x → l !! j = Some y → P x → P y → i = j.
Proof.
  revert i j. induction l as [|z l IH]; intros i j Hc Hi Hj Hx Hy; [done|].
  rewrite count_cons in Hc. destruct i as [|i], j as [|j]; simplify_eq/=; [done| | |].
  - pose proof (count_lookup l j y Hj Hy). rewrite decide_True in Hc by done. lia.
  - pose proof (count_lookup l i x Hi Hx). rewrite decide_True in Hc by done. lia.
  - f_equal. apply (IH i j); [case_decide; lia|done..].
Qed.

Lemma count_0 l : count l = 0 ↔ Forall (λ x, ¬ P x) l.
Proof.
  induction l as [|x l IH]; [done|]. rewrite count_cons, Forall_cons, <-IH.
  case_decide as Hx; [split; [lia|by intros [Hn _]]|].
  split; [intros; split; [done|lia]|intros [_ ?]; lia].
Qed.

(** A map that does not change who satisfies [P] does not change the
    count, whether applied everywhere or at one index. *)
Lemma count_fmap_same f l : (∀ x, P (f x) ↔ P x) → count (f <$> l) = count l.
Proof.
  intros Hf. induction l as [|x l IH]; [done|].
  rewrite fmap_cons, !count_cons, IH. by rewrite (decide_ext _ _ _ _ (Hf x)).
Qed.

Lemma count_alter_same f i l : (∀ x, P (f x) ↔ P x) → count (alter f i l) = count l.
Proof.
  intros Hf. revert i. induction l as [|x l IH]; intros [|i]; [done..| |].
  - change (alter f 0 (x :: l)) with (f x :: l).
    rewrite !count_cons. by rewrite (decide_ext _ _ _ _ (Hf x)).
  - change (alter f (S i) (x :: l)) with (x :: alter f i l).
    by rewrite !count_cons, IH.
Qed.

(** Altering one element moves the count by what that element gains or
    loses. *)
Lemma count_alter f i l x :
  l !! i = Some x →
  count (alter f i l) + (if decide (P x) then 1 else 0)
  = count l + (if decide (P (f x)) then 1 else 0).
Proof.
  revert i. induction l as [|y l IH]; intros [|i] Hx; cbn in Hx; simplify_eq.
  - change (alter f 0 (x :: l)) with (f x :: l). rewrite !count_cons. lia.
  - change (alter f (S i) (y :: l)) with (y :: alter f i l).
    rewrite !count_cons. specialize (IH i Hx). lia.
Qed.

Lemma count_replicate n x : P x → count (replicate n x) = n.
Proof.
  intros Hx. induction n as [|n IH]; [done|]. cbn [replicate].
  by rewrite count_cons, IH, decide_True.
Qed.
End counting.

(** Two predicates that agree on the elements of a list count the same. *)
Lemma count_ext {A} (P Q : A → Prop)
    `{!∀ x, Decision (P x), !∀ x, Decision (Q x)} (l : list A) :
  (∀ x, x ∈ l → P x ↔ Q x) → count P l = count Q l.
Proof.
  induction l as [|x l IH]; intros HPQ; [done|]. rewrite !count_cons, IH.
  - by rewrite (decide_ext (P x) (Q x) _ _ (HPQ x ltac:(by left))).
  - intros y Hy. apply HPQ. by right.
Qed.

(** Counting the indices of a list by a predicate that says of an index
    what [P] says of the element there, is counting the elements by [P]. *)
Lemma count_indices {A} (P : A → Prop) (Q : nat → Prop)
    `{!∀ x, Decision (P x), !∀ i, Decision (Q i)} (l : list A) :
  (∀ i x, l !! i = Some x → Q i ↔ P x) →
  count Q (seq 0 (length l)) = count P l.
Proof.
  induction l as [|x l IH] using rev_ind; intros HQ; [done|].
  rewrite length_app, Nat.add_1_r, seq_S, !count_snoc, IH.
  - by rewrite (decide_ext (Q _) (P x) _ _ (HQ _ x (list_lookup_middle _ _ _ _ eq_refl))).
  - intros i y Hi. apply HQ. by apply lookup_app_l_Some.
Qed.
