(* ===== verification/Text.v ===== *)
(** * Text: substring search and whitespace-separated tokens

    The two string tests behind the selectors of the script: the attribute
    operator *= asks whether the attribute value contains a given text
    ([includes]), and a class selector asks whether the class attribute,
    split at ASCII whitespace, has a given token ([tokens]). *)

From Stdlib Require Import Ascii.
From S2P Require Import Prelude.

Local Open Scope string_scope.

(** ** Definitions *)

(** [is_prefix p s]: [s] starts with [p]. *)
Fixpoint is_prefix (p s : string) : bool :=
  match p, s with
  | "", _ => true
  | String a p', String b s' => bool_decide (a = b) && is_prefix p' s'
  | String _ _, "" => false
  end.

(** [includes needle hay]: [needle] occurs in [hay] at some offset; the
    offsets are tried from the left. *)
Fixpoint includes (needle hay : string) : bool :=
  is_prefix needle hay ||
  match hay with
  | "" => false
  | String _ hay' => includes needle hay'
  end.

(** [s] contains [needle]: it is some text, then [needle], then some text. *)
Definition substring_of (needle s : string) : Prop :=
  ∃ pre post, s = pre +:+ needle +:+ post.

(** ASCII whitespace of the HTML standard: tab, line feed, form feed,
    carriage return and space. *)
Definition is_space (c : ascii) : bool :=
  bool_decide (c ∈ ["009"; "010"; "012"; "013"; " "]%char).

(** The token collected so far, when it is not empty. *)
Definition emit (cur : string) : list string :=
  if decide (cur = "") then [] else [cur].

(** [tokens_from cur s]: the tokens of [s], the first one continuing [cur]. *)
Fixpoint tokens_from (cur s : string) : list string :=
  match s with
  | "" => emit cur
  | String c s' =>
      if is_space c then emit cur ++ tokens_from "" s'
      else tokens_from (cur +:+ String c "") s'
  end.

(** The maximal runs of non-whitespace characters of [s], in order. *)
Definition tokens (s : string) : list string := tokens_from "" s.

(** A token: not empty and without whitespace. *)
Fixpoint no_space (s : string) : bool :=
  match s with
  | "" => true
  | String c s' => negb (is_space c) && no_space s'
  end.

Definition is_token (s : string) : Prop := s ≠ "" ∧ no_space s = true.

(** Tokens written out with one space after each. *)
Fixpoint unwords (ts : list string) : string :=
  match ts with
  | [] => ""
  | t :: ts' => t +:+ " " +:+ unwords ts'
  end.

(** ** String append *)

(** The defining equations of append, which the reduction tactics are told
    not to unfold. *)
Lemma append_nil_l (s : string) : "" +:+ s = s.
Proof. done. Qed.

Lemma append_cons (c : ascii) (s1 s2 : string) :
  String c s1 +:+ s2 = String c (s1 +:+ s2).
Proof. done. Qed.

Lemma append_nil_r (s : string) : s +:+ "" = s.
Proof. induction s as [|c s IH]; [done|]. by rewrite append_cons, IH. Qed.

Lemma append_assoc (s1 s2 s3 : string) : (s1 +:+ s2) +:+ s3 = s1 +:+ s2 +:+ s3.
Proof. induction s1 as [|c s1 IH]; [done|]. by rewrite !append_cons, IH. Qed.

Lemma append_snoc (s : string) (c : ascii) (s' : string) :
  (s +:+ String c "") +:+ s' = s +:+ String c s'.
Proof. by rewrite append_assoc. Qed.

Lemma append_eq_nil (s1 s2 : string) : s1 +:+ s2 = "" → s1 = "" ∧ s2 = "".
Proof. by destruct s1. Qed.


(** ** Prefixes and substrings *)

Lemma is_prefix_spec (p s : string) :
  is_prefix p s = true ↔ ∃ post, s = p +:+ post.
Proof.
  revert s. induction p as [|a p IH]; intros s; cbn.
  { split; eauto. }
  destruct s as [|b s]; cbn.
  { split; [done|by intros [??]]. }
  rewrite andb_true_iff, bool_decide_eq_true, IH. split.
  - intros [-> [post ->]]. eauto.
  - intros [post [= -> ->]]. eauto.
Qed.

Lemma is_prefix_refl (s : string) : is_prefix s s = true.
Proof. apply is_prefix_spec. exists "". by rewrite append_nil_r. Qed.

Lemma includes_spec (needle hay : string) :
  includes needle hay = true ↔ substring_of needle hay.
Proof.
  unfold substring_of. induction hay as [|c hay IH]; cbn.
  - rewrite orb_false_r, is_prefix_spec. split.
    + intros [post ->]. by exists "", post.
    + intros (pre & post & H). symmetry in H.
      apply append_eq_nil in H as [-> H]. eauto.
  - rewrite orb_true_iff, is_prefix_spec, IH. split.
    + intros [[post ->]|(pre & post & ->)]; [by exists "", post|].
      by exists (String c pre), post.
    + intros ([|c' pre] & post & H); [left; eauto|].
      rewrite append_cons in H. injection H as -> ->. right; eauto.
Qed.

#[export] Instance substring_of_dec needle s : Decision (substring_of needle s).
Proof.
  refine (cast_if (decide (includes needle s = true)));
    abstract (by rewrite <-includes_spec).
Defined.

Lemma includes_refl (s : string) : includes s s = true.
Proof. apply includes_spec. exists "", "". by rewrite append_nil_r. Qed.

Lemma includes_empty (s : string) : includes "" s = true.
Proof. by destruct s. Qed.

(** A longer text still contains what a part of it contains. *)
Lemma includes_app (needle pre s post : string) :
  includes needle s = true → includes needle (pre +:+ s +:+ post) = true.
Proof.
  rewrite !includes_spec. intros (p & q & ->).
  exists (pre +:+ p), (q +:+ post). by rewrite !append_assoc.
Qed.

Lemma includes_trans (s1 s2 s3 : string) :
  includes s1 s2 = true → includes s2 s3 = true → includes s1 s3 = true.
Proof.
  intros H1. rewrite (includes_spec s2). intros (pre & post & ->).
  by apply includes_app.
Qed.

(** Nothing but the empty text occurs in the empty text. *)
Lemma includes_nil_r (needle : string) :
  includes needle "" = true ↔ needle = "".
Proof. destruct needle; cbn; naive_solver. Qed.

(** ** Tokens *)

Lemma no_space_app (s1 s2 : string) :
  no_space (s1 +:+ s2) = no_space s1 && no_space s2.
Proof.
  induction s1 as [|c s1 IH]; [done|].
  rewrite append_cons. cbn. by rewrite IH, andb_assoc.
Qed.

Lemma emit_token (cur : string) :
  no_space cur = true → Forall is_token (emit cur).
Proof. intros ?. unfold emit. case_decide; repeat constructor; done. Qed.

Lemma emit_nonempty (cur : string) : cur ≠ "" → emit cur = [cur].
Proof. intros ?. unfold emit. by rewrite decide_False. Qed.

Lemma tokens_from_token (cur s : string) :
  no_space cur = true → Forall is_token (tokens_from cur s).
Proof.
  revert cur. induction s as [|c s IH]; intros cur Hcur; cbn.
  { by apply emit_token. }
  destruct (is_space c) eqn:Hc.
  - apply Forall_app. split; [by apply emit_token|by apply IH].
  - apply IH. rewrite no_space_app, Hcur. cbn. by rewrite Hc.
Qed.

(** Every token is non-empty and free of whitespace. *)
Lemma tokens_are_tokens (s : string) : Forall is_token (tokens s).
Proof. by apply tokens_from_token. Qed.

(** Characters without whitespace only extend the current token. *)
Lemma tokens_from_no_space (cur t s : string) :
  no_space t = true → tokens_from cur (t +:+ s) = tokens_from (cur +:+ t) s.
Proof.
  revert cur. induction t as [|c t IH]; intros cur; cbn.
  { by rewrite append_nil_r. }
  intros [Hc Ht]%andb_true_iff. apply negb_true_iff in Hc.
  rewrite append_cons. cbn. by rewrite Hc, IH, append_snoc.
Qed.

(** Splitting what [unwords] wrote gives the tokens back. *)
Lemma tokens_unwords (ts : list string) :
  Forall is_token ts → tokens (unwords ts) = ts.
Proof.
  unfold tokens. induction 1 as [|t ts [Hne Ht] _ IH]; [done|]; cbn.
  rewrite tokens_from_no_space, append_nil_l by done.
  rewrite append_cons, append_nil_l. cbn. by rewrite IH, emit_nonempty.
Qed.

(** A text without whitespace is its own only token. *)
Lemma tokens_single (t : string) : is_token t → tokens t = [t].
Proof.
  intros [Hne Ht]. unfold tokens.
  rewrite <-(append_nil_r t) at 1. rewrite tokens_from_no_space by done.
  cbn. by rewrite emit_nonempty.
Qed.
