(* ===== verification/Dom.v ===== *)
(** * Dom: the document tree

    The part of the DOM the script reads: elements with a tag name,
    attributes and a rendered height, text nodes, and the tree that holds
    them.  Every node carries an identifier, which is what a handle held by
    the script denotes.  Document order is the preorder of the tree. *)

From S2P Require Import Prelude Text.

Local Open Scope string_scope.
Local Open Scope list_scope.

(** ** Data *)

(** An element without its children.  [localName] is the tag name as an HTML
    document reports it (lower case); [offsetHeight] is the layout height
    the browser computed, 0 for an element that is not rendered. *)
Record element : Type := Element {
  el_id : nat;
  localName : string;
  attributes : list (string * string);
  offsetHeight : Z
}.

#[export] Instance element_eq_dec : EqDecision element.
Proof. solve_decision. Defined.

#[warnings="-register-all"]
Inductive node : Type :=
| Elem (e : element) (children : list node)
| TextNode (id : nat) (data : string).

(** ** Induction on trees *)

(** The induction principle with the hypothesis on every child. *)
Section node_ind.
Context (P : node → Prop).
Context (Helem : ∀ e cs, Forall P cs → P (Elem e cs)).
Context (Htext : ∀ i d, P (TextNode i d)).

Fixpoint node_forall_ind (n : node) : P n :=
  match n with
  | Elem e cs =>
      Helem e cs
        ((fix go (cs : list node) : Forall P cs :=
            match cs with
            | [] => Forall_nil_2 P
            | c :: cs' => Forall_cons_2 P c cs' (node_forall_ind c) (go cs')
            end) cs)
  | TextNode i d => Htext i d
  end.
End node_ind.

(** ** Reading the tree *)

Definition node_id (n : node) : nat :=
  match n with
  | Elem e _ => el_id e
  | TextNode i _ => i
  end.

Definition children_of (n : node) : list node :=
  match n with
  | Elem _ cs => cs
  | TextNode _ _ => []
  end.

(** The first [Some] of a list of optional results. *)
Fixpoint first_some {A} (l : list (option A)) : option A :=
  match l with
  | [] => None
  | Some x :: _ => Some x
  | None :: l' => first_some l'
  end.

(** The elements of a tree in document order: a node before its children,
    the children from first to last. *)
Fixpoint elements_of (n : node) : list element :=
  match n with
  | Elem e cs => e :: (cs ≫= elements_of)
  | TextNode _ _ => []
  end.

(** The identifiers of all nodes of a tree, in document order. *)
Fixpoint ids_of (n : node) : list nat :=
  match n with
  | Elem e cs => el_id e :: (cs ≫= ids_of)
  | TextNode i _ => [i]
  end.

(** A tree is well formed when no identifier occurs twice. *)
Definition wf_node (n : node) : Prop := NoDup (ids_of n).

#[export] Instance wf_node_dec n : Decision (wf_node n).
Proof. unfold wf_node. apply _. Defined.

(** The element a handle denotes in a document, if it is there. *)
Definition find_element (i : nat) (doc : node) : option element :=
  head (filter (λ e, el_id e = i) (elements_of doc)).

(** The identifiers on the way from the root of [n] down to node [i]. *)
Fixpoint path_to (i : nat) (n : node) : option (list nat) :=
  if decide (node_id n = i) then Some [i]
  else match n with
       | Elem e cs => (el_id e ::.) <$> first_some (path_to i <$> cs)
       | TextNode _ _ => None
       end.

(** The inclusive ancestors of node [i]: the node itself, its parent, and
    so on up to the root; empty when [i] is not in the document. *)
Definition inclusive_ancestors (i : nat) (doc : node) : list nat :=
  from_option reverse [] (path_to i doc).

(** ** Attributes *)

(** [getAttribute]: the value of the first attribute with that name. *)
Definition getAttribute (name : string) (e : element) : option string :=
  snd <$> head (filter (λ kv, kv.1 = name) (attributes e)).

(** The class tokens of an element. *)
Definition classList (e : element) : list string :=
  tokens (default "" (getAttribute "class" e)).

(** ** The body *)

Definition is_body (n : node) : Prop :=
  match n with
  | Elem e _ => localName e = "body" ∨ localName e = "frameset"
  | TextNode _ _ => False
  end.

#[export] Instance is_body_dec n : Decision (is_body n).
Proof. destruct n; apply _. Defined.

(** [document.body]: the first child of the [html] root element that is a
    [body] or a [frameset]; none when the root is not [html] or has no such
    child.  The result is the handle of that element. *)
Definition document_body (doc : node) : option nat :=
  match doc with
  | Elem e cs =>
      if decide (localName e = "html")
      then node_id <$> head (filter is_body cs)
      else None
  | TextNode _ _ => None
  end.

(** ** Lemmas: first_some *)

Section first_some.
Context {A B : Type}.
Implicit Types (f : A → option B) (l : list A).

Lemma first_some_cons f x l :
  first_some (f <$> x :: l) =
    match f x with Some y => Some y | None => first_some (f <$> l) end.
Proof. cbn. by destruct (f x). Qed.

Lemma first_some_Some f l y :
  first_some (f <$> l) = Some y → ∃ x, x ∈ l ∧ f x = Some y.
Proof.
  induction l as [|x l IH]; [done|]. rewrite first_some_cons.
  destruct (f x) eqn:Hx.
  - intros [= ->]. exists x. split; [left|done].
  - intros (x' & ? & ?)%IH. exists x'. split; [by right|done].
Qed.

Lemma first_some_None f l :
  first_some (f <$> l) = None ↔ Forall (λ x, f x = None) l.
Proof.
  induction l as [|x l IH]; [by split; [constructor|]|].
  rewrite first_some_cons, Forall_cons, <-IH.
  destruct (f x); [split; [done|by intros [??]]|tauto].
Qed.
End first_some.

(** ** Lemmas: elements and identifiers *)

Lemma node_id_in_ids n : node_id n ∈ ids_of n.
Proof. destruct n; cbn; left. Qed.

(** The identifiers of the elements are among the identifiers of the tree,
    in the same order. *)
Lemma element_ids_sublist n : (el_id <$> elements_of n) `sublist_of` ids_of n.
Proof.
  induction n as [e cs IH|i d] using node_forall_ind; cbn.
  - apply sublist_skip. induction IH as [|c cs Hc _ IHcs]; [done|].
    cbn. rewrite fmap_app. by apply sublist_app.
  - apply sublist_nil_l.
Qed.

Lemma elements_of_id_in e n : e ∈ elements_of n → el_id e ∈ ids_of n.
Proof.
  intros He. eapply elem_of_sublist; [|apply element_ids_sublist].
  by apply list_elem_of_fmap_2.
Qed.

(** In a well-formed document no two elements share an identifier. *)
Lemma wf_elements_NoDup n : wf_node n → NoDup (el_id <$> elements_of n).
Proof. intros Hwf. eapply sublist_NoDup; [done|apply element_ids_sublist]. Qed.

Lemma wf_elements_inj n e1 e2 :
  wf_node n → e1 ∈ elements_of n → e2 ∈ elements_of n →
  el_id e1 = el_id e2 → e1 = e2.
Proof.
  intros Hwf%wf_elements_NoDup [i1 H1]%list_elem_of_lookup
    [i2 H2]%list_elem_of_lookup Heq.
  assert (i1 = i2) as ->; [|congruence].
  eapply NoDup_lookup; [done| |]; rewrite list_lookup_fmap.
  - by rewrite H1.
  - by rewrite H2, Heq.
Qed.

(** ** Lemmas: handles *)

Lemma find_element_Some i doc e :
  find_element i doc = Some e → el_id e = i ∧ e ∈ elements_of doc.
Proof. apply (head_filter_holds (λ e, el_id e = i)). Qed.

Lemma find_element_None i doc :
  find_element i doc = None ↔ ∀ e, e ∈ elements_of doc → el_id e ≠ i.
Proof. unfold find_element. by rewrite head_filter_None, Forall_forall. Qed.

(** A handle obtained from a well-formed document denotes the element it
    was obtained for. *)
Lemma find_element_elem_of doc e :
  wf_node doc → e ∈ elements_of doc → find_element (el_id e) doc = Some e.
Proof.
  intros Hwf He. destruct (find_element (el_id e) doc) as [e'|] eqn:Hfind.
  - apply find_element_Some in Hfind as [Hid He'].
    f_equal. by eapply wf_elements_inj.
  - rewrite find_element_None in Hfind. by destruct (Hfind e He).
Qed.

Lemma find_element_is_Some i n :
  is_Some (find_element i n) ↔ ∃ e, e ∈ elements_of n ∧ el_id e = i.
Proof.
  split.
  - intros [e [??]%find_element_Some]. eauto.
  - intros (e & He & Hi). apply not_eq_None_Some. rewrite find_element_None.
    naive_solver.
Qed.

Lemma find_element_in_ids i n : is_Some (find_element i n) → i ∈ ids_of n.
Proof. intros (e & He & <-)%find_element_is_Some. by apply elements_of_id_in. Qed.

(** Below an element other than [i], the element [i] is in one of the
    children. *)
Lemma find_element_child i e cs :
  el_id e ≠ i → is_Some (find_element i (Elem e cs)) →
  ∃ c, c ∈ cs ∧ is_Some (find_element i c).
Proof.
  intros Hne (e' & He' & Hi)%find_element_is_Some. cbn in He'.
  apply elem_of_cons in He' as [->|He']; [done|].
  apply list_elem_of_bind in He' as (c & He' & Hc).
  exists c. split; [done|]. apply find_element_is_Some. eauto.
Qed.

(** ** Lemmas: paths *)

Lemma path_to_root n : path_to (node_id n) n = Some [node_id n].
Proof. destruct n; cbn; by rewrite decide_True. Qed.

(** A path ends at its target, starts at the root and stays in the tree. *)
Lemma path_to_spec i n p :
  path_to i n = Some p →
  head p = Some (node_id n) ∧ last p = Some i ∧ p ⊆ ids_of n.
Proof.
  revert p. induction n as [e cs IH|j d] using node_forall_ind; intros p; cbn.
  - case_decide as Hid.
    { intros [= <-]. subst i. set_solver. }
    destruct (first_some _) as [q|] eqn:Hq; [|done]. intros [= <-].
    apply first_some_Some in Hq as (c & Hc & Hq).
    rewrite Forall_forall in IH. destruct (IH c Hc q Hq) as (Hhd & Hlast & Hsub).
    split; [done|]. split.
    + destruct q; [done|]. by rewrite last_cons, Hlast.
    + intros x [->|Hx]%elem_of_cons; [left|right].
      apply list_elem_of_bind. eauto.
  - case_decide; [|done]. intros [= <-]. subst. set_solver.
Qed.

Lemma path_to_None i n : path_to i n = None ↔ i ∉ ids_of n.
Proof.
  induction n as [e cs IH|j d] using node_forall_ind; cbn.
  - case_decide as Hid; [subst; set_solver|].
    rewrite fmap_None, first_some_None, not_elem_of_cons.
    rewrite list_elem_of_bind, !Forall_forall in *. naive_solver.
  - case_decide; set_solver.
Qed.

Lemma path_to_is_Some i n : is_Some (path_to i n) ↔ i ∈ ids_of n.
Proof.
  rewrite <-not_eq_None_Some, path_to_None.
  destruct (decide (i ∈ ids_of n)); naive_solver.
Qed.

(** A node of the document is among its own inclusive ancestors, and so is
    the root. *)
Lemma inclusive_ancestors_self i doc :
  i ∈ ids_of doc → i ∈ inclusive_ancestors i doc.
Proof.
  intros [p Hp]%path_to_is_Some. unfold inclusive_ancestors. rewrite Hp. cbn.
  apply path_to_spec in Hp as (_ & Hlast & _).
  apply elem_of_reverse. by apply last_Some_elem_of.
Qed.

Lemma inclusive_ancestors_root i doc :
  i ∈ ids_of doc → node_id doc ∈ inclusive_ancestors i doc.
Proof.
  intros [p Hp]%path_to_is_Some. unfold inclusive_ancestors. rewrite Hp. cbn.
  apply path_to_spec in Hp as (Hhd & _ & _).
  apply elem_of_reverse. by apply head_Some_elem_of.
Qed.

Lemma inclusive_ancestors_in_doc a i doc :
  a ∈ inclusive_ancestors i doc → a ∈ ids_of doc.
Proof.
  unfold inclusive_ancestors. destruct (path_to i doc) as [p|] eqn:Hp; cbn.
  - rewrite elem_of_reverse. apply path_to_spec in Hp as (_ & _ & Hsub). auto.
  - by intros ?%elem_of_nil.
Qed.

(** ** Lemmas: the body *)

(** The body is a child of the [html] root and is a [body] or [frameset]
    element; it is in the document. *)
Lemma document_body_Some doc b :
  document_body doc = Some b →
  ∃ e cs c, doc = Elem e cs ∧ localName e = "html" ∧
            c ∈ cs ∧ is_body c ∧ node_id c = b.
Proof.
  destruct doc as [e cs|]; [|done]. cbn. case_decide; [|done].
  intros (c & Hc & ->)%fmap_Some. apply head_filter_holds in Hc as [??].
  by exists e, cs, c.
Qed.

Lemma document_body_in_doc doc b : document_body doc = Some b → b ∈ ids_of doc.
Proof.
  intros (e & cs & c & -> & _ & Hc & _ & <-)%document_body_Some. cbn.
  right. apply list_elem_of_bind. exists c. split; [apply node_id_in_ids|done].
Qed.
