(* ===== verification/Selector.v ===== *)
(** * Selector: compound selectors and the two query functions

    The selectors the script passes to the browser are compound selectors:
    an optional tag name, class names, and attribute tests with the
    operators = (the value is exactly the text) and *= (the value contains
    the text).  [querySelectorAll] answers the matching elements in document
    order; [querySelector] searches the tree and stops at the first match. *)

From S2P Require Import Prelude Text Dom.

Local Open Scope string_scope.
Local Open Scope list_scope.

(** ** Data *)

Inductive attr_op : Type :=
| AttrEquals      (* [name=value] *)
| AttrIncludes.   (* [name*=value] *)

Record attr_test : Type := AttrTest {
  at_name : string;
  at_op : attr_op;
  at_value : string
}.

Record selector : Type := Selector {
  sel_tag : option string;
  sel_classes : list string;
  sel_attrs : list attr_test
}.

#[export] Instance attr_op_eq_dec : EqDecision attr_op.
Proof. solve_decision. Defined.
#[export] Instance attr_test_eq_dec : EqDecision attr_test.
Proof. solve_decision. Defined.
#[export] Instance selector_eq_dec : EqDecision selector.
Proof. solve_decision. Defined.

Declare Scope sel_scope.
Delimit Scope sel_scope with sel.
Notation "name =' value" := (AttrTest name AttrEquals value)
  (at level 70, no associativity) : sel_scope.
Notation "name *=' value" := (AttrTest name AttrIncludes value)
  (at level 70, no associativity) : sel_scope.

(** ** Matching *)

(** An attribute test holds when the element has the attribute and its value
    passes the operator.  A substring test for the empty text holds of
    nothing, as the selectors standard has it. *)
Definition attr_holds (t : attr_test) (e : element) : Prop :=
  match getAttribute (at_name t) e with
  | Some v =>
      match at_op t with
      | AttrEquals => v = at_value t
      | AttrIncludes => at_value t ≠ "" ∧ substring_of (at_value t) v
      end
  | None => False
  end.

#[export] Instance attr_holds_dec t e : Decision (attr_holds t e).
Proof.
  unfold attr_holds. destruct (getAttribute _ _); [|apply _].
  destruct (at_op t); apply _.
Defined.

(** An element matches a compound selector when it passes every part. *)
Definition matches (s : selector) (e : element) : Prop :=
  from_option (λ t, localName e = t) True (sel_tag s) ∧
  Forall (λ c, c ∈ classList e) (sel_classes s) ∧
  Forall (λ t, attr_holds t e) (sel_attrs s).

#[export] Instance matches_dec s e : Decision (matches s e).
Proof. unfold matches. destruct (sel_tag s); cbn; apply _. Defined.

(** ** Queries *)

(** All matching elements of the document, in document order. *)
Definition querySelectorAll (s : selector) (doc : node) : list element :=
  filter (matches s) (elements_of doc).

(** The first matching element: the node itself if it matches, otherwise
    the first match of the first child that has one. *)
Fixpoint querySelector (s : selector) (n : node) : option element :=
  match n with
  | Elem e cs =>
      if decide (matches s e) then Some e
      else first_some (querySelector s <$> cs)
  | TextNode _ _ => None
  end.

(** ** Lemmas *)

Section queries.
Context (s : selector).
Implicit Types (doc n : node) (e : element).

(** A query answers exactly the elements of the document that match. *)
Lemma elem_of_querySelectorAll doc e :
  e ∈ querySelectorAll s doc ↔ matches s e ∧ e ∈ elements_of doc.
Proof. apply list_elem_of_filter. Qed.

(** The answer keeps the document order. *)
Lemma querySelectorAll_sublist doc :
  querySelectorAll s doc `sublist_of` elements_of doc.
Proof. apply sublist_filter. Qed.

Lemma querySelectorAll_Elem e cs :
  querySelectorAll s (Elem e cs) =
    (if decide (matches s e) then [e] else []) ++ (cs ≫= querySelectorAll s).
Proof.
  unfold querySelectorAll. cbn [elements_of]. rewrite filter_cons.
  assert (filter (matches s) (cs ≫= elements_of)
          = cs ≫= λ c, filter (matches s) (elements_of c)) as ->.
  { induction cs as [|c cs IH]; [done|]. cbn. by rewrite filter_app, IH. }
  by case_decide.
Qed.

(** The early-exit search finds the head of the full answer. *)
Lemma querySelector_head n :
  querySelector s n = head (querySelectorAll s n).
Proof.
  induction n as [e cs IH|i d] using node_forall_ind; [|done].
  rewrite querySelectorAll_Elem. cbn [querySelector]. case_decide; [done|].
  rewrite app_nil_l. induction IH as [|c cs Hc _ IHcs]; [done|].
  rewrite first_some_cons, Hc. cbn.
  by destruct (querySelectorAll s c).
Qed.

Lemma querySelector_Some n e :
  querySelector s n = Some e → matches s e ∧ e ∈ elements_of n.
Proof. rewrite querySelector_head. apply head_filter_holds. Qed.

(** The element found is the first match: every element before it in
    document order fails the selector. *)
Lemma querySelector_first n e :
  querySelector s n = Some e →
  ∃ before after, elements_of n = before ++ e :: after ∧
                  Forall (λ x, ¬ matches s x) before.
Proof. rewrite querySelector_head. apply head_filter_Some. Qed.

Lemma querySelector_None n :
  querySelector s n = None ↔ ∀ e, e ∈ elements_of n → ¬ matches s e.
Proof.
  rewrite querySelector_head. unfold querySelectorAll.
  by rewrite head_filter_None, Forall_forall.
Qed.

(** Conversely, a matching element with no match before it is the one the
    query finds. *)
Lemma querySelector_intro n before e after :
  elements_of n = before ++ e :: after →
  Forall (λ x, ¬ matches s x) before → matches s e →
  querySelector s n = Some e.
Proof.
  intros Hn Hbefore He. rewrite querySelector_head. unfold querySelectorAll.
  rewrite Hn, head_filter_app.
  apply (head_filter_None (matches s)) in Hbefore as ->.
  by rewrite head_filter_cons, decide_True.
Qed.

(** A query finds something exactly when the full answer is not empty. *)
Lemma querySelector_is_Some n :
  is_Some (querySelector s n) ↔ 0 < length (querySelectorAll s n).
Proof. rewrite querySelector_head. symmetry. apply filter_nonempty_length. Qed.

(** Index 0 of the full answer is what the single query finds. *)
Lemma querySelectorAll_lookup_0 n :
  querySelectorAll s n !! 0 = querySelector s n.
Proof. rewrite querySelector_head. by destruct (querySelectorAll s n). Qed.

(** In a well-formed document the handles of an answer are distinct. *)
Lemma querySelectorAll_NoDup doc :
  wf_node doc → NoDup (el_id <$> querySelectorAll s doc).
Proof.
  intros Hwf. eapply sublist_NoDup; [by apply wf_elements_NoDup|].
  apply fmap_sublist, querySelectorAll_sublist.
Qed.
End queries.
