(* ===== verification/SelectorText.v ===== *)
(** * SelectorText: selectors as the script writes them

    The script passes its selectors to the browser as text.  This file
    gives the text of a compound selector ([print_selector]) and reads a
    text back ([parse_selector]): a lexer that makes one pass over the
    characters, and a parser over its lexemes.  The fragment is the one the
    script uses, in its canonical spelling: an optional tag name, then
    classes, then attribute tests with a double-quoted value; no
    whitespace, escapes, combinators or selector lists.  A text outside the
    fragment does not parse.

    Reading what was printed gives the selector back, and whatever reads
    was printed from a well-formed selector: the two functions are inverse
    bijections between canonical texts and well-formed selectors. *)

From Stdlib Require Import Ascii.
From S2P Require Import Prelude Text Dom Selector.

Local Open Scope string_scope.
Local Open Scope list_scope.

(** ** Characters *)

Definition dquote : ascii := ascii_of_nat 34.
Definition backslash : ascii := ascii_of_nat 92.
Definition newline : ascii := ascii_of_nat 10.

Definition in_range (lo hi : nat) (c : ascii) : bool :=
  (lo <=? nat_of_ascii c)%nat && (nat_of_ascii c <=? hi)%nat.

(** Letters and the underscore start a name; digits and the hyphen may
    follow. *)
Definition is_ident_start (c : ascii) : bool :=
  in_range 65 90 c || in_range 97 122 c || Ascii.eqb c "_".

Definition is_ident_char (c : ascii) : bool :=
  is_ident_start c || in_range 48 57 c || Ascii.eqb c "-".

(** Inside the quotes anything goes but the quote, the escape character
    and a line break. *)
Definition is_value_char (c : ascii) : bool :=
  negb (Ascii.eqb c dquote || Ascii.eqb c backslash || Ascii.eqb c newline).

Fixpoint all_chars (p : ascii → bool) (s : string) : bool :=
  match s with
  | "" => true
  | String c s' => p c && all_chars p s'
  end.

Definition is_ident (s : string) : bool :=
  match s with
  | "" => false
  | String c s' => is_ident_start c && all_chars is_ident_char s'
  end.

Definition is_value (s : string) : bool := all_chars is_value_char s.

(** ** Lexemes *)

Inductive lexeme : Type :=
| LIdent (s : string)
| LString (s : string)
| LDot
| LOpen
| LClose
| LEquals
| LIncludes.

#[export] Instance lexeme_eq_dec : EqDecision lexeme.
Proof. solve_decision. Defined.

Definition is_lident (t : lexeme) : bool :=
  match t with
  | LIdent _ => true
  | LString _ | LDot | LOpen | LClose | LEquals | LIncludes => false
  end.

Definition wf_lexeme (t : lexeme) : bool :=
  match t with
  | LIdent s => is_ident s
  | LString s => is_value s
  | LDot | LOpen | LClose | LEquals | LIncludes => true
  end.

Definition quoted (v : string) : string :=
  String dquote (v +:+ String dquote "").

Definition print_lexeme (t : lexeme) : string :=
  match t with
  | LIdent s => s
  | LString s => quoted s
  | LDot => "."
  | LOpen => "["
  | LClose => "]"
  | LEquals => "="
  | LIncludes => "*="
  end.

(** The text of a sequence of lexemes: one after the other, nothing in
    between. *)
Definition unlex (ts : list lexeme) : string :=
  foldr (λ t s, print_lexeme t +:+ s) "" ts.

(** ** The lexer *)

(** Where the lexer is: between lexemes, inside a name, inside a quoted
    value, or after the star of the operator *=. *)
Inductive mode : Type :=
| Plain
| InIdent (cur : string)
| InString (cur : string)
| AfterStar.

(** The text read so far of the lexeme the lexer is in. *)
Definition pending (m : mode) : string :=
  match m with
  | Plain => ""
  | InIdent cur => cur
  | InString cur => String dquote cur
  | AfterStar => "*"
  end.

Definition wf_mode (m : mode) : bool :=
  match m with
  | Plain | AfterStar => true
  | InIdent cur => is_ident cur
  | InString cur => is_value cur
  end.

Definition snoc (s : string) (c : ascii) : string := s +:+ String c "".

Definition prepend (ts : list lexeme) (r : option (list lexeme)) :
    option (list lexeme) :=
  (ts ++.) <$> r.

(** What a character does between lexemes: the lexemes it completes and
    the mode it leaves the lexer in. *)
Definition plain (c : ascii) : option (list lexeme * mode) :=
  if is_ident_start c then Some ([], InIdent (String c ""))
  else if Ascii.eqb c "." then Some ([LDot], Plain)
  else if Ascii.eqb c "[" then Some ([LOpen], Plain)
  else if Ascii.eqb c "]" then Some ([LClose], Plain)
  else if Ascii.eqb c "=" then Some ([LEquals], Plain)
  else if Ascii.eqb c "*" then Some ([], AfterStar)
  else if Ascii.eqb c dquote then Some ([], InString "")
  else None.

Fixpoint lex_from (m : mode) (s : string) : option (list lexeme) :=
  match s with
  | "" =>
      match m with
      | Plain => Some []
      | InIdent cur => Some [LIdent cur]
      | InString _ | AfterStar => None
      end
  | String c s' =>
      match m with
      | Plain => '(ts, m') ← plain c; prepend ts (lex_from m' s')
      | InIdent cur =>
          if is_ident_char c then lex_from (InIdent (snoc cur c)) s'
          else '(ts, m') ← plain c; prepend (LIdent cur :: ts) (lex_from m' s')
      | InString cur =>
          if Ascii.eqb c dquote then prepend [LString cur] (lex_from Plain s')
          else if is_value_char c then lex_from (InString (snoc cur c)) s'
          else None
      | AfterStar =>
          if Ascii.eqb c "=" then prepend [LIncludes] (lex_from Plain s')
          else None
      end
  end.

Definition lex (s : string) : option (list lexeme) := lex_from Plain s.

(** A text a name can end before: the end, or a character that does not
    continue a name. *)
Definition boundary (s : string) : bool :=
  match s with
  | "" => true
  | String c _ => negb (is_ident_char c)
  end.

Definition starts_ident (ts : list lexeme) : bool :=
  match ts with
  | t :: _ => is_lident t
  | [] => false
  end.

(** No two names in a row: printed without a separator they would read as
    one. *)
Fixpoint separated (ts : list lexeme) : bool :=
  match ts with
  | [] => true
  | t :: rest => negb (is_lident t && starts_ident rest) && separated rest
  end.

(** Separated, and not starting with a name: what can follow a name. *)
Definition guarded (ts : list lexeme) : bool :=
  separated ts && negb (starts_ident ts).

(** ** The parser *)

Definition op_lexeme (op : attr_op) : lexeme :=
  match op with
  | AttrEquals => LEquals
  | AttrIncludes => LIncludes
  end.

Definition op_of (t : lexeme) : option attr_op :=
  match t with
  | LEquals => Some AttrEquals
  | LIncludes => Some AttrIncludes
  | LIdent _ | LString _ | LDot | LOpen | LClose => None
  end.

Definition attr_lexemes (a : attr_test) : list lexeme :=
  [LOpen; LIdent (at_name a); op_lexeme (at_op a); LString (at_value a); LClose].

Definition class_lexemes (c : string) : list lexeme := [LDot; LIdent c].

Definition lexemes_of (s : selector) : list lexeme :=
  from_option (λ t, [LIdent t]) [] (sel_tag s)
    ++ (sel_classes s ≫= class_lexemes) ++ (sel_attrs s ≫= attr_lexemes).

Fixpoint parse_attrs (ts : list lexeme) : option (list attr_test) :=
  match ts with
  | [] => Some []
  | LOpen :: LIdent n :: t :: LString v :: LClose :: rest =>
      op ← op_of t; (AttrTest n op v ::.) <$> parse_attrs rest
  | _ => None
  end.

Fixpoint parse_classes (ts : list lexeme) :
    option (list string * list attr_test) :=
  match ts with
  | LDot :: LIdent c :: rest => prod_map (c ::.) id <$> parse_classes rest
  | _ => ([],.) <$> parse_attrs ts
  end.

(** A selector has one part or more. *)
Definition parse_lexemes (ts : list lexeme) : option selector :=
  match ts with
  | [] => None
  | LIdent t :: rest => (λ p, Selector (Some t) p.1 p.2) <$> parse_classes rest
  | _ => (λ p, Selector None p.1 p.2) <$> parse_classes ts
  end.

Definition parse_selector (text : string) : option selector :=
  lex text ≫= parse_lexemes.

Definition print_selector (s : selector) : string := unlex (lexemes_of s).

(** ** Well-formed selectors *)

Definition wf_attr (a : attr_test) : Prop :=
  is_ident (at_name a) ∧ is_value (at_value a).

Definition wf_selector (s : selector) : Prop :=
  from_option (λ t, is_ident t : Prop) True (sel_tag s) ∧
  Forall (λ c, is_ident c) (sel_classes s) ∧
  Forall wf_attr (sel_attrs s) ∧
  s ≠ Selector None [] [].

#[export] Instance wf_selector_dec s : Decision (wf_selector s).
Proof. unfold wf_selector, wf_attr. destruct (sel_tag s); cbn; apply _. Defined.

(** ** Lemmas: text *)

Lemma all_chars_app p (s1 s2 : string) :
  all_chars p (s1 +:+ s2) = all_chars p s1 && all_chars p s2.
Proof.
  induction s1 as [|c s1 IH]; [done|].
  rewrite append_cons. cbn. by rewrite IH, andb_assoc.
Qed.

Lemma is_ident_start_char c : is_ident_start c → is_ident_char c.
Proof. unfold is_ident_char. intros Hc. by rewrite (Is_true_eq_true _ Hc). Qed.

Lemma all_chars_snoc p cur c : all_chars p cur → p c → all_chars p (snoc cur c).
Proof.
  unfold snoc. rewrite all_chars_app. cbn. rewrite andb_true_r.
  intros. by apply andb_True.
Qed.

Lemma is_ident_snoc cur c : is_ident cur → is_ident_char c → is_ident (snoc cur c).
Proof.
  destruct cur as [|c0 cur]; [done|]. cbn. intros [??]%andb_True ?.
  apply andb_True. split; [done|]. by apply all_chars_snoc.
Qed.

Lemma is_value_snoc cur c : is_value cur → is_value_char c → is_value (snoc cur c).
Proof. apply all_chars_snoc. Qed.

Lemma value_char_not_dquote c : is_value_char c → Ascii.eqb c dquote = false.
Proof. unfold is_value_char. by destruct (Ascii.eqb c dquote). Qed.

Lemma unlex_cons t ts : unlex (t :: ts) = print_lexeme t +:+ unlex ts.
Proof. done. Qed.

Lemma unlex_app ts1 ts2 : unlex (ts1 ++ ts2) = unlex ts1 +:+ unlex ts2.
Proof.
  induction ts1 as [|t ts1 IH]; [done|].
  by rewrite <-app_comm_cons, !unlex_cons, IH, append_assoc.
Qed.

Lemma prepend_nil r : prepend [] r = r.
Proof. by destruct r. Qed.

Lemma prepend_prepend ts1 ts2 r :
  prepend ts1 (prepend ts2 r) = prepend (ts1 ++ ts2) r.
Proof. destruct r; cbn; [|done]. by rewrite app_assoc. Qed.

(** ** Lemmas: reading what was printed *)

(** Characters of a name only extend the name being read. *)
Lemma lex_ident_chars cur i rest :
  all_chars is_ident_char i →
  lex_from (InIdent cur) (i +:+ rest) = lex_from (InIdent (cur +:+ i)) rest.
Proof.
  revert cur. induction i as [|c i IH]; intros cur; cbn [all_chars].
  { by rewrite append_nil_l, append_nil_r. }
  intros [Hc Hi]%andb_True. rewrite append_cons. cbn [lex_from].
  rewrite (Is_true_eq_true _ Hc), IH by done. unfold snoc.
  by rewrite append_snoc.
Qed.

(** At a boundary the name is complete. *)
Lemma lex_ident_end cur rest :
  boundary rest →
  lex_from (InIdent cur) rest = prepend [LIdent cur] (lex_from Plain rest).
Proof.
  destruct rest as [|c rest]; [done|]. cbn [boundary lex_from].
  intros Hc%negb_prop_elim%Is_true_false. rewrite Hc.
  destruct (plain c) as [[ts m]|]; [|done].
  exact (eq_sym (prepend_prepend [LIdent cur] ts (lex_from m rest))).
Qed.

Lemma lex_ident i rest :
  is_ident i → boundary rest →
  lex_from Plain (i +:+ rest) = prepend [LIdent i] (lex_from Plain rest).
Proof.
  destruct i as [|c i]; [done|]. cbn [is_ident].
  intros [Hc Hi]%andb_True Hrest. rewrite append_cons. cbn [lex_from].
  unfold plain. rewrite (Is_true_eq_true _ Hc). cbn.
  by rewrite prepend_nil, lex_ident_chars, lex_ident_end.
Qed.

(** Characters of a value only extend the value being read, up to the
    closing quote. *)
Lemma lex_value cur v rest :
  is_value v →
  lex_from (InString cur) (v +:+ String dquote rest)
  = prepend [LString (cur +:+ v)] (lex_from Plain rest).
Proof.
  unfold is_value. revert cur. induction v as [|c v IH]; intros cur; cbn [all_chars].
  { intros _. by rewrite append_nil_l, append_nil_r. }
  intros [Hc Hv]%andb_True. rewrite append_cons. cbn [lex_from].
  rewrite (value_char_not_dquote _ Hc), (Is_true_eq_true _ Hc), IH by done.
  unfold snoc. by rewrite append_snoc.
Qed.

Lemma lex_quoted v rest :
  is_value v →
  lex_from Plain (quoted v +:+ rest) = prepend [LString v] (lex_from Plain rest).
Proof.
  intros Hv. unfold quoted. rewrite append_cons, append_snoc.
  trans (prepend [] (lex_from (InString "") (v +:+ String dquote rest))); [done|].
  by rewrite prepend_nil, lex_value.
Qed.

(** One lexeme, whatever follows; a name needs a boundary after it. *)
Lemma lex_lexeme t rest :
  wf_lexeme t → (is_lident t → boundary rest) →
  lex_from Plain (print_lexeme t +:+ rest) = prepend [t] (lex_from Plain rest).
Proof.
  destruct t; cbn [wf_lexeme print_lexeme is_lident]; intros Ht Hb;
    [by apply lex_ident; [|apply Hb]|by apply lex_quoted|done..|].
  trans (prepend [] (prepend [LIncludes] (lex_from Plain rest))); [done|].
  apply prepend_nil.
Qed.

Lemma boundary_unlex ts : starts_ident ts = false → Forall wf_lexeme ts →
  boundary (unlex ts).
Proof.
  destruct 2 as [|t ts Ht _]; [done|]. by destruct t.
Qed.

(** The lexer reads back what is printed: the text of well-formed lexemes,
    no two names in a row, lexes to these lexemes. *)
Lemma lex_unlex ts :
  Forall wf_lexeme ts → separated ts → lex (unlex ts) = Some ts.
Proof.
  unfold lex. induction 1 as [|t ts Ht Hts IH]; [done|]. cbn [separated].
  intros [Hsep Hrest]%andb_True. rewrite unlex_cons, lex_lexeme; [by rewrite IH|done|].
  intros Hid. apply boundary_unlex; [|done].
  destruct (starts_ident ts); [|done]. by rewrite (Is_true_eq_true _ Hid) in Hsep.
Qed.

(** ** Lemmas: printing what was read *)

Lemma prepend_Some ts0 r ts :
  prepend ts0 r = Some ts → ∃ ts1, r = Some ts1 ∧ ts = ts0 ++ ts1.
Proof. apply fmap_Some. Qed.

(** A character that is accepted between lexemes is the text of what it
    completes and what it starts. *)
Lemma plain_Some c ts m :
  plain c = Some (ts, m) →
  unlex ts +:+ pending m = String c "" ∧ Forall wf_lexeme ts ∧ wf_mode m.
Proof.
  unfold plain. destruct (is_ident_start c) eqn:Hc.
  { intros [= <- <-]. cbn. by rewrite Hc. }
  repeat match goal with
         | |- context [Ascii.eqb c ?x] =>
             destruct (Ascii.eqb_spec c x) as [->|_];
             [intros [= <- <-]; split_and!; by repeat constructor|]
         end.
  done.
Qed.

(** The lexemes read are well formed, and their text is the text that was
    read, with what the lexer had read before. *)
Lemma lex_from_Some m s ts :
  wf_mode m → lex_from m s = Some ts →
  unlex ts = pending m +:+ s ∧ Forall wf_lexeme ts.
Proof.
  revert m ts. induction s as [|c s IH]; intros m ts Hm; cbn [lex_from].
  { destruct m; try done; intros [= <-]; by repeat constructor. }
  assert (∀ ts0 m' ts1, plain c = Some (ts0, m') → lex_from m' s = Some ts1 →
            unlex (ts0 ++ ts1) = String c s ∧ Forall wf_lexeme (ts0 ++ ts1))
    as Hplain.
  { intros ts0 m' ts1 (Htxt & Hts0 & Hm')%plain_Some Hl.
    destruct (IH _ _ Hm' Hl) as [Hu Hw]. split; [|by apply Forall_app].
    by rewrite unlex_app, Hu, <-append_assoc, Htxt. }
  destruct m as [|cur|cur|]; cbn [pending].
  - destruct (plain c) as [[ts0 m']|] eqn:Hp; [|done].
    intros (ts1 & Hl & ->)%prepend_Some. eauto.
  - destruct (is_ident_char c) eqn:Hc.
    + intros Hl. apply Is_true_eq_left in Hc.
      destruct (IH (InIdent (snoc cur c)) ts (is_ident_snoc cur c Hm Hc) Hl)
        as [-> Hw]. split; [apply append_snoc|done].
    + destruct (plain c) as [[ts0 m']|] eqn:Hp; [|done].
      intros (ts1 & Hl & ->)%prepend_Some. destruct (Hplain _ _ _ eq_refl Hl) as [Hu Hw].
      split; [|by constructor]. by rewrite <-app_comm_cons, unlex_cons, Hu.
  - destruct (Ascii.eqb_spec c dquote) as [->|_].
    + intros (ts1 & Hl & ->)%prepend_Some. destruct (IH Plain ts1 I Hl) as [Hu Hw].
      split; [|by constructor]. cbn [app]. rewrite unlex_cons, Hu.
      cbn [print_lexeme pending]. unfold quoted.
      by rewrite !append_cons, append_snoc.
    + destruct (is_value_char c) eqn:Hc; [|done]. intros Hl.
      apply Is_true_eq_left in Hc.
      destruct (IH (InString (snoc cur c)) ts (is_value_snoc cur c Hm Hc) Hl)
        as [-> Hw]. split; [|done]. cbn [pending].
      rewrite !append_cons. f_equal. apply append_snoc.
  - destruct (Ascii.eqb_spec c "=") as [->|_]; [|done].
    intros (ts1 & Hl & ->)%prepend_Some. destruct (IH Plain ts1 I Hl) as [Hu Hw].
    split; [|by constructor]. cbn [app]. by rewrite unlex_cons, Hu.
Qed.

(** ** Lemmas: the parser *)

Lemma op_of_lexeme op : op_of (op_lexeme op) = Some op.
Proof. by destruct op. Qed.

Lemma op_of_Some t op : op_of t = Some op → t = op_lexeme op.
Proof. by destruct t; intros [= <-]. Qed.

Lemma parse_attrs_lexemes ats : parse_attrs (ats ≫= attr_lexemes) = Some ats.
Proof.
  induction ats as [|[n op v] ats IH]; [done|]. rewrite bind_cons.
  trans (op' ← op_of (op_lexeme op);
         (AttrTest n op' v ::.) <$> parse_attrs (ats ≫= attr_lexemes)); [done|].
  by rewrite op_of_lexeme, IH.
Qed.

Lemma parse_classes_attrs ats :
  parse_classes (ats ≫= attr_lexemes) = Some ([], ats).
Proof.
  trans ((([] : list string),.) <$> parse_attrs (ats ≫= attr_lexemes));
    [by destruct ats|by rewrite parse_attrs_lexemes].
Qed.

Lemma parse_classes_lexemes cs ats :
  parse_classes ((cs ≫= class_lexemes) ++ (ats ≫= attr_lexemes)) = Some (cs, ats).
Proof.
  induction cs as [|c cs IH]; [apply parse_classes_attrs|].
  rewrite bind_cons, <-app_assoc.
  trans (prod_map (c ::.) id
           <$> parse_classes ((cs ≫= class_lexemes) ++ (ats ≫= attr_lexemes)));
    [done|by rewrite IH].
Qed.

Lemma parse_lexemes_of s :
  s ≠ Selector None [] [] → parse_lexemes (lexemes_of s) = Some s.
Proof.
  destruct s as [[t|] cs ats]; unfold lexemes_of; cbn [sel_tag sel_classes sel_attrs];
    intros Hne.
  - trans ((λ p, Selector (Some t) p.1 p.2)
             <$> parse_classes ((cs ≫= class_lexemes) ++ (ats ≫= attr_lexemes)));
      [done|by rewrite parse_classes_lexemes].
  - trans ((λ p, Selector None p.1 p.2)
             <$> parse_classes ((cs ≫= class_lexemes) ++ (ats ≫= attr_lexemes)));
      [|by rewrite parse_classes_lexemes].
    destruct cs as [|c cs]; [|done]. by destruct ats as [|[n op v] ats].
Qed.

(** Destructs the lexemes a parser looks at, as far as it looks. *)
Ltac parse_inv H :=
  repeat (match type of H with
          | context [match ?x with _ => _ end] => is_var x; destruct x
          end; cbn in H; try done).

Lemma parse_attrs_Some ts ats :
  parse_attrs ts = Some ats → ts = ats ≫= attr_lexemes.
Proof.
  revert ts. induction ats as [|a ats IH]; intros ts Hp;
    (destruct ts as [|t ts]; [by simplify_eq/=|]); cbn in Hp; parse_inv Hp;
    apply bind_Some in Hp as (op & ->%op_of_Some & (ats' & Hr & [=])%fmap_Some);
    simplify_eq. rewrite bind_cons. cbn. f_equal. do 4 f_equal. by apply IH.
Qed.

Lemma parse_classes_cases ts :
  (∃ c rest, ts = LDot :: LIdent c :: rest ∧
     parse_classes ts = prod_map (c ::.) id <$> parse_classes rest) ∨
  parse_classes ts = (([] : list string),.) <$> parse_attrs ts.
Proof. destruct ts as [|[] [|[] rest]]; eauto. Qed.

Lemma parse_classes_Some ts cs ats :
  parse_classes ts = Some (cs, ats) →
  ts = (cs ≫= class_lexemes) ++ (ats ≫= attr_lexemes).
Proof.
  revert ts. induction cs as [|c cs IH]; intros ts;
    destruct (parse_classes_cases ts) as [(c' & rest & -> & ->)| ->].
  - by intros ([??] & _ & [=])%fmap_Some.
  - by intros (? & ?%parse_attrs_Some & [= <-])%fmap_Some.
  - intros ([??] & Hr & [=])%fmap_Some. simplify_eq/=. by rewrite (IH _ Hr).
  - by intros (? & _ & [=])%fmap_Some.
Qed.

Lemma lexemes_of_nil s : lexemes_of s = [] → s = Selector None [] [].
Proof. by destruct s as [[t|] [|c cs] [|a ats]]. Qed.

Lemma parse_lexemes_Some ts s :
  parse_lexemes ts = Some s → ts = lexemes_of s ∧ s ≠ Selector None [] [].
Proof.
  assert (∀ ts tag, (λ p, Selector tag p.1 p.2) <$> parse_classes ts = Some s →
            from_option (λ t, [LIdent t]) [] tag ++ ts = lexemes_of s) as Hcl.
  { intros ts' tag ([cs ats] & ->%parse_classes_Some & ->)%fmap_Some. done. }
  destruct ts as [|t ts]; [done|]. intros Hp.
  assert (t :: ts = lexemes_of s) as Hts;
    [|split; [done|]; intros ->; by rewrite Hts in Hp].
  destruct t; first [apply (Hcl _ (Some _) Hp)|apply (Hcl _ None Hp)].
Qed.

(** ** Lemmas: the lexemes of a selector *)

Lemma guarded_attr a ts : guarded ts → guarded (attr_lexemes a ++ ts).
Proof.
  unfold guarded. intros [Hsep _]%andb_True. destruct a as [n [] v]; cbn;
    by rewrite (Is_true_eq_true _ Hsep).
Qed.

Lemma guarded_class c ts : guarded ts → guarded (class_lexemes c ++ ts).
Proof.
  unfold guarded. intros [Hsep Hs]%andb_True. cbn.
  by rewrite (Is_true_eq_true _ Hsep), (Is_true_eq_true _ Hs).
Qed.

Lemma guarded_classes_attrs cs ats :
  guarded ((cs ≫= class_lexemes) ++ (ats ≫= attr_lexemes)).
Proof.
  induction cs as [|c cs IH].
  - induction ats as [|a ats IH]; [done|]. apply guarded_attr, IH.
  - rewrite bind_cons, <-app_assoc. apply guarded_class, IH.
Qed.

Lemma separated_lexemes_of s : separated (lexemes_of s).
Proof.
  destruct s as [tag cs ats]. unfold lexemes_of. cbn [sel_tag sel_classes sel_attrs].
  destruct (proj1 (andb_True _ _) (guarded_classes_attrs cs ats)) as [Hsep Hs].
  destruct tag as [t|]; [|done]. cbn.
  by rewrite (Is_true_eq_true _ Hsep), (Is_true_eq_true _ Hs).
Qed.

Lemma wf_class_lexemes c : Forall wf_lexeme (class_lexemes c) ↔ is_ident c.
Proof.
  unfold class_lexemes. rewrite !Forall_cons, Forall_nil. cbn. naive_solver.
Qed.

Lemma wf_attr_lexemes a : Forall wf_lexeme (attr_lexemes a) ↔ wf_attr a.
Proof.
  unfold attr_lexemes, wf_attr. rewrite !Forall_cons, Forall_nil.
  destruct (at_op a); cbn; naive_solver.
Qed.

Lemma wf_lexemes_of s :
  Forall wf_lexeme (lexemes_of s) ↔
  from_option (λ t, is_ident t : Prop) True (sel_tag s) ∧
  Forall (λ c, is_ident c) (sel_classes s) ∧ Forall wf_attr (sel_attrs s).
Proof.
  unfold lexemes_of. rewrite !Forall_app, !Forall_bind.
  rewrite (Forall_iff _ _ _ wf_class_lexemes), (Forall_iff _ _ _ wf_attr_lexemes).
  destruct (sel_tag s); cbn; [rewrite Forall_singleton|rewrite Forall_nil];
    naive_solver.
Qed.

(** ** Round trip *)

(** Reading what was printed gives the selector back. *)
Lemma parse_print s :
  wf_selector s → parse_selector (print_selector s) = Some s.
Proof.
  intros (Ht & Hcs & Hats & Hne). unfold parse_selector, print_selector.
  rewrite lex_unlex; [by apply parse_lexemes_of| |apply separated_lexemes_of].
  by apply wf_lexemes_of.
Qed.

(** Printing what was read gives the text back: the syntax has one text
    per selector, and only well-formed selectors are read. *)
Lemma print_parse text s :
  parse_selector text = Some s → print_selector s = text ∧ wf_selector s.
Proof.
  intros (ts & Hl & [-> Hne]%parse_lexemes_Some)%bind_Some.
  destruct (lex_from_Some Plain text _ I Hl) as [Hu Hw].
  split; [done|]. apply wf_lexemes_of in Hw. unfold wf_selector. naive_solver.
Qed.

Lemma parse_selector_Some text s :
  parse_selector text = Some s ↔ wf_selector s ∧ print_selector s = text.
Proof.
  split; [intros ?%print_parse; naive_solver|].
  intros [? <-]. by apply parse_print.
Qed.

(** Two texts that read as the same selector are the same text. *)
Lemma parse_selector_inj text1 text2 s :
  parse_selector text1 = Some s → parse_selector text2 = Some s → text1 = text2.
Proof. by intros [<- _]%print_parse [<- _]%print_parse. Qed.
