(* ===== verification/Edit.v ===== *)
(** * Edit: what a page does to its document

    The tree edits of a page script (inserting and removing nodes, setting
    an attribute, changing text) and of the layout engine (a new rendered
    height), with the condition under which each applies and the mutation
    record it gives rise to. *)

From S2P Require Import Prelude Text Dom.

Local Open Scope string_scope.
Local Open Scope list_scope.

(** ** Data *)

Inductive edit : Type :=
| InsertChild (parent pos : nat) (child : node)
| RemoveChild (child : nat)
| SetAttribute (target : nat) (name value : string)
| SetHeight (target : nat) (height : Z)
| SetData (target : nat) (data : string).

(** The [type] of a mutation record. *)
Inductive mutation_type : Type :=
| ChildList
| Attributes
| CharacterData.

#[export] Instance mutation_type_eq_dec : EqDecision mutation_type.
Proof. solve_decision. Defined.

(** A mutation record, reduced to what the script reads of it ([type]) and
    what decides who receives it ([target]). *)
Record mutation_record : Type := MutationRecord {
  mr_type : mutation_type;
  mr_target : nat
}.

#[export] Instance mutation_record_eq_dec : EqDecision mutation_record.
Proof. solve_decision. Defined.

(** ** Editing the tree *)

(** Applies [f] to the node with identifier [i]. *)
Fixpoint alter_node (f : node → node) (i : nat) (n : node) : node :=
  if decide (node_id n = i) then f n
  else match n with
       | Elem e cs => Elem e (alter_node f i <$> cs)
       | TextNode _ _ => n
       end.

(** Removes the subtree rooted at [i] from below [n]. *)
Fixpoint remove_node (i : nat) (n : node) : node :=
  match n with
  | Elem e cs => Elem e (filter (λ c, node_id c ≠ i) (remove_node i <$> cs))
  | TextNode _ _ => n
  end.

Definition insert_child (pos : nat) (c : node) (n : node) : node :=
  match n with
  | Elem e cs => Elem e (take pos cs ++ c :: drop pos cs)
  | TextNode _ _ => n
  end.

Definition on_element (f : element → element) (n : node) : node :=
  match n with
  | Elem e cs => Elem (f e) cs
  | TextNode _ _ => n
  end.

(** [setAttribute]: the attribute takes the new value, whether or not the
    element had it. *)
Definition set_attribute (name value : string) (e : element) : element :=
  Element (el_id e) (localName e)
    ((name, value) :: filter (λ kv, kv.1 ≠ name) (attributes e))
    (offsetHeight e).

Definition set_height (h : Z) (e : element) : element :=
  Element (el_id e) (localName e) (attributes e) h.

Definition set_data (d : string) (n : node) : node :=
  match n with
  | Elem _ _ => n
  | TextNode i _ => TextNode i d
  end.

(** The parent of node [i], when it has one. *)
Definition parent_of (i : nat) (doc : node) : option nat :=
  inclusive_ancestors i doc !! 1.

(** ** When an edit applies *)

(** An inserted subtree brings fresh, distinct identifiers and goes below an
    element; the root is never removed; attributes and heights belong to
    elements and data to text nodes; a height is not negative. *)
Definition edit_ok (ed : edit) (doc : node) : Prop :=
  match ed with
  | InsertChild p _ c =>
      is_Some (find_element p doc) ∧ wf_node c ∧
      Forall (λ j, j ∉ ids_of doc) (ids_of c)
  | RemoveChild i => i ∈ ids_of doc ∧ i ≠ node_id doc
  | SetAttribute i _ _ => is_Some (find_element i doc)
  | SetHeight i h => is_Some (find_element i doc) ∧ (0 ≤ h)%Z
  | SetData i _ => i ∈ ids_of doc ∧ find_element i doc = None
  end.

#[export] Instance edit_ok_dec ed doc : Decision (edit_ok ed doc).
Proof. destruct ed; apply _. Defined.

Definition perform (ed : edit) (doc : node) : node :=
  match ed with
  | InsertChild p pos c => alter_node (insert_child pos c) p doc
  | RemoveChild i => remove_node i doc
  | SetAttribute i k v => alter_node (on_element (set_attribute k v)) i doc
  | SetHeight i h => alter_node (on_element (set_height h)) i doc
  | SetData i d => alter_node (set_data d) i doc
  end.

(** The document after the edit, if the edit applies. *)
Definition apply_edit (ed : edit) (doc : node) : option node :=
  if decide (edit_ok ed doc) then Some (perform ed doc) else None.

(** The record an edit gives rise to, computed in the document before the
    edit: a child-list record on the parent for an insertion or a removal,
    an attribute record on the element, a character-data record on the text
    node, and nothing for a layout change. *)
Definition edit_record (ed : edit) (doc : node) : option mutation_record :=
  match ed with
  | InsertChild p _ _ => Some (MutationRecord ChildList p)
  | RemoveChild i => MutationRecord ChildList <$> parent_of i doc
  | SetAttribute i _ _ => Some (MutationRecord Attributes i)
  | SetHeight _ _ => None
  | SetData i _ => Some (MutationRecord CharacterData i)
  end.

(** ** Lemmas: identifiers under edits *)

Section alter.
Context (f : node → node) (i : nat).

(** Altering a node that is not there changes nothing. *)
Lemma alter_node_notin n : i ∉ ids_of n → alter_node f i n = n.
Proof.
  induction n as [e cs IH|j d] using node_forall_ind; cbn; intros Hi.
  - rewrite decide_False by set_solver. f_equal. apply fmap_fixed.
    rewrite not_elem_of_cons, list_elem_of_bind in Hi.
    rewrite Forall_forall in *. naive_solver.
  - by rewrite decide_False by set_solver.
Qed.

(** An alteration that keeps the identifiers of the node it is applied to
    keeps those of the tree. *)
Lemma alter_node_ids n :
  (∀ m, ids_of (f m) = ids_of m) → ids_of (alter_node f i n) = ids_of n.
Proof.
  intros Hf. induction n as [e cs IH|j d] using node_forall_ind; cbn.
  - case_decide; [apply Hf|]. cbn. f_equal. by apply bind_fmap_ext.
  - case_decide; [apply Hf|done].
Qed.
End alter.

Lemma remove_node_ids_sublist i n :
  ids_of (remove_node i n) `sublist_of` ids_of n.
Proof.
  induction n as [e cs IH|j d] using node_forall_ind; cbn; [|done].
  apply sublist_skip. induction IH as [|c cs Hc _ IHcs]; [done|].
  rewrite fmap_cons, filter_cons. case_decide; cbn.
  - by apply sublist_app.
  - by apply sublist_inserts_l.
Qed.

Lemma ids_of_insert_child pos c e cs :
  ids_of (insert_child pos c (Elem e cs)) ≡ₚ ids_of c ++ ids_of (Elem e cs).
Proof.
  cbn. rewrite bind_app, bind_cons. rewrite <-(take_drop pos cs) at 3.
  rewrite bind_app. solve_Permutation.
Qed.

(** Editing one child of a list of children with distinct identifiers: the
    child that holds element [p] gains [extra], the others are fixed. *)
Section children.
Context (g : node → node) (extra : list nat) (p : nat).
Context (Hfix : ∀ c, p ∉ ids_of c → g c = c).

Lemma children_edit_ids cs :
  NoDup (cs ≫= ids_of) →
  Forall (λ c, NoDup (ids_of c) → is_Some (find_element p c) →
               ids_of (g c) ≡ₚ extra ++ ids_of c) cs →
  (∃ c, c ∈ cs ∧ is_Some (find_element p c)) →
  (g <$> cs) ≫= ids_of ≡ₚ extra ++ (cs ≫= ids_of).
Proof.
  intros Hnd IH. induction IH as [|c cs Hc _ IHcs]; intros (c0 & Hc0 & Hp).
  { by apply elem_of_nil in Hc0. }
  cbn in Hnd. apply NoDup_app in Hnd as (Hndc & Hdisj & Hndcs).
  rewrite fmap_cons, !bind_cons.
  destruct (decide (is_Some (find_element p c))) as [Hpc|Hpc].
  - rewrite (Hc Hndc Hpc), fmap_fixed; [by rewrite app_assoc|].
    apply Forall_forall. intros c' Hc'. apply Hfix. intros Hin.
    apply (Hdisj p); [by apply find_element_in_ids|].
    apply list_elem_of_bind. eauto.
  - apply elem_of_cons in Hc0 as [->|Hc0]; [done|].
    assert (p ∉ ids_of c) as Hnotin.
    { intros Hin. apply (Hdisj p Hin), list_elem_of_bind.
      exists c0. split; [by apply find_element_in_ids|done]. }
    rewrite (Hfix c Hnotin), IHcs by eauto. apply Permutation_app_swap_app.
Qed.
End children.

(** Inserting a subtree below an element of a well-formed tree adds the
    identifiers of the subtree, and nothing else. *)
Lemma alter_insert_ids pos c p n :
  NoDup (ids_of n) → is_Some (find_element p n) →
  ids_of (alter_node (insert_child pos c) p n) ≡ₚ ids_of c ++ ids_of n.
Proof.
  induction n as [e cs IH|j d] using node_forall_ind; intros Hnd Hp.
  - cbn [alter_node node_id]. case_decide; [apply ids_of_insert_child|].
    cbn in *. apply NoDup_cons in Hnd as [_ Hnd].
    rewrite (children_edit_ids _ (ids_of c) p); try done.
    + by rewrite Permutation_middle.
    + intros. by apply alter_node_notin.
    + by eapply find_element_child.
  - by destruct Hp.
Qed.

(** ** Well-formedness is kept *)

Lemma apply_edit_Some ed doc doc' :
  apply_edit ed doc = Some doc' ↔ edit_ok ed doc ∧ doc' = perform ed doc.
Proof. unfold apply_edit. case_decide; naive_solver. Qed.

Lemma apply_edit_None ed doc : apply_edit ed doc = None ↔ ¬ edit_ok ed doc.
Proof. unfold apply_edit. case_decide; naive_solver. Qed.

(** Identifiers stay unique under insertion of a fresh subtree, removal,
    and changes of attributes, heights and text. *)
Lemma perform_wf ed doc : edit_ok ed doc → wf_node doc → wf_node (perform ed doc).
Proof.
  unfold wf_node. intros Hok Hwf. destruct ed; cbn in *.
  - destruct Hok as (Hp & Hc & Hfresh). rewrite alter_insert_ids by done.
    apply NoDup_app. split_and!; [done| |done].
    by apply Forall_forall.
  - eapply sublist_NoDup; [done|apply remove_node_ids_sublist].
  - rewrite alter_node_ids; [done|by intros []].
  - rewrite alter_node_ids; [done|by intros []].
  - rewrite alter_node_ids; [done|by intros []].
Qed.

(** An edit of a well-formed document either does not apply, or leaves a
    well-formed document with the same root. *)
Theorem apply_edit_wf ed doc :
  wf_node doc →
  from_option (λ doc', wf_node doc' ∧ node_id doc' = node_id doc) True
    (apply_edit ed doc).
Proof.
  intros Hwf. unfold apply_edit. case_decide as Hok; [cbn|done].
  split; [by apply perform_wf|].
  destruct ed, doc as [e cs|j d]; cbn; try done; by case_decide.
Qed.

(** An edit keeps the root. *)
Lemma apply_edit_root ed doc doc' :
  apply_edit ed doc = Some doc' → node_id doc' = node_id doc.
Proof.
  unfold apply_edit. case_decide; [|done]. intros [= <-].
  destruct ed, doc as [e cs|j d]; cbn; try done; by case_decide.
Qed.
