(* ===== verification/Host.v ===== *)
(** * Host: the browser state and the DOM calls of the script

    The state a content script acts on: the document, the log of the calls
    that act on elements ([click], [focus]), the active element, and the
    mutation observers with their registrations and record queues.  The DOM
    calls are computations in the effect monad over this state.  What the
    page does in reaction to a click or to a move of the focus and which
    elements can take focus are given by the [Page] interface; how an
    observer callback runs is given by the [Script] interface.  A page
    whose focus listeners edit nothing is a [QuietFocus] page. *)

From S2P Require Import Prelude Text Dom Selector SelectorText Edit.

Local Open Scope string_scope.
Local Open Scope list_scope.

(** ** Data *)

(** A call that acts on an element, as the page can observe it. *)
Inductive effect : Type :=
| Clicked (target : nat)
| Focused (target : nat).

#[export] Instance effect_eq_dec : EqDecision effect.
Proof. solve_decision. Defined.

(** The exceptions the DOM calls raise: on a bad argument, and on a text
    that is not a selector. *)
Inductive exn : Type :=
| TypeError
| SyntaxError.

#[export] Instance exn_eq_dec : EqDecision exn.
Proof. solve_decision. Defined.

(** The options of [observe]; a field left out of the object literal is
    [false]. *)
Record observe_options : Type := ObserveOptions {
  childList : bool;
  attributesOn : bool;
  characterDataOn : bool;
  subtree : bool
}.

#[export] Instance observe_options_eq_dec : EqDecision observe_options.
Proof. solve_decision. Defined.

(** A mutation observer: its callback, the nodes it is registered on with
    the options of each registration, and its queue of undelivered
    records. *)
Record observer (cb : Type) : Type := Observer {
  callback : cb;
  registrations : list (nat * observe_options);
  records : list mutation_record
}.
Arguments Observer {cb} _ _ _.
Arguments callback {cb} _.
Arguments registrations {cb} _.
Arguments records {cb} _.

(** The browser state.  A handle of an observer is its index in
    [observers]; observers are never removed from the list. *)
Record host (cb : Type) : Type := Host {
  document : node;
  log : list effect;
  activeElement : option nat;
  observers : list (observer cb)
}.
Arguments Host {cb} _ _ _ _.
Arguments document {cb} _.
Arguments log {cb} _.
Arguments activeElement {cb} _.
Arguments observers {cb} _.

(** ** Interfaces *)

(** The page the script runs in: the edits its click listeners make when
    the element [i] of document [doc] is clicked, the edits its focus
    listeners make when the focus moves to the element [i], and whether an
    element can take focus. *)
Class Page : Type := {
  on_click : nat → node → list edit;
  on_focus : nat → node → list edit;
  focusable : element → bool
}.

(** A page whose focus listeners leave the document alone. *)
Class QuietFocus `{Page} : Prop :=
  quiet_focus i doc : on_focus i doc = [].

(** The script's side of a notification: how the callback [c] runs on a
    batch of records, given the handle of its observer. *)
Class Script (cb : Type) : Type :=
  run_callback : cb → list mutation_record → nat → eff (host cb) exn unit.
#[global] Hint Mode Script ! : typeclass_instances.

Section host.
Context {cb : Type}.
Implicit Types (h : host cb) (o : nat) (ob : observer cb).

(** ** Updating the state *)

Definition set_document (doc : node) h : host cb :=
  Host doc (log h) (activeElement h) (observers h).
Definition add_effect (ev : effect) h : host cb :=
  Host (document h) (log h ++ [ev]) (activeElement h) (observers h).
Definition set_activeElement (a : option nat) h : host cb :=
  Host (document h) (log h) a (observers h).
Definition set_observers (obs : list (observer cb)) h : host cb :=
  Host (document h) (log h) (activeElement h) obs.

Definition set_registrations (regs : list (nat * observe_options)) ob :=
  Observer (callback ob) regs (records ob).
Definition set_records (rs : list mutation_record) ob :=
  Observer (callback ob) (registrations ob) rs.

(** ** Queueing mutation records *)

Definition wants (opts : observe_options) (t : mutation_type) : bool :=
  match t with
  | ChildList => childList opts
  | Attributes => attributesOn opts
  | CharacterData => characterDataOn opts
  end.

(** A registration covers a record when it is on an inclusive ancestor of
    the record's target (an ancestor proper only with [subtree]) and its
    options ask for the record's type. *)
Definition covers (doc : node) (r : mutation_record)
    (reg : nat * observe_options) : Prop :=
  reg.1 ∈ inclusive_ancestors (mr_target r) doc ∧
  (reg.1 = mr_target r ∨ subtree reg.2) ∧
  wants reg.2 (mr_type r).

Definition interested (doc : node) (r : mutation_record) ob : Prop :=
  Exists (covers doc r) (registrations ob).

Definition enqueue (doc : node) (r : mutation_record) ob : observer cb :=
  if decide (interested doc r ob) then set_records (records ob ++ [r]) ob
  else ob.

(** Every interested observer gets the record at the end of its queue. *)
Definition queue_record (doc : node) (r : mutation_record) h : host cb :=
  set_observers (enqueue doc r <$> observers h) h.

(** One edit by the page: the document changes if the edit applies, and
    the record of the edit is queued with the observers of the moment. *)
Definition page_edit (ed : edit) h : host cb :=
  match apply_edit ed (document h) with
  | Some doc' =>
      let h' := set_document doc' h in
      match edit_record ed (document h) with
      | Some r => queue_record (document h) r h'
      | None => h'
      end
  | None => h
  end.

Definition page_edits (eds : list edit) h : host cb :=
  foldl (λ h ed, page_edit ed h) h eds.

(** ** The DOM calls *)

(** The selector a text stands for; a text that is not a selector is a
    [SyntaxError]. *)
Definition selector_of (text : string) : eff (host cb) exn selector :=
  match parse_selector text with
  | Some s => mret s
  | None => throw SyntaxError
  end.

(** [document.querySelector(text)]: the handle of the first match, or
    null. *)
Definition document_querySelector (text : string) :
    eff (host cb) exn (option nat) :=
  s ← selector_of text;
  gets (λ h, el_id <$> querySelector s (document h)).

(** [document.querySelectorAll(text)]: the handles of all matches, as a
    static list. *)
Definition document_querySelectorAll (text : string) :
    eff (host cb) exn (list nat) :=
  s ← selector_of text;
  gets (λ h, el_id <$> querySelectorAll s (document h)).

(** [document.body]. *)
Definition get_document_body : eff (host cb) exn (option nat) :=
  gets (λ h, document_body (document h)).

(** [el.offsetHeight], read in the live document; an element that is not in
    the document has no layout box. *)
Definition element_offsetHeight (i : nat) : eff (host cb) exn Z :=
  gets (λ h, from_option offsetHeight 0%Z (find_element i (document h))).

(** The state after [el.click()]: the call is logged and the click
    listeners of the page have run to completion. *)
Definition after_click `{Page} (i : nat) h : host cb :=
  page_edits (on_click i (document h)) (add_effect (Clicked i) h).

(** The focus call itself: the call is logged, and the element is the
    active element if it is in the document and can take focus. *)
Definition take_focus `{Page} (i : nat) h : host cb :=
  let h' := add_effect (Focused i) h in
  match find_element i (document h) with
  | Some e => if focusable e then set_activeElement (Some i) h' else h'
  | None => h'
  end.

(** The edits of the focus listeners: they run when the focus moves, that
    is, when the element can take focus and does not have it yet. *)
Definition focus_edits `{Page} (i : nat) h : list edit :=
  match find_element i (document h) with
  | Some e =>
      if focusable e && bool_decide (activeElement h ≠ Some i)
      then on_focus i (document h) else []
  | None => []
  end.

(** The state after [el.focus()]: the focus has moved and the focus
    listeners of the page have run to completion. *)
Definition after_focus `{Page} (i : nat) h : host cb :=
  page_edits (focus_edits i h) (take_focus i h).

Definition valid_options (opts : observe_options) : bool :=
  childList opts || attributesOn opts || characterDataOn opts.

(** A registration on a node the observer already observes replaces the
    options; otherwise it is added. *)
Definition register (target : nat) (opts : observe_options)
    (regs : list (nat * observe_options)) : list (nat * observe_options) :=
  if decide (target ∈ regs.*1)
  then (λ reg, if decide (reg.1 = target) then (target, opts) else reg) <$> regs
  else regs ++ [(target, opts)].

(** The state after a successful [observe]. *)
Definition after_observe (o target : nat) (opts : observe_options) h : host cb :=
  set_observers
    (alter (λ ob, set_registrations (register target opts (registrations ob)) ob)
       o (observers h)) h.

(** The state after [disconnect]: no registrations, an empty queue. *)
Definition after_disconnect (o : nat) h : host cb :=
  set_observers (alter (λ ob, Observer (callback ob) [] []) o (observers h)) h.

(** The state after [new MutationObserver(c)]. *)
Definition after_new_observer (c : cb) h : host cb :=
  set_observers (observers h ++ [Observer c [] []]) h.

(** [el.click()]. *)
Definition element_click `{Page} (i : nat) : eff (host cb) exn unit :=
  modify (after_click i).

(** [el.focus()]. *)
Definition element_focus `{Page} (i : nat) : eff (host cb) exn unit :=
  modify (after_focus i).

(** [new MutationObserver(c)]: the handle of a new observer without
    registrations. *)
Definition new_MutationObserver (c : cb) : eff (host cb) exn nat :=
  λ h, (Ok (length (observers h)), after_new_observer c h).

(** [observer.observe(target, opts)]: a [TypeError] when the target is null
    or the options ask for no kind of record. *)
Definition observer_observe (o : nat) (target : option nat)
    (opts : observe_options) : eff (host cb) exn unit :=
  match target with
  | None => throw TypeError
  | Some t =>
      if valid_options opts then modify (after_observe o t opts)
      else throw TypeError
  end.

(** [observer.disconnect()]. *)
Definition observer_disconnect (o : nat) : eff (host cb) exn unit :=
  modify (after_disconnect o).

(** ** Notification *)

(** The state with the queue of observer [o] emptied. *)
Definition clear_records (o : nat) h : host cb :=
  set_observers (alter (set_records []) o (observers h)) h.

(** One observer's turn: with an empty queue nothing happens; otherwise the
    queue is emptied and the callback runs on what it held.  An exception of
    the callback is reported elsewhere and does not stop the loop. *)
Definition notify_observer `{Script cb} (o : nat) h : host cb :=
  match observers h !! o with
  | Some ob =>
      if decide (records ob = []) then h
      else final (run_callback (callback ob) (records ob) o) (clear_records o h)
  | None => h
  end.

(** The notification checkpoint: every observer that exists at its start
    gets its turn, in order of creation. *)
Definition notify `{Script cb} h : host cb :=
  foldl (λ h o, notify_observer o h) h (seq 0 (length (observers h))).

(** ** Lemmas: running the DOM calls *)

Section run.
Context {B : Type} `{Page}.
Implicit Types k : unit → eff (host cb) exn B.

Lemma run_selector_of text (k : selector → eff (host cb) exn B) h :
  (selector_of text ≫= k) h
  = from_option (λ s, k s h) (Throw SyntaxError, h) (parse_selector text).
Proof. unfold selector_of. by destruct (parse_selector text). Qed.

(** A query by a text that reads as the selector [s] is the query by [s]. *)
Lemma run_document_querySelector text s
    (k : option nat → eff (host cb) exn B) h :
  parse_selector text = Some s →
  (document_querySelector text ≫= k) h
  = k (el_id <$> querySelector s (document h)) h.
Proof.
  intros Hs. unfold document_querySelector.
  by rewrite (eff_bind_assoc _ _ _ h), run_selector_of, Hs.
Qed.

Lemma run_document_querySelectorAll text s
    (k : list nat → eff (host cb) exn B) h :
  parse_selector text = Some s →
  (document_querySelectorAll text ≫= k) h
  = k (el_id <$> querySelectorAll s (document h)) h.
Proof.
  intros Hs. unfold document_querySelectorAll.
  by rewrite (eff_bind_assoc _ _ _ h), run_selector_of, Hs.
Qed.

(** A query by a text that does not read throws before it looks at the
    document. *)
Lemma run_document_querySelector_error text
    (k : option nat → eff (host cb) exn B) h :
  parse_selector text = None →
  (document_querySelector text ≫= k) h = (Throw SyntaxError, h).
Proof.
  intros Hs. unfold document_querySelector.
  by rewrite (eff_bind_assoc _ _ _ h), run_selector_of, Hs.
Qed.

Lemma run_document_querySelectorAll_error text
    (k : list nat → eff (host cb) exn B) h :
  parse_selector text = None →
  (document_querySelectorAll text ≫= k) h = (Throw SyntaxError, h).
Proof.
  intros Hs. unfold document_querySelectorAll.
  by rewrite (eff_bind_assoc _ _ _ h), run_selector_of, Hs.
Qed.

(** Round trip through the text.  A query by the printed text of a
    well-formed selector is the query by that selector: it does not throw,
    leaves the state alone, and returns the handle of the first match
    ([querySelector]) or the handles of all matches in document order
    ([querySelectorAll]). *)
Lemma query_printed s h :
  wf_selector s →
  document_querySelector (print_selector s) h
    = (Ok (el_id <$> querySelector s (document h)), h) ∧
  document_querySelectorAll (print_selector s) h
    = (Ok (el_id <$> querySelectorAll s (document h)), h).
Proof.
  intros Hs%parse_print.
  unfold document_querySelector, document_querySelectorAll, selector_of.
  by rewrite Hs.
Qed.

Lemma run_get_document_body (k : option nat → eff (host cb) exn B) h :
  (get_document_body ≫= k) h = k (document_body (document h)) h.
Proof. done. Qed.

Lemma run_element_offsetHeight i (k : Z → eff (host cb) exn B) h :
  (element_offsetHeight i ≫= k) h
  = k (from_option offsetHeight 0%Z (find_element i (document h))) h.
Proof. done. Qed.

Lemma run_new_MutationObserver c (k : nat → eff (host cb) exn B) h :
  (new_MutationObserver c ≫= k) h
  = k (length (observers h)) (after_new_observer c h).
Proof. done. Qed.

Lemma run_element_click i k h : (element_click i ≫= k) h = k tt (after_click i h).
Proof. done. Qed.

Lemma run_element_focus i k h : (element_focus i ≫= k) h = k tt (after_focus i h).
Proof. done. Qed.

Lemma run_observer_disconnect o k h :
  (observer_disconnect o ≫= k) h = k tt (after_disconnect o h).
Proof. done. Qed.
End run.

(** ** Lemmas: what queueing leaves alone *)

Lemma enqueue_callback doc r ob : callback (enqueue doc r ob) = callback ob.
Proof. unfold enqueue. by case_decide. Qed.

Lemma enqueue_registrations doc r ob :
  registrations (enqueue doc r ob) = registrations ob.
Proof. unfold enqueue. by case_decide. Qed.

(** The queue of an observer grows by the record or stays as it is. *)
Lemma enqueue_records doc r ob :
  records (enqueue doc r ob) =
    if decide (interested doc r ob) then records ob ++ [r] else records ob.
Proof. unfold enqueue. by case_decide. Qed.

(** An observer without registrations receives nothing. *)
Lemma enqueue_unregistered doc r ob :
  registrations ob = [] → enqueue doc r ob = ob.
Proof.
  intros Hreg. unfold enqueue, interested. rewrite Hreg.
  by rewrite decide_False by (by intros ?%Exists_nil).
Qed.

Lemma page_edit_log ed h : log (page_edit ed h) = log h.
Proof.
  unfold page_edit. destruct (apply_edit _ _); [|done].
  by destruct (edit_record _ _).
Qed.

Lemma page_edit_activeElement ed h :
  activeElement (page_edit ed h) = activeElement h.
Proof.
  unfold page_edit. destruct (apply_edit _ _); [|done].
  by destruct (edit_record _ _).
Qed.

Lemma page_edit_length ed h :
  length (observers (page_edit ed h)) = length (observers h).
Proof.
  unfold page_edit. destruct (apply_edit _ _); [|done].
  destruct (edit_record _ _); [|done]. cbn. by rewrite length_fmap.
Qed.

(** The document after an edit is the result of the edit, whoever
    observes. *)
Lemma page_edit_document ed h :
  document (page_edit ed h)
  = default (document h) (apply_edit ed (document h)).
Proof.
  unfold page_edit. destruct (apply_edit _ _); [|done].
  by destruct (edit_record _ _).
Qed.

Lemma page_edits_cons ed eds h :
  page_edits (ed :: eds) h = page_edits eds (page_edit ed h).
Proof. done. Qed.

Lemma page_edits_document_ext eds h h' :
  document h = document h' →
  document (page_edits eds h) = document (page_edits eds h').
Proof.
  revert h h'. induction eds as [|ed eds IH]; intros h h' Hdoc; [done|].
  rewrite !page_edits_cons. apply IH. by rewrite !page_edit_document, Hdoc.
Qed.

(** What one edit leaves alone, a series of edits leaves alone. *)
Lemma page_edits_preserves {A} (f : host cb → A) :
  (∀ ed h, f (page_edit ed h) = f h) → ∀ eds h, f (page_edits eds h) = f h.
Proof.
  intros Hf eds. induction eds as [|ed eds IH]; intros h; [done|].
  by rewrite page_edits_cons, IH.
Qed.

Lemma page_edits_log eds h : log (page_edits eds h) = log h.
Proof. apply page_edits_preserves, page_edit_log. Qed.

Lemma page_edits_activeElement eds h :
  activeElement (page_edits eds h) = activeElement h.
Proof. apply page_edits_preserves, page_edit_activeElement. Qed.

Lemma page_edits_length eds h :
  length (observers (page_edits eds h)) = length (observers h).
Proof.
  apply (page_edits_preserves (λ h, length (observers h))), page_edit_length.
Qed.

(** An edit keeps every observer under its handle, with its callback and
    its registrations: only queues change, and they only grow. *)
Lemma page_edit_lookup ed o ob h :
  observers h !! o = Some ob →
  ∃ ob', observers (page_edit ed h) !! o = Some ob' ∧
         callback ob' = callback ob ∧ registrations ob' = registrations ob ∧
         records ob `prefix_of` records ob'.
Proof.
  intros Hob. unfold page_edit. destruct (apply_edit _ _); [|by exists ob].
  destruct (edit_record _ _) as [r|]; [|by exists ob].
  exists (enqueue (document h) r ob). cbn. rewrite list_lookup_fmap, Hob.
  rewrite enqueue_callback, enqueue_registrations, enqueue_records.
  split_and!; [done..|]. case_decide; [by apply prefix_app_r|done].
Qed.

Lemma page_edits_lookup eds o ob h :
  observers h !! o = Some ob →
  ∃ ob', observers (page_edits eds h) !! o = Some ob' ∧
         callback ob' = callback ob ∧ registrations ob' = registrations ob ∧
         records ob `prefix_of` records ob'.
Proof.
  revert ob h. induction eds as [|ed eds IH]; intros ob h Hob; [by exists ob|].
  destruct (page_edit_lookup ed o ob h Hob) as (ob1 & Hob1 & Hc1 & Hr1 & Hp1).
  destruct (IH ob1 _ Hob1) as (ob2 & Hob2 & Hc2 & Hr2 & Hp2).
  exists ob2. rewrite page_edits_cons.
  split_and!; [done|congruence..|by etrans].
Qed.

(** ** Lemmas: the state after a call *)

Section after.
Context `{Page}.

(** A click is logged once, whatever the page does in reaction to it, and
    does not move the focus. *)
Lemma after_click_log i h : log (after_click i h) = log h ++ [Clicked i].
Proof. unfold after_click. by rewrite page_edits_log. Qed.

Lemma after_click_activeElement i h :
  activeElement (after_click i h) = activeElement h.
Proof. unfold after_click. by rewrite page_edits_activeElement. Qed.

Lemma after_click_length i h :
  length (observers (after_click i h)) = length (observers h).
Proof. unfold after_click. by rewrite page_edits_length. Qed.

Lemma take_focus_log i h : log (take_focus i h) = log h ++ [Focused i].
Proof. unfold take_focus. by repeat case_match. Qed.

Lemma take_focus_document i h : document (take_focus i h) = document h.
Proof. unfold take_focus. by repeat case_match. Qed.

Lemma take_focus_observers i h : observers (take_focus i h) = observers h.
Proof. unfold take_focus. by repeat case_match. Qed.

Lemma take_focus_activeElement i h :
  activeElement (take_focus i h) =
    match find_element i (document h) with
    | Some e => if focusable e then Some i else activeElement h
    | None => activeElement h
    end.
Proof. unfold take_focus. by repeat case_match. Qed.

(** A focus call is logged once, whatever the page does in reaction to
    it. *)
Lemma after_focus_log i h : log (after_focus i h) = log h ++ [Focused i].
Proof. unfold after_focus. by rewrite page_edits_log, take_focus_log. Qed.

(** The active element after [focus]: the element, if it is in the document
    and can take focus; otherwise what it was. *)
Lemma after_focus_activeElement i h :
  activeElement (after_focus i h) =
    match find_element i (document h) with
    | Some e => if focusable e then Some i else activeElement h
    | None => activeElement h
    end.
Proof.
  unfold after_focus. by rewrite page_edits_activeElement, take_focus_activeElement.
Qed.

Lemma after_focus_length i h :
  length (observers (after_focus i h)) = length (observers h).
Proof. unfold after_focus. by rewrite page_edits_length, take_focus_observers. Qed.

Lemma after_focus_lookup i o ob h :
  observers h !! o = Some ob →
  ∃ ob', observers (after_focus i h) !! o = Some ob' ∧
         callback ob' = callback ob ∧ registrations ob' = registrations ob ∧
         records ob `prefix_of` records ob'.
Proof.
  intros Hob. apply page_edits_lookup. by rewrite take_focus_observers.
Qed.

(** A focus call on the element that has the focus moves nothing: no
    listener runs. *)
Lemma after_focus_again i h :
  activeElement h = Some i → after_focus i h = take_focus i h.
Proof.
  intros Ha. unfold after_focus, focus_edits.
  destruct (find_element _ _); [|done].
  by rewrite bool_decide_false, andb_false_r by (by intros []).
Qed.

(** What a focus call does to the document depends on the document and on
    where the focus is, not on the observers. *)
Lemma after_focus_document_ext i h h' :
  document h = document h' → activeElement h = activeElement h' →
  document (after_focus i h) = document (after_focus i h').
Proof.
  intros Hdoc Hact. unfold after_focus, focus_edits. rewrite Hdoc, Hact.
  apply page_edits_document_ext. by rewrite !take_focus_document.
Qed.

(** A focus call on an element that cannot take focus is logged and does
    nothing else: the focus stays where it is and no listener runs. *)
Lemma after_focus_unfocusable i e h :
  find_element i (document h) = Some e → focusable e = false →
  after_focus i h = add_effect (Focused i) h.
Proof.
  intros He Hf. unfold after_focus, focus_edits, take_focus. by rewrite He, Hf.
Qed.

(** On a page with quiet focus listeners a focus call leaves the document
    and the observers alone. *)
Section quiet.
Context `{!QuietFocus}.

Lemma after_focus_quiet i h : after_focus i h = take_focus i h.
Proof.
  unfold after_focus, focus_edits. rewrite quiet_focus.
  by repeat case_match.
Qed.

Lemma after_focus_document i h : document (after_focus i h) = document h.
Proof. by rewrite after_focus_quiet, take_focus_document. Qed.

Lemma after_focus_observers i h : observers (after_focus i h) = observers h.
Proof. by rewrite after_focus_quiet, take_focus_observers. Qed.
End quiet.
End after.

(** Registering a fresh observer: it is the last of the list, with the one
    registration. *)
Lemma after_observe_new c b opts h :
  after_observe (length (observers h)) b opts (after_new_observer c h)
  = set_observers (observers h ++ [Observer c [(b, opts)] []]) h.
Proof.
  unfold after_observe, after_new_observer, set_observers. cbn. f_equal.
  by rewrite alter_app_r_alt, Nat.sub_diag.
Qed.

Lemma after_disconnect_lookup o h :
  observers (after_disconnect o h) !! o
  = (λ ob, Observer (callback ob) [] []) <$> observers h !! o.
Proof. apply list_lookup_alter_eq. Qed.

Lemma after_disconnect_lookup_ne o o' h :
  o ≠ o' → observers (after_disconnect o h) !! o' = observers h !! o'.
Proof. apply list_lookup_alter_ne. Qed.

(** An observer that is disconnected after a focus call is left without
    registrations and with an empty queue, whatever the focus listeners of
    the page have queued with it. *)
Lemma after_disconnect_focus_lookup `{Page} i o h :
  observers (after_disconnect o (after_focus i h)) !! o
  = (λ ob, Observer (callback ob) [] []) <$> observers h !! o.
Proof.
  rewrite after_disconnect_lookup.
  destruct (observers h !! o) as [ob|] eqn:Hob.
  - destruct (after_focus_lookup i o ob h Hob) as (ob' & -> & Hc & _).
    cbn. by rewrite Hc.
  - apply lookup_ge_None in Hob.
    by rewrite (proj2 (lookup_ge_None _ _)) by (by rewrite after_focus_length).
Qed.
End host.

#[export] Hint Rewrite @run_get_document_body @run_element_offsetHeight
  @run_new_MutationObserver @run_element_click @run_element_focus
  @run_observer_disconnect : eff.
#[export] Hint Rewrite @page_edit_log @page_edits_log @page_edit_activeElement
  @page_edits_activeElement @page_edit_length @page_edits_length : eff.
