(* ===== verification/Script.v ===== *)
(** * Script: click_loginbutton.js, function by function

    Each definition is the translation of the source lines named in its
    comment.  Handles are element identifiers, [null] is [None], and a
    function that returns nothing returns [tt].  The selectors are passed
    to the query calls as the texts the source writes; what each text
    stands for is computed by the parser.  The reference definitions say
    what the callback and the tile clicker are for in the plainest way; the
    functions of the source are proved equivalent to them. *)

From stdpp Require Import gmap.
From S2P Require Import Prelude Text Dom Selector SelectorText Edit Host.

Local Open Scope string_scope.
Local Open Scope list_scope.

(** ** The selectors *)

(** The string literals the script passes to the query calls; [quoted v]
    is [v] between double quotes. *)

(** Line 3. *)
Definition loginSelectorText : string :=
  "a[href*=" +:+ quoted "auth/saml2/login.php" +:+ "]".

(** Line 8. *)
Definition tileSelectorText : string :=
  "div.table[role=" +:+ quoted "button" +:+ "]".

(** Lines 25 and 44. *)
Definition passwdSelectorText : string :=
  "input[name=" +:+ quoted "passwd" +:+ "]".

(** The selectors these texts stand for. *)

(** Line 3: an anchor whose [href] contains the SAML login path. *)
Definition loginSelector : selector :=
  Selector (Some "a") [] ["href" *=' "auth/saml2/login.php"]%sel.

(** Line 8: a [div] of class [table] with role [button]. *)
Definition tileSelector : selector :=
  Selector (Some "div") ["table"] ["role" =' "button"]%sel.

(** Lines 25 and 44: the input named [passwd]. *)
Definition passwdSelector : selector :=
  Selector (Some "input") [] ["name" =' "passwd"]%sel.

(** ** The callbacks *)

(** The closures the script hands to the browser: the arrow function of
    lines 21-34 is the only one. *)
Inductive callback_id : Type :=
| TextboxWatcher.

#[export] Instance callback_id_eq_dec : EqDecision callback_id.
Proof. solve_decision. Defined.

(** Lines 37-40: the options object of [observe]. *)
Definition observeOptions : observe_options :=
  {| childList := true; attributesOn := false;
     characterDataOn := false; subtree := true |}.

Section script.
Context `{Page}.

Notation M := (eff (host callback_id) exn).

(** ** The functions *)

(** Lines 1-5. *)
Definition clickUniversityLoginButton : M unit :=
  button ← document_querySelector loginSelectorText;
  match button with
  | Some button => element_click button
  | None => mret tt
  end.

(** Lines 24-32, the body of the loop for one record: [true] when the
    callback returns from inside the loop, [false] when the loop goes on. *)
Definition checkMutation (mutation : mutation_record) (observer : nat) : M bool :=
  if decide (mr_type mutation = ChildList) then
    textbox ← document_querySelector passwdSelectorText;
    match textbox with
    | Some textbox =>
        height ← element_offsetHeight textbox;
        if decide (0 < height)%Z then
          element_focus textbox;;
          observer_disconnect observer;;
          mret true
        else mret false
    | None => mret false
    end
  else mret false.

(** Lines 21-34, the callback: the [for] loop over the batch, left at the
    first record for which the body returns. *)
Fixpoint textboxCallback (mutationsList : list mutation_record)
    (observer : nat) : M unit :=
  match mutationsList with
  | [] => mret tt
  | mutation :: rest =>
      returned ← checkMutation mutation observer;
      if returned : bool then mret tt else textboxCallback rest observer
  end.

(** Lines 19-41. *)
Definition waitForTextboxToAppear : M unit :=
  observer ← new_MutationObserver TextboxWatcher;
  body ← get_document_body;
  observer_observe observer body observeOptions.

(** Lines 7-17.  Reading index 0 of an empty list gives [undefined], on
    which a method call throws. *)
Definition clickUserSelectionTile : M unit :=
  buttons ← document_querySelectorAll tileSelectorText;
  if decide (0 < length buttons) then
    match buttons !! 0 with
    | Some firstButton =>
        element_click firstButton;;
        waitForTextboxToAppear
    | None => throw TypeError
    end
  else mret tt.

(** Lines 43-49. *)
Definition focusTextbox : M unit :=
  passwordField ← document_querySelector passwdSelectorText;
  match passwordField with
  | Some passwordField => element_focus passwordField
  | None => mret tt
  end.

(** ** Reference definitions *)

(** What the callback is for, without the loop: one look at the password
    box. *)
Definition focusWhenShown (observer : nat) : M unit :=
  textbox ← document_querySelector passwdSelectorText;
  match textbox with
  | Some textbox =>
      height ← element_offsetHeight textbox;
      if decide (0 < height)%Z then
        element_focus textbox;;
        observer_disconnect observer
      else mret tt
  | None => mret tt
  end.

(** The callback as one test on the batch. *)
Definition textboxCallback_ref (mutationsList : list mutation_record)
    (observer : nat) : M unit :=
  if decide (Exists (λ mutation, mr_type mutation = ChildList) mutationsList)
  then focusWhenShown observer
  else mret tt.

(** The tile clicker written the way the other two functions are: a query
    for the first match and a null check. *)
Definition clickUserSelectionTile_ref : M unit :=
  button ← document_querySelector tileSelectorText;
  match button with
  | Some button =>
      element_click button;;
      waitForTextboxToAppear
  | None => mret tt
  end.

(** How the browser runs a callback of the script. *)
#[export] Instance script_callbacks : Script callback_id :=
  λ c mutationsList observer,
    match c with
    | TextboxWatcher => textboxCallback mutationsList observer
    end.
End script.

(** ** The exports *)

(** The functions reachable from outside. *)
Inductive exported : Type :=
| ClickUniversityLoginButton
| ClickUserSelectionTile
| FocusTextbox.

#[export] Instance exported_eq_dec : EqDecision exported.
Proof. solve_decision. Defined.

(** The property of [window] each function is assigned to. *)
Definition export_name (f : exported) : string :=
  match f with
  | ClickUniversityLoginButton => "clickUniversityLoginButton"
  | ClickUserSelectionTile => "clickUserSelectionTile"
  | FocusTextbox => "focusTextbox"
  end.

(** Lines 52-54: the three assignments to [window], in order. *)
Definition window : gmap string exported :=
  <["focusTextbox" := FocusTextbox]>
    (<["clickUserSelectionTile" := ClickUserSelectionTile]>
       (<["clickUniversityLoginButton" := ClickUniversityLoginButton]> ∅)).

Definition run_exported `{Page} (f : exported) : eff (host callback_id) exn unit :=
  match f with
  | ClickUniversityLoginButton => clickUniversityLoginButton
  | ClickUserSelectionTile => clickUserSelectionTile
  | FocusTextbox => focusTextbox
  end.

(** A call of [window[name]()] by the driver: calling a name that is not
    defined throws. *)
Definition call `{Page} (name : string) : eff (host callback_id) exn unit :=
  match window !! name with
  | Some f => run_exported f
  | None => throw TypeError
  end.

(** ** Specification vocabulary *)

(** The password box of a document when it shows: the handle of the first
    input named [passwd], provided its rendered height is positive. *)
Definition visible_textbox (doc : node) : option nat :=
  e ← querySelector passwdSelector doc;
  if decide (0 < offsetHeight e)%Z then Some (el_id e) else None.

(** A user-selection tile, in the words of its attributes: a [div] whose
    class attribute has the token [table] among its whitespace-separated
    tokens and whose role attribute is exactly [button]. *)
Definition is_tile (e : element) : Prop :=
  localName e = "div" ∧ "table" ∈ classList e ∧
  getAttribute "role" e = Some "button".

#[export] Instance is_tile_dec e : Decision (is_tile e).
Proof. unfold is_tile. apply _. Defined.

(** ** What the selector texts stand for *)

Lemma parse_loginSelectorText : parse_selector loginSelectorText = Some loginSelector.
Proof. reflexivity. Qed.

Lemma parse_tileSelectorText : parse_selector tileSelectorText = Some tileSelector.
Proof. reflexivity. Qed.

Lemma parse_passwdSelectorText :
  parse_selector passwdSelectorText = Some passwdSelector.
Proof. reflexivity. Qed.

(** The queries of the script, by the selectors their texts stand for. *)
Section queries.
Context {B : Type}.
Implicit Types (h : host callback_id).

Lemma run_query_login (k : option nat → eff (host callback_id) exn B) h :
  (document_querySelector loginSelectorText ≫= k) h
  = k (el_id <$> querySelector loginSelector (document h)) h.
Proof. apply run_document_querySelector, parse_loginSelectorText. Qed.

Lemma run_query_tiles (k : list nat → eff (host callback_id) exn B) h :
  (document_querySelectorAll tileSelectorText ≫= k) h
  = k (el_id <$> querySelectorAll tileSelector (document h)) h.
Proof. apply run_document_querySelectorAll, parse_tileSelectorText. Qed.

Lemma run_query_passwd (k : option nat → eff (host callback_id) exn B) h :
  (document_querySelector passwdSelectorText ≫= k) h
  = k (el_id <$> querySelector passwdSelector (document h)) h.
Proof. apply run_document_querySelector, parse_passwdSelectorText. Qed.
End queries.

#[export] Hint Rewrite @run_query_login @run_query_tiles @run_query_passwd : eff.

(** ** What the selectors select *)

Lemma matches_loginSelector e :
  matches loginSelector e ↔
  localName e = "a" ∧
  ∃ v, getAttribute "href" e = Some v ∧ substring_of "auth/saml2/login.php" v.
Proof.
  unfold matches, loginSelector, attr_holds. cbn.
  rewrite Forall_nil, Forall_singleton. cbn.
  destruct (getAttribute "href" e) as [v|]; naive_solver.
Qed.

Lemma matches_tileSelector e : matches tileSelector e ↔ is_tile e.
Proof.
  unfold matches, tileSelector, attr_holds, is_tile. cbn.
  rewrite !Forall_singleton. cbn.
  destruct (getAttribute "role" e) as [v|]; naive_solver.
Qed.

(** The tiles of a document, in document order. *)
Lemma querySelectorAll_tiles doc :
  querySelectorAll tileSelector doc = filter is_tile (elements_of doc).
Proof. apply list_filter_iff, matches_tileSelector. Qed.

Lemma matches_passwdSelector e :
  matches passwdSelector e ↔
  localName e = "input" ∧ getAttribute "name" e = Some "passwd".
Proof.
  unfold matches, passwdSelector, attr_holds. cbn.
  rewrite Forall_nil, Forall_singleton. cbn.
  destruct (getAttribute "name" e) as [v|]; naive_solver.
Qed.

(** The password box shows when the first password input has a positive
    height. *)
Lemma visible_textbox_Some doc i :
  visible_textbox doc = Some i ↔
  ∃ e, querySelector passwdSelector doc = Some e ∧
       (0 < offsetHeight e)%Z ∧ i = el_id e.
Proof.
  unfold visible_textbox. destruct (querySelector _ _) as [e|]; cbn;
    [case_decide|]; naive_solver.
Qed.

Section script_theorems.
Context `{Page}.
Implicit Types (h : host callback_id).

(** ** The login-button clicker *)

(** The function as one step on the state. *)
Lemma clickUniversityLoginButton_run h :
  clickUniversityLoginButton h =
    (Ok tt, from_option (λ e, after_click (el_id e) h) h
              (querySelector loginSelector (document h))).
Proof.
  unfold clickUniversityLoginButton. autorewrite with eff.
  by destruct (querySelector _ _).
Qed.

(** C34. On a document in which no element matches the login selector,
    [clickUniversityLoginButton] returns normally and leaves the whole state
    as it was: nothing is clicked. *)
Theorem clickUniversityLoginButton_absent h :
  Forall (λ e, ¬ matches loginSelector e) (elements_of (document h)) →
  clickUniversityLoginButton h = (Ok tt, h).
Proof.
  intros Hno. rewrite clickUniversityLoginButton_run.
  rewrite Forall_forall in Hno. apply querySelector_None in Hno. by rewrite Hno.
Qed.

(** C33. When the document has matching anchors, [clickUniversityLoginButton]
    clicks the one that comes first in document order, and only that one:
    it returns normally in the state after that click, in which the log of
    element calls has grown by exactly one entry, whatever the page does in
    reaction to the click and however many anchors match. *)
Theorem clickUniversityLoginButton_first h before e after :
  elements_of (document h) = before ++ e :: after →
  Forall (λ x, ¬ matches loginSelector x) before →
  matches loginSelector e →
  clickUniversityLoginButton h = (Ok tt, after_click (el_id e) h) ∧
  log (final clickUniversityLoginButton h) = log h ++ [Clicked (el_id e)].
Proof.
  intros Hdoc Hbefore He. unfold final. rewrite clickUniversityLoginButton_run.
  rewrite (querySelector_intro _ _ _ _ _ Hdoc Hbefore He).
  split; [done|apply after_click_log].
Qed.

(** On a document with exactly one matching anchor, the call adds exactly
    one entry to the log of element calls, the click on that anchor. *)
Lemma clickUniversityLoginButton_one_click h e :
  querySelectorAll loginSelector (document h) = [e] →
  log (final clickUniversityLoginButton h) = log h ++ [Clicked (el_id e)].
Proof.
  intros Hall. unfold final. rewrite clickUniversityLoginButton_run.
  rewrite querySelector_head, Hall. apply after_click_log.
Qed.

(** ** The appearance waiter *)

(** The function as one step, on both branches. *)
Lemma waitForTextboxToAppear_run h :
  waitForTextboxToAppear h =
    match document_body (document h) with
    | Some b =>
        (Ok tt,
         set_observers
           (observers h ++ [Observer TextboxWatcher [(b, observeOptions)] []]) h)
    | None => (Throw TypeError, after_new_observer TextboxWatcher h)
    end.
Proof.
  unfold waitForTextboxToAppear. autorewrite with eff. cbn.
  destruct (document_body _); [|done]. cbn. unfold modify.
  by rewrite after_observe_new.
Qed.

(** C31. [waitForTextboxToAppear] touches nothing but the list of observers,
    to which it appends one observer with the callback of the script and
    an empty queue.  With a body the call returns normally and the only
    registration of the new observer is the body, with [childList] and
    [subtree]; without a body [observe] throws a [TypeError] and the new
    observer stays, unregistered. *)
Theorem waitForTextboxToAppear_arms h :
  let h' := final waitForTextboxToAppear h in
  let body := document_body (document h) in
  document h' = document h ∧ log h' = log h ∧
  activeElement h' = activeElement h ∧
  observers h' =
    observers h ++ [Observer TextboxWatcher
                      (from_option (λ b, [(b, observeOptions)]) [] body) []] ∧
  outcome waitForTextboxToAppear h =
    (if body then Ok tt else Throw TypeError).
Proof.
  unfold final, outcome. rewrite waitForTextboxToAppear_run.
  by destruct (document_body _).
Qed.

(** One record of a batch: the loop body either goes on with the state
    unchanged, or has focused the first password input and disconnected. *)
Lemma checkMutation_cases m o h :
  checkMutation m o h = (Ok false, h) ∨
  ∃ e, mr_type m = ChildList ∧
       querySelector passwdSelector (document h) = Some e ∧
       checkMutation m o h
       = (Ok true, after_disconnect o (after_focus (el_id e) h)).
Proof.
  unfold checkMutation. case_decide; [|by left]. autorewrite with eff.
  destruct (querySelector _ _) as [e|]; [|by left]. cbn. autorewrite with eff.
  case_decide; [|by left]. right. exists e. by autorewrite with eff.
Qed.

(** In a well-formed document the loop body fires exactly on a child-list
    record while the password box shows. *)
Lemma checkMutation_run m o h :
  wf_node (document h) →
  checkMutation m o h =
    if decide (mr_type m = ChildList) then
      match visible_textbox (document h) with
      | Some i => (Ok true, after_disconnect o (after_focus i h))
      | None => (Ok false, h)
      end
    else (Ok false, h).
Proof.
  intros Hwf. unfold checkMutation, visible_textbox. case_decide; [|done].
  autorewrite with eff. destruct (querySelector _ _) as [e|] eqn:He; [|done].
  cbn. autorewrite with eff.
  apply querySelector_Some in He as [_ He].
  rewrite find_element_elem_of by done. cbn.
  case_decide; [|done]. by autorewrite with eff.
Qed.

(** A run of the callback has one of two outcomes: the state is unchanged,
    or the first password input was focused and the observer disconnected. *)
Lemma textboxCallback_cases rs o h :
  textboxCallback rs o h = (Ok tt, h) ∨
  ∃ e, querySelector passwdSelector (document h) = Some e ∧
       textboxCallback rs o h
       = (Ok tt, after_disconnect o (after_focus (el_id e) h)).
Proof.
  induction rs as [|r rs IH]; [by left|]. cbn.
  unfold mbind, eff_mbind, eff_bind.
  destruct (checkMutation_cases r o h) as [->|(e & _ & He & ->)]; [done|].
  right. by exists e.
Qed.

(** The loop skips a record of another type. *)
Lemma textboxCallback_skip r rs o h :
  mr_type r ≠ ChildList →
  textboxCallback (r :: rs) o h = textboxCallback rs o h.
Proof.
  intros Hr. cbn. unfold mbind, eff_mbind, eff_bind, checkMutation.
  by rewrite decide_False.
Qed.

(** While the password box does not show, the loop runs to its end and
    changes nothing. *)
Lemma textboxCallback_hidden rs o h :
  wf_node (document h) → visible_textbox (document h) = None →
  textboxCallback rs o h = (Ok tt, h).
Proof.
  intros Hwf Hno. induction rs as [|r rs IH]; [done|]. cbn.
  unfold mbind, eff_mbind, eff_bind.
  rewrite checkMutation_run, Hno by done. by case_decide.
Qed.

(** On a child-list record the loop ends: with the focus and the
    disconnection if the password box shows, and otherwise with nothing
    done, whatever records follow. *)
Lemma textboxCallback_childList r rs o h :
  wf_node (document h) → mr_type r = ChildList →
  textboxCallback (r :: rs) o h =
    (Ok tt, from_option (λ i, after_disconnect o (after_focus i h)) h
              (visible_textbox (document h))).
Proof.
  intros Hwf Hr. destruct (visible_textbox (document h)) as [i|] eqn:Hvis.
  - cbn. unfold mbind, eff_mbind, eff_bind.
    by rewrite checkMutation_run, decide_True, Hvis.
  - by apply textboxCallback_hidden.
Qed.

(** C1. In a well-formed document the loop of the callback amounts to one
    test: it focuses and disconnects exactly when the batch has a child-list
    record and the password input is present with a positive height; in
    every other case the state is unchanged. *)
Theorem textboxCallback_spec rs o h :
  wf_node (document h) →
  textboxCallback rs o h =
    (Ok tt,
     if decide (Exists (λ r, mr_type r = ChildList) rs) then
       from_option (λ i, after_disconnect o (after_focus i h)) h
         (visible_textbox (document h))
     else h).
Proof.
  intros Hwf. induction rs as [|r rs IH].
  { by rewrite decide_False by (by intros ?%Exists_nil). }
  destruct (decide (mr_type r = ChildList)) as [Hr|Hr].
  - rewrite textboxCallback_childList, decide_True by (done || by left). done.
  - rewrite textboxCallback_skip, IH by done. f_equal.
    apply decide_ext. rewrite Exists_cons. tauto.
Qed.

(** C9. A run of the callback, on any batch, in any state and on every
    page, does one of two things: nothing at all, or exactly one [focus]
    followed by the disconnection of its own observer, which is left
    without registrations and with an empty queue.  However many records
    of the batch qualify, there is at most one focus.  On a page whose
    focus listeners edit nothing the run leaves the document as it is and
    every other observer too. *)
Theorem textboxCallback_once rs o h :
  let h' := final (textboxCallback rs o) h in
  (h' = h ∨
   ∃ i, log h' = log h ++ [Focused i] ∧
        observers h' !! o
        = (λ ob, Observer (callback ob) [] []) <$> observers h !! o) ∧
  (QuietFocus →
   document h' = document h ∧
   (h' = h ∨
    ∃ i, log h' = log h ++ [Focused i] ∧
         observers h'
         = alter (λ ob, Observer (callback ob) [] []) o (observers h))).
Proof.
  unfold final.
  destruct (textboxCallback_cases rs o h) as [->|(e & _ & ->)]; cbn [snd].
  { split; [by left|]. intros _. split; [done|by left]. }
  split; [right|intros ?; split; [apply after_focus_document|right]];
    exists (el_id e).
  - split; [apply after_focus_log|apply after_disconnect_focus_lookup].
  - split; [apply after_focus_log|]. cbn. by rewrite after_focus_observers.
Qed.

(** ** The tile selector *)

(** The function as one step: with a tile, the click on the first one and
    then the waiter; without, nothing. *)
Lemma clickUserSelectionTile_run h :
  clickUserSelectionTile h =
    match querySelector tileSelector (document h) with
    | Some e => waitForTextboxToAppear (after_click (el_id e) h)
    | None => (Ok tt, h)
    end.
Proof.
  unfold clickUserSelectionTile. autorewrite with eff.
  rewrite querySelector_head.
  destruct (querySelectorAll _ _) as [|e rest]; cbn; [done|].
  by autorewrite with eff.
Qed.

(** C39. What line 8 selects and line 11 clicks.  The query of line 8, with
    the literal the source passes to it, answers with the handles of
    exactly the elements of the document that are [div]s with [table] among
    the tokens of their class attribute and [button] as their role, in
    document order, and changes nothing; the function clicks the first of
    them, if there is one, and makes no other call on an element.  An
    element is clicked for what its attributes say, whatever it shows. *)
Theorem clickUserSelectionTile_tiles h :
  document_querySelectorAll tileSelectorText h
  = (Ok (el_id <$> filter is_tile (elements_of (document h))), h) ∧
  log (final clickUserSelectionTile h)
  = log h ++ (Clicked ∘ el_id
                <$> take 1 (filter is_tile (elements_of (document h)))).
Proof.
  rewrite <-querySelectorAll_tiles. split.
  - unfold document_querySelectorAll, selector_of.
    by rewrite parse_tileSelectorText.
  - unfold final. rewrite clickUserSelectionTile_run, querySelector_head.
    destruct (querySelectorAll _ _) as [|e rest]; cbn; [by rewrite app_nil_r|].
    rewrite waitForTextboxToAppear_run.
    destruct (document_body _); cbn; apply after_click_log.
Qed.

(** C7. On a document without tiles [clickUserSelectionTile] returns
    normally and leaves the whole state as it was: no click is made and no
    observer is created. *)
Theorem clickUserSelectionTile_none h :
  querySelectorAll tileSelector (document h) = [] →
  clickUserSelectionTile h = (Ok tt, h).
Proof.
  intros Hall. by rewrite clickUserSelectionTile_run, querySelector_head, Hall.
Qed.

(** C5. On a document with one or more tiles, the call makes exactly one
    element call, the click on the first tile in document order, whether or
    not arming the waiter succeeds afterwards. *)
Theorem clickUserSelectionTile_first h e rest :
  querySelectorAll tileSelector (document h) = e :: rest →
  log (final clickUserSelectionTile h) = log h ++ [Clicked (el_id e)].
Proof.
  intros Hall. unfold final.
  rewrite clickUserSelectionTile_run, querySelector_head, Hall. cbn.
  rewrite waitForTextboxToAppear_run.
  destruct (document_body _); cbn; apply after_click_log.
Qed.

(** C6. With a tile, and a body in the document as the click leaves it, the
    call returns normally and arms exactly one new observer: the watcher
    callback, registered on that body for child-list records in the whole
    subtree, with an empty queue. *)
Theorem clickUserSelectionTile_arms h e rest b :
  querySelectorAll tileSelector (document h) = e :: rest →
  document_body (document (after_click (el_id e) h)) = Some b →
  outcome clickUserSelectionTile h = Ok tt ∧
  observers (final clickUserSelectionTile h) =
    observers (after_click (el_id e) h)
      ++ [Observer TextboxWatcher [(b, observeOptions)] []].
Proof.
  intros Hall Hb. unfold outcome, final.
  rewrite clickUserSelectionTile_run, querySelector_head, Hall. cbn.
  by rewrite waitForTextboxToAppear_run, Hb.
Qed.

(** C8. [clickUserSelectionTile] throws exactly when there is a tile and the
    document, as the click on the first tile leaves it, has no body; the
    exception is the [TypeError] of [observe]. *)
Theorem clickUserSelectionTile_throws h :
  outcome clickUserSelectionTile h = Throw TypeError ↔
  ∃ e, querySelector tileSelector (document h) = Some e ∧
       document_body (document (after_click (el_id e) h)) = None.
Proof.
  unfold outcome. rewrite clickUserSelectionTile_run.
  destruct (querySelector _ _) as [e|]; [|naive_solver].
  rewrite waitForTextboxToAppear_run.
  destruct (document_body _) eqn:Hb; naive_solver.
Qed.

(** ** The direct focuser *)

Lemma focusTextbox_run h :
  focusTextbox h =
    (Ok tt, from_option (λ e, after_focus (el_id e) h) h
              (querySelector passwdSelector (document h))).
Proof.
  unfold focusTextbox. autorewrite with eff. by destruct (querySelector _ _).
Qed.

(** C35. On a document without a password input [focusTextbox] returns
    normally and leaves the whole state as it was: no focus call is made. *)
Theorem focusTextbox_absent h :
  Forall (λ e, ¬ matches passwdSelector e) (elements_of (document h)) →
  focusTextbox h = (Ok tt, h).
Proof.
  intros Hno. rewrite focusTextbox_run.
  rewrite Forall_forall in Hno. apply querySelector_None in Hno. by rewrite Hno.
Qed.

(** C36. [focusTextbox] focuses the first password input whatever its
    rendered height: a hidden input (height 0) gets the [focus] call too. *)
Theorem focusTextbox_ignores_height h e :
  querySelector passwdSelector (document h) = Some e →
  (offsetHeight e ≤ 0)%Z →
  visible_textbox (document h) = None ∧
  log (final focusTextbox h) = log h ++ [Focused (el_id e)].
Proof.
  intros He Hheight. unfold visible_textbox, final.
  rewrite focusTextbox_run, He. cbn.
  by rewrite decide_False, after_focus_log by lia.
Qed.

Section quiet_focuser.
Context `{!QuietFocus}.

(** C37. Calling [focusTextbox] twice in a row on a page whose focus
    listeners edit nothing: the second call changes nothing but the log.
    The active element is as after the first call, the document and the
    observers are as before it, and the log holds the same focus call
    twice. *)
Theorem focusTextbox_twice h :
  let h1 := final focusTextbox h in
  let h2 := final focusTextbox h1 in
  activeElement h2 = activeElement h1 ∧ document h2 = document h ∧
  observers h2 = observers h ∧
  ∀ e, querySelector passwdSelector (document h) = Some e →
       log h2 = log h ++ [Focused (el_id e); Focused (el_id e)].
Proof.
  cbn. unfold final. rewrite !focusTextbox_run. cbn.
  destruct (querySelector passwdSelector (document h)) as [e|] eqn:He; cbn.
  2:{ by rewrite He. }
  rewrite after_focus_document, He. cbn.
  rewrite !after_focus_document, !after_focus_observers.
  rewrite !after_focus_log, !after_focus_activeElement, after_focus_document.
  split_and!; [|done|done|].
  - by repeat case_match.
  - intros ? [= <-]. by rewrite <-app_assoc.
Qed.
End quiet_focuser.

(** ** The exports *)

(** Each name is bound to its own function. *)
Lemma window_lookup name f : window !! name = Some f ↔ name = export_name f.
Proof.
  unfold window. rewrite !lookup_insert_Some, lookup_empty.
  destruct f; cbn; naive_solver.
Qed.

(** Exactly three names are defined on [window]; in particular the waiter
    is not reachable from outside. *)
Lemma window_exports name :
  is_Some (window !! name) ↔
  name ∈ ["clickUniversityLoginButton"; "clickUserSelectionTile"; "focusTextbox"].
Proof.
  unfold window. rewrite !lookup_insert_is_Some, lookup_empty, is_Some_alt.
  set_solver.
Qed.

(** None of the two exported functions that do not arm the waiter, and no
    run of the callback, can throw. *)
Lemma no_throw h rs o :
  outcome clickUniversityLoginButton h = Ok tt ∧
  outcome focusTextbox h = Ok tt ∧
  outcome (textboxCallback rs o) h = Ok tt.
Proof.
  unfold outcome.
  rewrite clickUniversityLoginButton_run, focusTextbox_run.
  by destruct (textboxCallback_cases rs o h) as [->|(? & _ & ->)].
Qed.

(** C22. What a call by name can throw, and when: a [TypeError] and nothing
    else, exactly when the name is not defined on [window], or the name is
    that of the tile clicker and the document has a tile but, after the
    click, no body.  In particular no selector text of the script is
    rejected with a [SyntaxError]. *)
Theorem call_throws name h e :
  outcome (call name) h = Throw e ↔
  e = TypeError ∧
  (window !! name = None ∨
   name = "clickUserSelectionTile" ∧
   ∃ el, querySelector tileSelector (document h) = Some el ∧
         document_body (document (after_click (el_id el) h)) = None).
Proof.
  unfold outcome, call.
  destruct (window !! name) as [f|] eqn:Hf; [|naive_solver].
  apply window_lookup in Hf as ->. destruct f; cbn.
  - rewrite clickUniversityLoginButton_run. naive_solver.
  - rewrite clickUserSelectionTile_run.
    destruct (querySelector _ _) as [el|]; [|naive_solver].
    rewrite waitForTextboxToAppear_run.
    destruct (document_body _) eqn:Hb; naive_solver.
  - rewrite focusTextbox_run. naive_solver.
Qed.

(** ** The selector texts *)

(** In the grammar of [parse_selector], which reads one spelling of each
    selector, a text reads as the login, tile or password selector exactly
    when it is the literal of line 3, of line 8 or of lines 25 and 44. *)
Lemma selector_texts_roundtrip text :
  (parse_selector text = Some loginSelector ↔ text = loginSelectorText) ∧
  (parse_selector text = Some tileSelector ↔ text = tileSelectorText) ∧
  (parse_selector text = Some passwdSelector ↔ text = passwdSelectorText).
Proof.
  split_and!; (split; [intros Hp|by intros ->]).
  - exact (parse_selector_inj _ _ _ Hp parse_loginSelectorText).
  - exact (parse_selector_inj _ _ _ Hp parse_tileSelectorText).
  - exact (parse_selector_inj _ _ _ Hp parse_passwdSelectorText).
Qed.

(** ** Equivalence with the reference definitions *)

(** On a child-list record the loop body and the single look agree: both
    leave the state alone, or both focus and disconnect. *)
Lemma checkMutation_focusWhenShown m o h :
  mr_type m = ChildList →
  (checkMutation m o h = (Ok false, h) ∧ focusWhenShown o h = (Ok tt, h)) ∨
  ∃ h', checkMutation m o h = (Ok true, h') ∧ focusWhenShown o h = (Ok tt, h').
Proof.
  intros Hm. unfold checkMutation, focusWhenShown. rewrite decide_True by done.
  autorewrite with eff. destruct (querySelector _ _) as [e|]; [|by left].
  cbn. autorewrite with eff. case_decide; [|by left].
  right. eexists. by autorewrite with eff.
Qed.

(** C20. The loop of the callback is equivalent, in every state and on every
    batch, to a single test: if the batch has a child-list record, look at
    the password box once; otherwise do nothing.  How many records the batch
    has, and in which order, makes no difference. *)
Theorem textboxCallback_equiv rs o :
  textboxCallback rs o ≡ textboxCallback_ref rs o.
Proof.
  intros h. unfold textboxCallback_ref. induction rs as [|r rs IH].
  { by rewrite decide_False by (by intros ?%Exists_nil). }
  destruct (decide (mr_type r = ChildList)) as [Hr|Hr].
  - rewrite decide_True by (by left). cbn. unfold mbind, eff_mbind, eff_bind.
    destruct (checkMutation_focusWhenShown r o h Hr) as [[-> Hf]|(h' & -> & Hf)];
      [|done].
    rewrite IH, Hf. by case_decide.
  - rewrite textboxCallback_skip, IH by done.
    repeat case_decide; try done; rewrite Exists_cons in *; tauto.
Qed.

(** C21. The tile clicker is equivalent to its reference definition: asking
    for all tiles, testing the length and taking index 0 is asking for the
    first tile and testing for null, and the read of index 0 never fails. *)
Theorem clickUserSelectionTile_equiv :
  clickUserSelectionTile ≡ clickUserSelectionTile_ref.
Proof.
  intros h. rewrite clickUserSelectionTile_run. unfold clickUserSelectionTile_ref.
  rewrite (run_document_querySelector _ _ _ _ parse_tileSelectorText).
  by destruct (querySelector _ _).
Qed.
End script_theorems.
