(* ===== verification/EventLoop.v ===== *)
(** * EventLoop: the script in a running page

    The driver, the page and the browser take turns: the driver calls an
    exported function by name, the page (or the layout engine) edits the
    document, and at a checkpoint the browser notifies the mutation
    observers.  [exec] performs one such action, [run] a sequence of them;
    [step] is the same as a labelled relation that is only enabled for calls
    of defined names and for edits that apply.

    A checkpoint is a loop ([drain]): the observers get rounds of turns
    ([notify]) until no record waits for delivery, since the focus call of
    a callback can make the page edit the document again.

    Relations on states that every primitive state change respects are
    collected in the class [Preserved]; what is proved once for the class
    (every action and every run respects the relation) is instantiated for
    the invariant [inv], for the growth of the effect log and for the fate
    of observers ([evolves]).  What every turn of an observer respects,
    every round and every checkpoint respects ([turns_checkpoint]).  On
    top of these: on a page whose focus listeners edit nothing a checkpoint
    is one round, and an armed observer fires on the first child-list
    change once the password box shows; and on every page, changes that
    are not child-list changes never wake the waiter. *)

From stdpp Require Import gmap.
From S2P Require Import Prelude Text Dom Selector Edit Host Script.

Local Open Scope string_scope.
Local Open Scope list_scope.
Local Open Scope nat_scope.

(** ** Definitions *)

Inductive action : Type :=
| Call (name : string)
| PageEdit (ed : edit)
| Checkpoint.

(** The shape of the observers the script creates: an observer is either
    unregistered with an empty queue (never armed, or disconnected), or
    registered on one node with the options of the script, and then its
    queue holds child-list records only. *)
Definition observer_ok (ob : observer callback_id) : Prop :=
  (registrations ob = [] ∧ records ob = []) ∨
  (length (registrations ob) = 1 ∧
   Forall (λ reg, reg.2 = observeOptions) (registrations ob) ∧
   Forall (λ r, mr_type r = ChildList) (records ob)).

#[export] Instance observer_ok_dec ob : Decision (observer_ok ob).
Proof. unfold observer_ok. apply _. Defined.

(** The invariant of a running page. *)
Definition inv (h : host callback_id) : Prop :=
  wf_node (document h) ∧ Forall observer_ok (observers h).

#[export] Instance inv_dec h : Decision (inv h).
Proof. unfold inv. apply _. Defined.

(** No record waits for delivery. *)
Definition quiescent (h : host callback_id) : Prop :=
  Forall (λ ob, records ob = []) (observers h).

(** A property that holds after if it held before, as a relation. *)
Definition keeps (P : host callback_id → Prop) : relation (host callback_id) :=
  λ h h', P h → P h'.

(** A relation that holds between states that satisfy the invariant. *)
Definition under_inv (P : relation (host callback_id)) :
    relation (host callback_id) :=
  λ h h', inv h → inv h' ∧ P h h'.

(** The effect log only grows. *)
Definition log_grows (h h' : host callback_id) : Prop :=
  log h `prefix_of` log h'.

(** The registrations of an observer only go away. *)
Definition shrinks (ob ob' : observer callback_id) : Prop :=
  registrations ob' = registrations ob ∨ registrations ob' = [].

(** [evolves h h']: every observer of [h] is still there in [h'], with its
    registrations or without any. *)
Definition evolves (h h' : host callback_id) : Prop :=
  ∀ o ob, observers h !! o = Some ob →
          ∃ ob', observers h' !! o = Some ob' ∧ shrinks ob ob'.

(** Observer [o] has focused element [i] and is disconnected. *)
Definition fired_at (o i : nat) (h : host callback_id) : Prop :=
  Focused i ∈ log h ∧
  ∃ ob, observers h !! o = Some ob ∧ registrations ob = [].

(** An edit that is not a child-list change. *)
Definition silent_edit (ed : edit) : Prop :=
  match ed with
  | InsertChild _ _ _ | RemoveChild _ => False
  | SetAttribute _ _ _ | SetHeight _ _ | SetData _ _ => True
  end.

(** An action of the page or the browser that changes no child list. *)
Definition silent (a : action) : Prop :=
  match a with
  | Call _ => False
  | PageEdit ed => silent_edit ed
  | Checkpoint => True
  end.

#[export] Instance silent_dec a : Decision (silent a).
Proof. destruct a as [|[]|]; cbn; apply _. Defined.

Definition is_armed (ob : observer callback_id) : Prop := registrations ob ≠ [].

(** The number of observers that are registered somewhere. *)
Definition armed (h : host callback_id) : nat := count is_armed (observers h).

Section loop.
Context `{Page}.
Implicit Types (h : host callback_id) (a : action) (ob : observer callback_id).
Implicit Types (R : relation (host callback_id)).

(** The turns of the observers [os], in this order. *)
Definition notify_from (os : list nat) h : host callback_id :=
  foldl (λ h o, notify_observer o h) h os.

(** The checkpoint as a loop: as long as a record waits for delivery the
    observers get another round of turns.  [fuel] is the number of rounds
    allowed. *)
Fixpoint drain (fuel : nat) h : option (host callback_id) :=
  if decide (quiescent h) then Some h
  else match fuel with
       | 0 => None
       | S fuel => drain fuel (notify h)
       end.

(** The checkpoint of the browser.  As many rounds are allowed as there are
    observers; under the invariant the loop ends before they are used
    up. *)
Definition checkpoint h : host callback_id :=
  default h (drain (length (observers h)) h).

(** One action.  A call of a name that is not defined throws and an edit
    that does not apply is not made: both leave the state as it is. *)
Definition exec (a : action) h : host callback_id :=
  match a with
  | Call name => final (call name) h
  | PageEdit ed => page_edit ed h
  | Checkpoint => checkpoint h
  end.

Definition run (acts : list action) h : host callback_id :=
  foldl (λ h a, exec a h) h acts.

(** The same as a labelled transition relation. *)
Inductive step : host callback_id → action → host callback_id → Prop :=
| step_call name f h :
    window !! name = Some f →
    step h (Call name) (final (run_exported f) h)
| step_edit ed h :
    is_Some (apply_edit ed (document h)) →
    step h (PageEdit ed) (page_edit ed h)
| step_checkpoint h :
    step h Checkpoint (checkpoint h).

Inductive steps : host callback_id → list action → host callback_id → Prop :=
| steps_nil h : steps h [] h
| steps_cons h a h' acts h'' :
    step h a h' → steps h' acts h'' → steps h (a :: acts) h''.

(** A relation every primitive state change respects: an edit by the page,
    logging an effect, a move of the focus, emptying a queue, a
    disconnection, and the creation of an observer of the script, armed or
    not. *)
Class Preserved R : Prop := {
  pres_preorder :: PreOrder R;
  pres_page_edit ed h : R h (page_edit ed h);
  pres_add_effect ev h : R h (add_effect ev h);
  pres_take_focus i h : R h (take_focus i h);
  pres_clear_records o h : R h (clear_records o h);
  pres_after_disconnect o h : R h (after_disconnect o h);
  pres_new_observer ob h :
    observer_ok ob → records ob = [] →
    R h (set_observers (observers h ++ [ob]) h)
}.

(** ** The relation and the function *)

Lemma step_exec h a h' : step h a h' → exec a h = h'.
Proof.
  destruct 1 as [name f h Hf| |]; cbn [exec]; [|done..]. unfold call.
  by rewrite Hf.
Qed.

(** [exec] is the step relation made total: an enabled action does what
    the relation says, and an action that is not enabled (a call of an
    undefined name, an edit that does not apply) leaves the state as it
    is. *)
Lemma exec_step h a : step h a (exec a h) ∨ exec a h = h.
Proof.
  destruct a as [name|ed|]; cbn [exec].
  - unfold call. destruct (window !! name) as [f|] eqn:Hf; [left|by right].
    by constructor.
  - destruct (decide (is_Some (apply_edit ed (document h)))) as [Hed|Hed].
    + left. by constructor.
    + right. unfold page_edit. by destruct (apply_edit _ _); [destruct Hed|].
  - left. constructor.
Qed.

Lemma steps_run h acts h' : steps h acts h' → run acts h = h'.
Proof.
  induction 1 as [|h a h' acts h'' Hstep _ IH]; [done|].
  cbn. by rewrite (step_exec _ _ _ Hstep).
Qed.

Lemma run_cons a acts h : run (a :: acts) h = run acts (exec a h).
Proof. done. Qed.

Lemma run_app acts1 acts2 h : run (acts1 ++ acts2) h = run acts2 (run acts1 h).
Proof. apply foldl_app. Qed.

Lemma notify_from_cons o os h :
  notify_from (o :: os) h = notify_from os (notify_observer o h).
Proof. done. Qed.

Lemma notify_from_app os1 os2 h :
  notify_from (os1 ++ os2) h = notify_from os2 (notify_from os1 h).
Proof. apply foldl_app. Qed.

Lemma notify_unfold h : notify h = notify_from (seq 0 (length (observers h))) h.
Proof. done. Qed.

(** ** One observer's turn *)

Lemma clear_records_lookup o ob h :
  observers h !! o = Some ob →
  observers (clear_records o h) !! o = Some (set_records [] ob).
Proof. intros Hob. cbn. by rewrite list_lookup_alter_eq, Hob. Qed.

(** What one observer's turn does: nothing, because nothing waits for it;
    or the queue is emptied and the callback ran on it, with one of its two
    outcomes. *)
Lemma notify_observer_cases o h :
  (notify_observer o h = h ∧
   from_option (λ ob, records ob = []) True (observers h !! o)) ∨
  ∃ ob, observers h !! o = Some ob ∧ records ob ≠ [] ∧
    (notify_observer o h = clear_records o h ∨
     ∃ e, querySelector passwdSelector (document h) = Some e ∧
          notify_observer o h
          = after_disconnect o (after_focus (el_id e) (clear_records o h))).
Proof.
  unfold notify_observer.
  destruct (observers h !! o) as [ob|] eqn:Hob; [|by left].
  case_decide as Hrs; [by left|right]. exists ob. split_and!; [done..|].
  unfold final, run_callback, script_callbacks. destruct (callback ob).
  destruct (textboxCallback_cases (records ob) o (clear_records o h))
    as [->|(e & He & ->)]; [by left|right]. by exists e.
Qed.

(** After its turn the queue of an observer is empty. *)
Lemma notify_observer_lookup o h ob :
  observers (notify_observer o h) !! o = Some ob → records ob = [].
Proof.
  destruct (notify_observer_cases o h)
    as [[-> Hq]|(ob0 & Hob & _ & [->|(e & _ & ->)])]; intros Hlook.
  - by rewrite Hlook in Hq.
  - rewrite (clear_records_lookup o ob0) in Hlook by done. by simplify_eq.
  - rewrite after_disconnect_lookup in Hlook.
    by apply fmap_Some in Hlook as (? & _ & ->).
Qed.

(** A turn leaves every other observer under its handle, with its callback
    and its registrations; the queue of another grows by what the focus
    listeners of the page have edited. *)
Lemma notify_observer_others o o' ob' h :
  o ≠ o' → observers h !! o' = Some ob' →
  ∃ ob'', observers (notify_observer o h) !! o' = Some ob'' ∧
          callback ob'' = callback ob' ∧
          registrations ob'' = registrations ob' ∧
          records ob' `prefix_of` records ob''.
Proof.
  intros Hne Hob'.
  assert (observers (clear_records o h) !! o' = Some ob') as Hc
    by (by cbn; rewrite list_lookup_alter_ne).
  destruct (notify_observer_cases o h)
    as [[-> _]|(ob & _ & _ & [->|(e & _ & ->)])]; [by exists ob'..|].
  rewrite after_disconnect_lookup_ne by done. by apply after_focus_lookup.
Qed.

(** Without a queued record a round of turns does nothing. *)
Lemma notify_from_quiescent os h : quiescent h → notify_from os h = h.
Proof.
  intros Hq. induction os as [|o os IH]; [done|]. rewrite notify_from_cons.
  destruct (notify_observer_cases o h) as [[-> _]|(ob & Hob & Hrs & _)]; [done|].
  destruct Hrs. by apply (Forall_lookup_1 _ _ _ _ Hq Hob).
Qed.

(** ** Rounds and checkpoints *)

Lemma drain_quiescent fuel h : quiescent h → drain fuel h = Some h.
Proof. intros Hq. destruct fuel; cbn [drain]; by rewrite decide_True. Qed.

Lemma drain_S fuel h : ¬ quiescent h → drain (S fuel) h = drain fuel (notify h).
Proof. intros Hq. cbn [drain]. by rewrite decide_False. Qed.

(** Without a queued record a checkpoint does nothing. *)
Lemma checkpoint_quiescent h : quiescent h → checkpoint h = h.
Proof. intros Hq. unfold checkpoint. by rewrite drain_quiescent. Qed.

(** When the first round leaves no record behind, the checkpoint is that
    round. *)
Lemma checkpoint_one_round h : quiescent (notify h) → checkpoint h = notify h.
Proof.
  intros Hq. destruct (decide (quiescent h)) as [Hh|Hh].
  { by rewrite checkpoint_quiescent, notify_unfold, notify_from_quiescent. }
  unfold checkpoint. destruct (observers h) as [|ob obs] eqn:Hobs.
  { destruct Hh. unfold quiescent. by rewrite Hobs. }
  cbn [length]. by rewrite drain_S, drain_quiescent.
Qed.

(** What every turn respects, every round and every checkpoint
    respects. *)
Section turns.
Context (R : relation (host callback_id)) `{!PreOrder R}.
Context (turn : ∀ o h, R h (notify_observer o h)).

Lemma turns_notify_from os h : R h (notify_from os h).
Proof.
  revert h. induction os as [|o os IH]; intros h; [done|].
  rewrite notify_from_cons. etrans; [apply turn|apply IH].
Qed.

Lemma turns_drain fuel h h' : drain fuel h = Some h' → R h h'.
Proof.
  revert h. induction fuel as [|fuel IH]; intros h; cbn [drain];
    case_decide; intros ?; simplify_eq; [done..|].
  etrans; [apply turns_notify_from|by apply IH].
Qed.

Lemma turns_checkpoint h : R h (checkpoint h).
Proof.
  unfold checkpoint. destruct (drain _ h) as [h'|] eqn:Hd; [|done].
  by eapply turns_drain.
Qed.
End turns.

(** ** Relations every action respects *)

Section preserved.
Context `{!Preserved R}.

Lemma preserved_page_edits eds h : R h (page_edits eds h).
Proof.
  revert h. induction eds as [|ed eds IH]; intros h; [done|].
  rewrite page_edits_cons. etrans; [apply pres_page_edit|apply IH].
Qed.

Lemma preserved_after_focus i h : R h (after_focus i h).
Proof.
  unfold after_focus. etrans; [apply pres_take_focus|].
  apply preserved_page_edits.
Qed.

Lemma preserved_after_click i h : R h (after_click i h).
Proof.
  unfold after_click. etrans; [apply (pres_add_effect (Clicked i))|].
  apply preserved_page_edits.
Qed.

Lemma preserved_notify_observer o h : R h (notify_observer o h).
Proof.
  destruct (notify_observer_cases o h)
    as [[-> _]|(ob & _ & _ & [->|(e & _ & ->)])];
    [done|apply pres_clear_records|].
  etrans; [apply pres_clear_records|].
  etrans; [apply preserved_after_focus|apply pres_after_disconnect].
Qed.

Lemma preserved_notify_from os h : R h (notify_from os h).
Proof. apply turns_notify_from; [apply _|apply preserved_notify_observer]. Qed.

Lemma preserved_checkpoint h : R h (checkpoint h).
Proof. apply turns_checkpoint; [apply _|apply preserved_notify_observer]. Qed.

Lemma preserved_waitForTextboxToAppear h : R h (final waitForTextboxToAppear h).
Proof.
  unfold final. rewrite waitForTextboxToAppear_run.
  destruct (document_body _) as [b|]; cbn; apply pres_new_observer; try done.
  - right. cbn. split_and!; [done|by constructor|done].
  - by left.
Qed.

Lemma preserved_run_exported f h : R h (final (run_exported f) h).
Proof.
  unfold final. destruct f; cbn.
  - rewrite clickUniversityLoginButton_run.
    destruct (querySelector _ _); [apply preserved_after_click|done].
  - rewrite clickUserSelectionTile_run. destruct (querySelector _ _); [|done].
    etrans; [apply preserved_after_click|apply preserved_waitForTextboxToAppear].
  - rewrite focusTextbox_run.
    destruct (querySelector _ _); [apply preserved_after_focus|done].
Qed.

Lemma preserved_exec a h : R h (exec a h).
Proof.
  destruct a as [name| |]; [|apply pres_page_edit|apply preserved_checkpoint].
  cbn. unfold call. destruct (window !! name); [apply preserved_run_exported|done].
Qed.

Lemma preserved_run acts h : R h (run acts h).
Proof.
  revert h. induction acts as [|a acts IH]; intros h; [done|].
  rewrite run_cons. etrans; [apply preserved_exec|apply IH].
Qed.

(** The same by induction on the step relation. *)
Lemma preserved_steps h acts h' : steps h acts h' → R h h'.
Proof.
  induction 1 as [|h a h' acts h'' Hstep _ IH]; [done|].
  etrans; [|done]. apply step_exec in Hstep as <-. apply preserved_exec.
Qed.
End preserved.

(** ** The invariant *)

#[export] Instance keeps_preorder P : PreOrder (keeps P).
Proof. split; unfold keeps; [by intros ?|intros ???; eauto]. Qed.

Lemma ok_options ob :
  observer_ok ob → Forall (λ reg, reg.2 = observeOptions) (registrations ob).
Proof. intros [[-> _]|(_ & ? & _)]; [constructor|done]. Qed.

Lemma ok_unregistered ob : observer_ok ob → registrations ob = [] → records ob = [].
Proof. intros [[_ ?]|(Hlen & _)] Hreg; [done|]. by rewrite Hreg in Hlen. Qed.

Lemma ok_pending ob : observer_ok ob → records ob ≠ [] → is_armed ob.
Proof. intros Hok Hrs Hreg. by apply Hrs, ok_unregistered. Qed.

(** An observer of the script is interested in child-list records only. *)
Lemma interested_childList doc r ob :
  observer_ok ob → interested doc r ob → mr_type r = ChildList.
Proof.
  intros Hok%ok_options (reg & Hin & _ & _ & Hw)%Exists_exists.
  rewrite Forall_forall in Hok. rewrite (Hok reg Hin) in Hw.
  by destruct (mr_type r).
Qed.

Lemma interested_registered doc r b ob :
  observer_ok ob → b ∈ (registrations ob).*1 → mr_type r = ChildList →
  b ∈ inclusive_ancestors (mr_target r) doc → interested doc r ob.
Proof.
  intros Hok%ok_options ([b' opts] & -> & Hin)%list_elem_of_fmap Hr Hb.
  apply Exists_exists. exists (b', opts). split; [done|].
  rewrite Forall_forall in Hok. specialize (Hok _ Hin). cbn in Hok. subst opts.
  split_and!; [done|by right|by rewrite Hr].
Qed.

Lemma enqueue_other doc r ob :
  observer_ok ob → mr_type r ≠ ChildList → enqueue doc r ob = ob.
Proof.
  intros Hok Hr. unfold enqueue. rewrite decide_False; [done|].
  intros Hint. by apply Hr, (interested_childList doc r ob).
Qed.

Lemma enqueue_ok doc r ob : observer_ok ob → observer_ok (enqueue doc r ob).
Proof.
  intros Hob. pose proof (interested_childList doc r ob Hob) as Hr.
  destruct Hob as [[Hreg Hrs]|(Hlen & Hopts & Hrec)].
  { rewrite enqueue_unregistered by done. by left. }
  right. rewrite enqueue_registrations, enqueue_records. split_and!; [done..|].
  case_decide; [|done]. apply Forall_app. split; [done|].
  apply Forall_singleton. auto.
Qed.

Lemma inv_page_edit ed h : inv h → inv (page_edit ed h).
Proof.
  intros [Hwf Hobs]. unfold page_edit.
  destruct (apply_edit _ _) as [doc'|] eqn:Hed; [|done].
  apply apply_edit_Some in Hed as [Hok ->].
  apply (perform_wf ed) in Hwf; [|done].
  destruct (edit_record _ _); split; cbn; try done.
  apply Forall_fmap. eapply Forall_impl; [done|]. intros. by apply enqueue_ok.
Qed.

Lemma inv_take_focus i h : inv h → inv (take_focus i h).
Proof.
  intros [??].
  split; [by rewrite take_focus_document|by rewrite take_focus_observers].
Qed.

Lemma inv_alter (f : observer callback_id → observer callback_id) o h :
  (∀ ob, observer_ok ob → observer_ok (f ob)) →
  inv h → inv (set_observers (alter f o (observers h)) h).
Proof.
  intros Hf [??]. split; [done|]. cbn.
  by apply Forall_alter; [|intros; apply Hf].
Qed.

#[export] Instance inv_preserved : Preserved (keeps inv).
Proof.
  split; unfold keeps; [apply _|apply inv_page_edit|by intros ?? [??]
    |apply inv_take_focus| | |].
  - intros o h. apply inv_alter. intros ob [[??]|(? & ? & ?)]; [by left|by right].
  - intros o h. apply inv_alter. intros ob _. by left.
  - intros ob h Hob _ [??]. split; [done|]. cbn. apply Forall_app.
    by rewrite Forall_singleton.
Qed.

Lemma inv_exec a h : inv h → inv (exec a h).
Proof. apply (preserved_exec (R:=keeps inv)). Qed.

(** What every turn respects under the invariant, every round and every
    checkpoint respects under the invariant. *)
#[export] Instance under_inv_preorder P `{!PreOrder P} : PreOrder (under_inv P).
Proof.
  split; [by intros h ?|]. intros h1 h2 h3 H12 H23 Hinv.
  destruct (H12 Hinv) as [Hinv2 ?]. destruct (H23 Hinv2) as [??].
  split; [done|by etrans].
Qed.

Section inv_turns.
Context (P : relation (host callback_id)) `{!PreOrder P}.
Context (turn : ∀ o h, inv h → P h (notify_observer o h)).

Lemma inv_turn o h : under_inv P h (notify_observer o h).
Proof.
  intros Hinv.
  split; [by apply (preserved_notify_observer (R:=keeps inv))|by apply turn].
Qed.

Lemma inv_turns_notify_from os h : inv h → P h (notify_from os h).
Proof. intros Hinv. by apply (turns_notify_from (under_inv P) inv_turn os h). Qed.

Lemma inv_turns_checkpoint h : inv h → P h (checkpoint h).
Proof. intros Hinv. by apply (turns_checkpoint (under_inv P) inv_turn h). Qed.
End inv_turns.

(** C13. The invariant of a running page.  From a state with a well-formed
    document in which every observer has the shape the script gives it,
    every run of calls, page edits and checkpoints reaches only such states:
    the document stays well formed, no observer is ever registered on more
    than one node or with other options than those of the script, queues
    hold child-list records only, and an unregistered observer has an
    empty queue. *)
Theorem inv_run acts h : inv h → inv (run acts h).
Proof. apply (preserved_run (R:=keeps inv)). Qed.

(** ** What never goes back *)

#[export] Instance log_grows_preserved : Preserved log_grows.
Proof.
  split; unfold log_grows; [split; [by intros ?|by intros ???; etrans]|..].
  - intros. by rewrite page_edit_log.
  - intros. by apply prefix_app_r.
  - intros. rewrite take_focus_log. by apply prefix_app_r.
  - done.
  - done.
  - done.
Qed.

#[export] Instance shrinks_preorder : PreOrder shrinks.
Proof.
  split; [by left|]. intros ob1 ob2 ob3 [H12|H12] [H23|H23];
    unfold shrinks; rewrite ?H23, ?H12; auto.
Qed.

#[export] Instance evolves_preorder : PreOrder evolves.
Proof.
  split; [intros h o ob ?; by exists ob|]. intros h1 h2 h3 H12 H23 o ob Hob.
  destruct (H12 o ob Hob) as (ob2 & Hob2 & ?).
  destruct (H23 o ob2 Hob2) as (ob3 & Hob3 & ?).
  exists ob3. split; [done|by etrans].
Qed.

Lemma evolves_observers h h' : observers h' = observers h → evolves h h'.
Proof. intros Heq o ob Hob. exists ob. by rewrite Heq. Qed.

Lemma evolves_alter (f : observer callback_id → observer callback_id) o h :
  (∀ ob, shrinks ob (f ob)) →
  evolves h (set_observers (alter f o (observers h)) h).
Proof.
  intros Hf o' ob Hob. cbn. destruct (decide (o = o')) as [->|Hne].
  - exists (f ob). by rewrite list_lookup_alter_eq, Hob.
  - exists ob. by rewrite list_lookup_alter_ne.
Qed.

Lemma evolves_page_edit ed h : evolves h (page_edit ed h).
Proof.
  unfold page_edit. destruct (apply_edit _ _); [|done].
  destruct (edit_record _ _) as [r|]; [|by apply evolves_observers].
  intros o ob Hob. exists (enqueue (document h) r ob). cbn.
  rewrite list_lookup_fmap, Hob. split; [done|left]. apply enqueue_registrations.
Qed.

#[export] Instance evolves_preserved : Preserved evolves.
Proof.
  split; [apply _|apply evolves_page_edit|by intros; apply evolves_observers
    |by intros; apply evolves_observers, take_focus_observers| | |].
  - intros. apply evolves_alter. by left.
  - intros. apply evolves_alter. by right.
  - intros ob h _ _ o ob' Hob. exists ob'.
    split; [by apply lookup_app_l_Some|done].
Qed.

(** C38. Nothing is taken back in a run: the effect log of the start is a
    prefix of the log at the end, and every observer of the start is still
    there at the end, under the same handle, with the registrations it had
    or with none.  No observer is ever registered again. *)
Theorem run_monotone acts h :
  log h `prefix_of` log (run acts h) ∧ evolves h (run acts h).
Proof.
  split; [apply (preserved_run (R:=log_grows))|apply (preserved_run (R:=evolves))].
Qed.

(** C23. Disconnection is final: an observer without registrations keeps
    its handle, stays without registrations and with an empty queue through
    every run, and its turn at a checkpoint does nothing, so its callback
    never runs again. *)
Theorem disconnected_stays acts o ob h :
  inv h → observers h !! o = Some ob → registrations ob = [] →
  ∃ ob', observers (run acts h) !! o = Some ob' ∧
         registrations ob' = [] ∧ records ob' = [] ∧
         notify_observer o (run acts h) = run acts h.
Proof.
  intros Hinv Hob Hreg.
  destruct (preserved_run (R:=evolves) acts h o ob Hob) as (ob' & Hob' & Hsh).
  assert (registrations ob' = []) as Hreg' by (destruct Hsh; congruence).
  assert (records ob' = []) as Hrec'.
  { apply ok_unregistered; [|done].
    apply (preserved_run (R:=keeps inv) acts) in Hinv as [_ Hobs].
    by apply (Forall_lookup_1 _ _ _ _ Hobs Hob'). }
  exists ob'. split_and!; [done..|]. unfold notify_observer.
  by rewrite Hob', decide_True.
Qed.

(** ** The waiter fires *)

(** Under the invariant the type test of the callback is always passed:
    the turn of an observer with a queued record is decided by the
    password box alone. *)
Lemma notify_observer_fire o ob h :
  inv h → observers h !! o = Some ob → records ob ≠ [] →
  notify_observer o h =
    from_option (λ i, after_disconnect o (after_focus i (clear_records o h)))
      (clear_records o h) (visible_textbox (document h)).
Proof.
  intros [Hwf Hobs] Hob Hrs. unfold notify_observer.
  rewrite Hob, decide_False by done.
  unfold final, run_callback, script_callbacks. destruct (callback ob).
  apply (Forall_lookup_1 _ _ _ _ Hobs) in Hob as [[_ ?]|(_ & _ & Hrec)]; [done|].
  destruct (records ob) as [|r rs]; [done|]. apply Forall_cons in Hrec as [Hr _].
  by rewrite textboxCallback_childList.
Qed.

Lemma fired_at_mono o i h h' :
  log_grows h h' → evolves h h' → fired_at o i h → fired_at o i h'.
Proof.
  intros Hlog Hev [Hin (ob & Hob & Hreg)]. split; [by eapply elem_of_prefix|].
  destruct (Hev o ob Hob) as (ob' & Hob' & Hsh). exists ob'.
  split; [done|]. destruct Hsh; congruence.
Qed.

Lemma notify_observer_fires o ob i h :
  inv h → observers h !! o = Some ob → records ob ≠ [] →
  visible_textbox (document h) = Some i →
  fired_at o i (notify_observer o h).
Proof.
  intros Hinv Hob Hrs Hvis. rewrite (notify_observer_fire o ob), Hvis by done.
  cbn [from_option]. split.
  - change (Focused i ∈ log (after_focus i (clear_records o h))).
    rewrite after_focus_log. set_solver.
  - destruct (after_focus_lookup i o _ _ (clear_records_lookup o ob h Hob))
      as (ob' & Hob' & _).
    exists (Observer (callback ob') [] []). split; [|done].
    by rewrite after_disconnect_lookup, Hob'.
Qed.

(** The edit of the page reaches the queue of an interested observer. *)
Lemma page_edit_delivers ed doc' r o ob h :
  apply_edit ed (document h) = Some doc' →
  edit_record ed (document h) = Some r →
  observers h !! o = Some ob → interested (document h) r ob →
  document (page_edit ed h) = doc' ∧
  observers (page_edit ed h) !! o = Some (set_records (records ob ++ [r]) ob).
Proof.
  intros Hed Hr Hob Hint. unfold page_edit. rewrite Hed, Hr. cbn.
  split; [done|]. rewrite list_lookup_fmap, Hob. cbn. unfold enqueue.
  by rewrite decide_True.
Qed.

(** An edit of the page that changes a child list below the node an armed
    observer is registered on leaves a record in its queue. *)
Lemma page_edit_fires o ob b ed r i h :
  inv h → observers h !! o = Some ob → b ∈ (registrations ob).*1 →
  edit_record ed (document h) = Some r → mr_type r = ChildList →
  b ∈ inclusive_ancestors (mr_target r) (document h) →
  apply_edit ed (document h) ≫= visible_textbox = Some i →
  ∃ ob', observers (page_edit ed h) !! o = Some ob' ∧ records ob' ≠ [] ∧
         visible_textbox (document (page_edit ed h)) = Some i.
Proof.
  intros Hinv Hob Hb Hr Hty Hanc Hvis.
  destruct (apply_edit ed (document h)) as [doc'|] eqn:Hed; [|done].
  assert (interested (document h) r ob) as Hint.
  { eapply interested_registered; [|done..]. destruct Hinv as [_ Hobs].
    by apply (Forall_lookup_1 _ _ _ _ Hobs Hob). }
  destruct (page_edit_delivers ed doc' r o ob h) as [Hdoc Hob']; [done..|].
  eexists. split_and!; [done| |by rewrite Hdoc]. cbn. by destruct (records ob).
Qed.

(** ** Changes the waiter does not see *)

Lemma page_edit_silent ed h :
  inv h → silent_edit ed → observers (page_edit ed h) = observers h.
Proof.
  intros [_ Hobs] Hsil. unfold page_edit. destruct (apply_edit _ _); [|done].
  destruct ed; cbn; try done; apply fmap_fixed, (Forall_impl _ _ _ Hobs);
    intros ob Hok; by apply enqueue_other.
Qed.

Lemma silent_exec a h :
  inv h → quiescent h → silent a →
  log (exec a h) = log h ∧ activeElement (exec a h) = activeElement h ∧
  observers (exec a h) = observers h.
Proof.
  intros Hinv Hq Ha. destruct a as [|ed|]; [done| |]; cbn [exec].
  - by rewrite page_edit_log, page_edit_activeElement, page_edit_silent.
  - by rewrite checkpoint_quiescent.
Qed.

(** C24. The waiter reacts to child-list changes only.  From a state in
    which no record is queued, a run that consists of attribute changes,
    text changes, layout changes of the rendered height and checkpoints
    makes no call on any element and leaves every observer as it was,
    armed ones included: a password box that is revealed by such a change
    alone is never focused. *)
Theorem silent_run acts h :
  inv h → quiescent h → Forall silent acts →
  log (run acts h) = log h ∧ activeElement (run acts h) = activeElement h ∧
  observers (run acts h) = observers h.
Proof.
  intros Hinv Hq Hsil. revert h Hinv Hq.
  induction Hsil as [|a acts Ha _ IH]; intros h Hinv Hq; [done|].
  destruct (silent_exec a h) as (Hl & Hact & Ho); [done..|].
  rewrite run_cons. destruct (IH (exec a h)) as (-> & -> & ->);
    [by apply inv_exec|by unfold quiescent; rewrite Ho|done].
Qed.
(** ** Pages whose focus listeners edit nothing *)

Section quiet.
Context `{!QuietFocus}.

Lemma notify_observer_document o h : document (notify_observer o h) = document h.
Proof.
  destruct (notify_observer_cases o h)
    as [[-> _]|(ob & _ & _ & [->|(e & _ & ->)])]; [done..|].
  exact (after_focus_document (el_id e) (clear_records o h)).
Qed.

(** A turn touches no other observer. *)
Lemma notify_observer_lookup_ne o o' h :
  o ≠ o' → observers (notify_observer o h) !! o' = observers h !! o'.
Proof.
  intros Hne.
  destruct (notify_observer_cases o h)
    as [[-> _]|(ob & _ & _ & [->|(e & _ & ->)])];
    [done|by apply list_lookup_alter_ne|].
  rewrite after_disconnect_lookup_ne, after_focus_observers by done.
  by apply list_lookup_alter_ne.
Qed.

Lemma notify_from_document os h : document (notify_from os h) = document h.
Proof.
  revert h. induction os as [|o os IH]; intros h; [done|].
  by rewrite notify_from_cons, IH, notify_observer_document.
Qed.

Lemma notify_from_lookup_ne os o h :
  o ∉ os → observers (notify_from os h) !! o = observers h !! o.
Proof.
  revert h. induction os as [|o1 os IH]; intros h Hnotin; [done|].
  rewrite notify_from_cons, IH, notify_observer_lookup_ne; set_solver.
Qed.

(** ** Draining *)

Lemma notify_from_drains os h :
  (∀ o ob, observers h !! o = Some ob → o ∉ os → records ob = []) →
  quiescent (notify_from os h).
Proof.
  revert h. induction os as [|o1 os IH]; intros h Hh.
  { apply Forall_lookup. intros o ob Hob. apply (Hh o ob Hob), not_elem_of_nil. }
  rewrite notify_from_cons. apply IH. intros o ob Hob Hnotin.
  destruct (decide (o1 = o)) as [->|Hne]; [by eapply notify_observer_lookup|].
  rewrite notify_observer_lookup_ne in Hob by done.
  apply (Hh o ob Hob). set_solver.
Qed.

(** A round of turns delivers everything: after [notify] no observer has a
    record left in its queue, whatever the callbacks did. *)
Lemma notify_drains h : quiescent (notify h).
Proof.
  rewrite notify_unfold. apply notify_from_drains. intros o ob Hob Hnotin.
  destruct Hnotin. apply elem_of_seq. apply lookup_lt_Some in Hob. lia.
Qed.

(** A checkpoint is one round of turns. *)
Lemma checkpoint_notify h : checkpoint h = notify h.
Proof. apply checkpoint_one_round, notify_drains. Qed.

(** What the turns of a checkpoint keep, the checkpoint keeps. *)
Lemma notify_from_keeps (Q : host callback_id → Prop) doc os h :
  (∀ o h, inv h → document h = doc → Q h → Q (notify_observer o h)) →
  inv h → document h = doc → Q h → Q (notify_from os h).
Proof.
  intros Hkeep Hinv Hdoc HQ.
  apply (inv_turns_notify_from (keeps (λ h, document h = doc ∧ Q h)));
    [|done..].
  intros o h' Hinv' [??]. split; [by rewrite notify_observer_document|by auto].
Qed.

(** What the turn of an observer establishes, and the turns of the others
    keep, holds after the checkpoint: the observer finds its queue as it was
    at the start, whatever the observers before it did. *)
Lemma notify_establishes (Q : host callback_id → Prop) o ob h :
  (∀ o' h', inv h' → document h' = document h → Q h' → Q (notify_observer o' h')) →
  (∀ h', inv h' → document h' = document h → observers h' !! o = Some ob →
         Q (notify_observer o h')) →
  inv h → observers h !! o = Some ob → Q (notify h).
Proof.
  intros Hkeep Hturn Hinv Hob. pose proof (lookup_lt_Some _ _ _ Hob) as Hlt.
  rewrite notify_unfold, (seq_middle _ o), notify_from_app, notify_from_cons by done.
  assert (inv (notify_from (seq 0 o) h)) as Hinv'
    by by apply (preserved_notify_from (R:=keeps inv)).
  apply (notify_from_keeps Q (document h)); [done| | |].
  - by apply (preserved_notify_observer (R:=keeps inv)).
  - by rewrite notify_observer_document, notify_from_document.
  - apply Hturn; [done|apply notify_from_document|].
    rewrite notify_from_lookup_ne; [done|]. rewrite elem_of_seq. lia.
Qed.

(** A checkpoint with the password box showing fires every observer that
    has a record queued. *)
Lemma notify_fires o ob i h :
  inv h → observers h !! o = Some ob → records ob ≠ [] →
  visible_textbox (document h) = Some i →
  fired_at o i (notify h).
Proof.
  intros Hinv Hob Hrs Hvis. apply (notify_establishes _ o ob); [| |done..].
  - intros o' h' _ _. apply fired_at_mono;
      [apply (preserved_notify_observer (R:=log_grows))
      |apply (preserved_notify_observer (R:=evolves))].
  - intros h' Hinv' Hdoc Hob'. apply (notify_observer_fires o ob); [done..|].
    by rewrite Hdoc.
Qed.
End quiet.
End loop.

Arguments checkpoint : simpl never.
