(* ===== verification/Waiter.v ===== *)
(** * Waiter: the one-shot subscriptions the script implements

    What the script promises, without documents, selectors or queues: a
    list of subscriptions, each waiting or spent, and the log of element
    calls.  A subscription is created by the tile selector, completes at
    most once, with one focus, and is spent from then on.  [astep] is this
    machine; [abstract] reads its state off the browser state; the
    refinement theorems say that whatever the driver, the page and the
    browser do, the script moves along steps of the machine. *)

From stdpp Require Import gmap.
From S2P Require Import Prelude Text Dom Selector Edit Host Script EventLoop.

Local Open Scope string_scope.
Local Open Scope list_scope.
Local Open Scope nat_scope.

(** ** The abstract machine *)

Inductive status : Type :=
| Waiting
| Spent.

#[export] Instance status_eq_dec : EqDecision status.
Proof. solve_decision. Defined.

Record subscriptions : Type := Subscriptions {
  subs : list status;
  effects : list effect
}.

(** What the script does, as the machine sees it. *)
Inductive event : Type :=
| Click (i : nat)
| Focus (i : nat)
| Subscribe
| Stillborn
| Fire (o i : nat).

Inductive astep : subscriptions → event → subscriptions → Prop :=
| astep_click i a :
    astep a (Click i) (Subscriptions (subs a) (effects a ++ [Clicked i]))
| astep_focus i a :
    astep a (Focus i) (Subscriptions (subs a) (effects a ++ [Focused i]))
| astep_subscribe a :
    astep a Subscribe (Subscriptions (subs a ++ [Waiting]) (effects a))
| astep_stillborn a :
    astep a Stillborn (Subscriptions (subs a ++ [Spent]) (effects a))
| astep_fire o i a :
    subs a !! o = Some Waiting →
    astep a (Fire o i)
      (Subscriptions (<[o:=Spent]> (subs a)) (effects a ++ [Focused i])).

Inductive asteps : subscriptions → list event → subscriptions → Prop :=
| asteps_nil a : asteps a [] a
| asteps_cons a e a' es a'' :
    astep a e a' → asteps a' es a'' → asteps a (e :: es) a''.

(** Subscription [o] completes. *)
Definition fires (o : nat) (e : event) : Prop :=
  match e with
  | Fire o' _ => o' = o
  | Click _ | Focus _ | Subscribe | Stillborn => False
  end.

#[export] Instance fires_dec o e : Decision (fires o e).
Proof. destruct e; cbn; apply _. Defined.

Definition is_fire (e : event) : Prop :=
  match e with
  | Fire _ _ => True
  | Click _ | Focus _ | Subscribe | Stillborn => False
  end.

#[export] Instance is_fire_dec e : Decision (is_fire e).
Proof. destruct e; cbn; apply _. Defined.

(** ** The abstraction *)

Definition status_of (ob : observer callback_id) : status :=
  if decide (registrations ob = []) then Spent else Waiting.

Definition abstract (h : host callback_id) : subscriptions :=
  Subscriptions (status_of <$> observers h) (log h).

(** The events each exported function may give rise to. *)
Definition allowed_call (f : exported) (es : list event) : Prop :=
  match f with
  | ClickUniversityLoginButton => es = [] ∨ ∃ i, es = [Click i]
  | ClickUserSelectionTile =>
      es = [] ∨ ∃ i, es = [Click i; Subscribe] ∨ es = [Click i; Stillborn]
  | FocusTextbox => es = [] ∨ ∃ i, es = [Focus i]
  end.

(** The events each action of a run may give rise to: only a checkpoint
    completes subscriptions, and it does nothing else. *)
Definition allowed (a : action) (es : list event) : Prop :=
  match a with
  | Call name => from_option (λ f, allowed_call f es) (es = []) (window !! name)
  | PageEdit _ => es = []
  | Checkpoint => Forall is_fire es
  end.

(** What a checkpoint may do: complete subscriptions, and nothing else. *)
Definition completes (h h' : host callback_id) : Prop :=
  ∃ es, Forall is_fire es ∧ asteps (abstract h) es (abstract h').

(** ** The machine: a subscription completes at most once *)

Lemma asteps_app a es a' es' a'' :
  asteps a es a' → asteps a' es' a'' → asteps a (es ++ es') a''.
Proof. induction 1; cbn; [done|]. intros. econstructor; eauto. Qed.

Lemma asteps_one a e a' : astep a e a' → asteps a [e] a'.
Proof. intros. econstructor; [done|constructor]. Qed.

(** Spent is for ever. *)
Lemma astep_spent o a e a' :
  astep a e a' → subs a !! o = Some Spent → subs a' !! o = Some Spent.
Proof.
  destruct 1 as [| | | |o' i a Ho']; cbn; intros Ho;
    [done|done|by apply lookup_app_l_Some..|].
  destruct (decide (o' = o)) as [->|]; [congruence|].
  by rewrite list_lookup_insert_ne.
Qed.

Lemma astep_fired o i a a' :
  astep a (Fire o i) a' → subs a !! o = Some Waiting ∧ subs a' !! o = Some Spent.
Proof.
  inversion 1 as [| | | |?? ? Ho]; simplify_eq. split; [done|]. cbn.
  apply list_lookup_insert_eq. by apply lookup_lt_Some in Ho.
Qed.

Lemma asteps_fires_once o a es a' :
  asteps a es a' →
  count (fires o) es ≤ (if decide (subs a !! o = Some Spent) then 0 else 1).
Proof.
  induction 1 as [a|a e a' es a'' Hstep _ IH]; [cbn; case_decide; lia|].
  rewrite count_cons. destruct (decide (fires o e)) as [Hfire|Hno].
  - destruct e; try done. cbn in Hfire. subst.
    apply astep_fired in Hstep as [Hw Hs].
    rewrite decide_True in IH by done. rewrite decide_False by congruence. lia.
  - destruct (decide (subs a !! o = Some Spent)) as [Hs|Hs]; [|case_decide; lia].
    rewrite decide_True in IH by eauto using astep_spent. lia.
Qed.

(** ** The script refines the machine *)

Section refinement.
Context `{Page}.
Implicit Types (h : host callback_id) (ob : observer callback_id).

Lemma abstract_page_edit ed h : abstract (page_edit ed h) = abstract h.
Proof.
  unfold abstract. rewrite page_edit_log. f_equal. unfold page_edit.
  destruct (apply_edit _ _); [|done]. destruct (edit_record _ _); [|done].
  cbn. rewrite <-list_fmap_compose. apply Forall_fmap_ext, Forall_true.
  intros ob. cbn. unfold status_of. by rewrite enqueue_registrations.
Qed.

Lemma abstract_after_click i h :
  abstract (after_click i h)
  = Subscriptions (subs (abstract h)) (effects (abstract h) ++ [Clicked i]).
Proof.
  unfold after_click.
  by rewrite (page_edits_preserves abstract) by apply abstract_page_edit.
Qed.

Lemma abstract_after_focus i h :
  abstract (after_focus i h)
  = Subscriptions (subs (abstract h)) (effects (abstract h) ++ [Focused i]).
Proof.
  unfold after_focus.
  rewrite (page_edits_preserves abstract) by apply abstract_page_edit.
  unfold abstract. by rewrite take_focus_log, take_focus_observers.
Qed.

Lemma abstract_clear_records o h : abstract (clear_records o h) = abstract h.
Proof. unfold abstract. cbn. by rewrite fmap_alter_same. Qed.

Lemma abstract_after_disconnect o h :
  abstract (after_disconnect o h)
  = Subscriptions (<[o:=Spent]> (subs (abstract h))) (effects (abstract h)).
Proof. unfold abstract. cbn. by rewrite (fmap_alter_const _ _ Spent). Qed.

Lemma abstract_new_observer ob h :
  abstract (set_observers (observers h ++ [ob]) h)
  = Subscriptions (subs (abstract h) ++ [status_of ob]) (effects (abstract h)).
Proof. unfold abstract. cbn. by rewrite fmap_app. Qed.

(** The turn of an observer is a stutter or the completion of its
    subscription. *)
Lemma notify_observer_refines o h :
  inv h →
  abstract (notify_observer o h) = abstract h ∨
  ∃ i, astep (abstract h) (Fire o i) (abstract (notify_observer o h)).
Proof.
  intros [_ Hobs].
  destruct (notify_observer_cases o h)
    as [[-> _]|(ob & Hob & Hrs & [->|(e & _ & ->)])];
    [by left|left; apply abstract_clear_records|right].
  exists (el_id e).
  rewrite abstract_after_disconnect, abstract_after_focus, abstract_clear_records.
  apply astep_fire. cbn. rewrite list_lookup_fmap, Hob. cbn. unfold status_of.
  rewrite decide_False; [done|].
  by apply (ok_pending ob (Forall_lookup_1 _ _ _ _ Hobs Hob)).
Qed.

#[export] Instance completes_preorder : PreOrder completes.
Proof.
  split; [intros h; exists []; split; constructor|].
  intros h1 h2 h3 (es1 & Hes1 & Hsteps1) (es2 & Hes2 & Hsteps2).
  exists (es1 ++ es2). split; [by apply Forall_app|by eapply asteps_app].
Qed.

Lemma notify_observer_completes o h : inv h → completes h (notify_observer o h).
Proof.
  intros Hinv. destruct (notify_observer_refines o h Hinv) as [Heq|[i Hstep]].
  - exists []. rewrite Heq. split; constructor.
  - exists [Fire o i]. split; [by constructor|by apply asteps_one].
Qed.

Lemma waitForTextboxToAppear_refines h :
  let h' := final waitForTextboxToAppear h in
  astep (abstract h) Subscribe (abstract h') ∨
  astep (abstract h) Stillborn (abstract h').
Proof.
  unfold final. rewrite waitForTextboxToAppear_run.
  destruct (document_body _); cbn [snd]; unfold after_new_observer;
    rewrite abstract_new_observer; [left|right]; constructor.
Qed.

Lemma run_exported_refines f h :
  ∃ es, allowed_call f es ∧
        asteps (abstract h) es (abstract (final (run_exported f) h)).
Proof.
  unfold final. destruct f; cbn [run_exported allowed_call].
  - rewrite clickUniversityLoginButton_run.
    destruct (querySelector _ _) as [e|]; [|exists []; split; [by left|constructor]].
    exists [Click (el_id e)]. split; [right; eauto|]. cbn.
    rewrite abstract_after_click. apply asteps_one. constructor.
  - rewrite clickUserSelectionTile_run.
    destruct (querySelector _ _) as [e|]; [|exists []; split; [by left|constructor]].
    pose proof (astep_click (el_id e) (abstract h)) as Hclick.
    rewrite <-abstract_after_click in Hclick.
    destruct (waitForTextboxToAppear_refines (after_click (el_id e) h)) as [Hw|Hw];
      [exists [Click (el_id e); Subscribe]|exists [Click (el_id e); Stillborn]];
      (split; [right; eauto|]); eauto using asteps_cons, asteps_one.
  - rewrite focusTextbox_run.
    destruct (querySelector _ _) as [e|]; [|exists []; split; [by left|constructor]].
    exists [Focus (el_id e)]. split; [right; eauto|]. cbn.
    rewrite abstract_after_focus. apply asteps_one. constructor.
Qed.

(** One action is a sequence of steps of the machine, with the events
    allowed for the action. *)
Lemma exec_refines a h :
  inv h →
  ∃ es, allowed a es ∧ asteps (abstract h) es (abstract (exec a h)).
Proof.
  intros Hinv. destruct a as [name|ed|]; cbn [exec allowed].
  - unfold call. destruct (window !! name) as [f|]; [apply run_exported_refines|].
    exists []. split; [done|constructor].
  - exists []. rewrite abstract_page_edit. split; [done|constructor].
  - by apply (inv_turns_checkpoint completes notify_observer_completes).
Qed.

Lemma run_refines_trace acts h :
  inv h →
  ∃ ess, Forall2 allowed acts ess ∧
         asteps (abstract h) (concat ess) (abstract (run acts h)).
Proof.
  revert h. induction acts as [|a acts IH]; intros h Hinv.
  { exists []. split; constructor. }
  destruct (exec_refines a h Hinv) as (es & Hes & Hsteps).
  destruct (IH (exec a h) (inv_exec a h Hinv)) as (ess & Hess & Hrest).
  exists (es :: ess). split; [by constructor|].
  rewrite run_cons. cbn. by eapply asteps_app.
Qed.

(** C12. The script refines the machine of one-shot subscriptions.  Every
    run of driver calls, page edits and checkpoints from a state that
    satisfies the invariant is a run of the machine, action by action with
    the events allowed for the action: an exported function clicks, focuses
    or subscribes as its contract says, a page edit is invisible, and a
    checkpoint, in all its rounds, completes waiting subscriptions and does
    nothing else.  In
    such a run no subscription completes twice: each observer the script
    creates focuses the password input at most once. *)
Theorem run_refines acts h :
  inv h →
  ∃ ess, Forall2 allowed acts ess ∧
         asteps (abstract h) (concat ess) (abstract (run acts h)) ∧
         ∀ o, count (fires o) (concat ess) ≤ 1.
Proof.
  intros Hinv. destruct (run_refines_trace acts h Hinv) as (ess & Hess & Hsteps).
  exists ess. split_and!; [done..|]. intros o.
  pose proof (asteps_fires_once o _ _ _ Hsteps). case_decide; lia.
Qed.
End refinement.
