(* ===== verification/Resources.v ===== *)
(** * Resources: what a run allocates and which elements it touches

    Every state change of a run is accounted for by what it adds: element
    calls at the end of the log, and observers at the end of the list of
    observers.  [adds n evs h h'] says that [h'] has the log of [h] followed
    by [evs] and [n] observers more.  The accounts of a call
    ([call_adds]) and of an action ([exec_adds]) give two results: every
    element call of the script is made on an element of the document of
    that moment that matches the selector the script looks for ([live]),
    and the numbers of observers and of clicks are bounded by the numbers
    of calls of the driver.  Focus calls are accounted for by a potential,
    the [budget]:
    the focus calls made plus the observers still armed, which only a call
    of [focusTextbox] or of [clickUserSelectionTile] can raise.  The bounds
    hold on every page; that a callback acts on an element of the document
    of the start of the checkpoint is shown for pages whose focus listeners
    edit nothing. *)

From stdpp Require Import gmap.
From S2P Require Import Prelude Text Dom Selector Edit Host Script EventLoop.

Local Open Scope string_scope.
Local Open Scope list_scope.
Local Open Scope nat_scope.

(** ** Definitions *)

Definition is_focus (ev : effect) : Prop :=
  match ev with
  | Focused _ => True
  | Clicked _ => False
  end.

#[export] Instance is_focus_dec ev : Decision (is_focus ev).
Proof. destruct ev; apply _. Defined.

(** The number of focus calls in a log. *)
Definition focus_count (l : list effect) : nat := count is_focus l.

(** The focus calls made so far plus those the armed observers can still
    make. *)
Definition budget (h : host callback_id) : nat := focus_count (log h) + armed h.

Definition is_call (name : string) (a : action) : Prop :=
  match a with
  | Call n => n = name
  | PageEdit _ | Checkpoint => False
  end.

#[export] Instance is_call_dec name a : Decision (is_call name a).
Proof. destruct a; cbn; apply _. Defined.

(** The number of calls of a given name in a sequence of actions. *)
Definition calls (name : string) (acts : list action) : nat :=
  count (is_call name) acts.

Definition is_click (ev : effect) : Prop :=
  match ev with
  | Clicked _ => True
  | Focused _ => False
  end.

#[export] Instance is_click_dec ev : Decision (is_click ev).
Proof. destruct ev; apply _. Defined.

(** The number of clicks in a log. *)
Definition click_count (l : list effect) : nat := count is_click l.

(** The element a call is made on. *)
Definition target (ev : effect) : nat :=
  match ev with
  | Clicked i | Focused i => i
  end.

(** What the script looks for when it makes a call: a click is made on a
    login link or on a tile, a focus on a password input. *)
Definition aim (ev : effect) (e : element) : Prop :=
  match ev with
  | Clicked _ => matches loginSelector e ∨ matches tileSelector e
  | Focused _ => matches passwdSelector e
  end.

#[export] Instance aim_dec ev e : Decision (aim ev e).
Proof. destruct ev; apply _. Defined.

(** A call on an element of the document, of the kind the script looks
    for. *)
Definition live (doc : node) (ev : effect) : Prop :=
  Exists (λ e, el_id e = target ev ∧ aim ev e) (elements_of doc).

#[export] Instance live_dec doc ev : Decision (live doc ev).
Proof. unfold live. apply _. Defined.

(** [h'] is [h] with the calls [evs] made and [n] observers created. *)
Definition adds (n : nat) (evs : list effect) (h h' : host callback_id) : Prop :=
  log h' = log h ++ evs ∧ length (observers h') = length (observers h) + n.

(** [h'] is [h] with some focus calls made, and the same observers. *)
Definition focuses (h h' : host callback_id) : Prop :=
  ∃ evs, adds 0 evs h h' ∧ Forall is_focus evs.

(** [f] has the same value in both states. *)
Definition unchanged {A} (f : host callback_id → A) : relation (host callback_id) :=
  λ h h', f h' = f h.

(** What one call of a name is worth in an account. *)
Definition weight (name : string) (a : action) : nat :=
  if decide (is_call name a) then 1 else 0.

(** Closes the side conditions of an account: a list of calls that is
    empty, a count of a list that is given. *)
Ltac account := cbn; first [done|lia].

Section resources.
Context `{Page}.
Implicit Types (h : host callback_id) (a : action) (evs : list effect).

(** ** The account of the primitive state changes *)

Lemma adds_refl h : adds 0 [] h h.
Proof. split; [by rewrite app_nil_r|lia]. Qed.

Lemma adds_trans n1 n2 evs1 evs2 h h' h'' :
  adds n1 evs1 h h' → adds n2 evs2 h' h'' → adds (n1 + n2) (evs1 ++ evs2) h h''.
Proof. intros [Hl1 Ho1] [Hl2 Ho2]. split; [by rewrite Hl2, Hl1, app_assoc|lia]. Qed.

Lemma adds_after_click i h : adds 0 [Clicked i] h (after_click i h).
Proof. split; [apply after_click_log|rewrite after_click_length; lia]. Qed.

Lemma adds_after_focus i h : adds 0 [Focused i] h (after_focus i h).
Proof. split; [apply after_focus_log|rewrite after_focus_length; lia]. Qed.

Lemma adds_alter (f : observer callback_id → observer callback_id) o h :
  adds 0 [] h (set_observers (alter f o (observers h)) h).
Proof. split; cbn; [by rewrite app_nil_r|rewrite length_alter; lia]. Qed.

Lemma adds_clear_records o h : adds 0 [] h (clear_records o h).
Proof. apply adds_alter. Qed.

Lemma adds_after_disconnect o h : adds 0 [] h (after_disconnect o h).
Proof. apply adds_alter. Qed.

(** Arming the waiter creates one observer, with or without a body. *)
Lemma adds_waitForTextboxToAppear h : adds 1 [] h (final waitForTextboxToAppear h).
Proof.
  unfold final. rewrite waitForTextboxToAppear_run.
  destruct (document_body _); (split; cbn; [by rewrite app_nil_r|]);
    by rewrite length_app.
Qed.

(** The element a query finds is in the document and matches the
    selector. *)
Lemma querySelector_live s doc e ev :
  querySelector s doc = Some e → el_id e = target ev →
  (matches s e → aim ev e) → live doc ev.
Proof.
  intros [Hm He]%querySelector_Some Hev Haim. apply Exists_exists.
  exists e. auto.
Qed.

(** ** The account of a turn, a checkpoint, a call *)

(** A turn creates no observer; it makes no call, or one focus call on an
    element of the document. *)
Lemma notify_observer_adds o h :
  ∃ evs, adds 0 evs h (notify_observer o h) ∧
         Forall (λ ev, is_focus ev ∧ live (document h) ev) evs.
Proof.
  destruct (notify_observer_cases o h)
    as [[-> _]|(ob & _ & _ & [->|(e & He & ->)])].
  - exists []. split; [apply adds_refl|done].
  - exists []. split; [apply adds_clear_records|done].
  - exists [Focused (el_id e)]. split.
    + apply (adds_trans 0 0 [] [Focused (el_id e)] _ _ _ (adds_clear_records o h)).
      apply (adds_trans 0 0 [Focused (el_id e)] [] _ _ _ (adds_after_focus _ _)).
      apply adds_after_disconnect.
    + apply Forall_singleton. split; [done|].
      by apply (querySelector_live passwdSelector _ e).
Qed.

#[export] Instance unchanged_preorder {A} (f : host callback_id → A) :
  PreOrder (unchanged f).
Proof. split; [by intros h|]. unfold unchanged. intros h1 h2 h3. congruence. Qed.

#[export] Instance focuses_preorder : PreOrder focuses.
Proof.
  split; [intros h; exists []; split; [apply adds_refl|done]|].
  intros h1 h2 h3 (evs1 & Hadds1 & Hevs1) (evs2 & Hadds2 & Hevs2).
  exists (evs1 ++ evs2). split; [|by apply Forall_app].
  apply (adds_trans 0 0 _ _ _ _ _ Hadds1 Hadds2).
Qed.

(** A checkpoint, with all its rounds, creates no observer and makes focus
    calls only. *)
Lemma checkpoint_focuses h : focuses h (checkpoint h).
Proof.
  apply turns_checkpoint; [apply _|]. intros o h'.
  destruct (notify_observer_adds o h') as (evs & Hadds & Hevs).
  exists evs. split; [done|]. by apply Forall_and in Hevs as [? _].
Qed.

(** A list of focus calls has no click. *)
Lemma click_count_focus evs : Forall is_focus evs → click_count evs = 0.
Proof.
  unfold click_count. induction 1 as [|ev evs Hev _ IH]; [done|].
  rewrite count_cons, IH. by destruct ev.
Qed.

(** An exported function makes one call at most, on an element of the
    document, and only the tile clicker creates an observer. *)
Lemma run_exported_adds f h :
  ∃ n evs, adds n evs h (final (run_exported f) h) ∧
           Forall (live (document h)) evs ∧
           n ≤ (if decide (f = ClickUserSelectionTile) then 1 else 0) ∧
           click_count evs ≤ (if decide (f = FocusTextbox) then 0 else 1).
Proof.
  unfold final. destruct f; cbn [run_exported].
  - rewrite clickUniversityLoginButton_run.
    destruct (querySelector _ _) as [e|] eqn:He; cbn [snd from_option].
    + exists 0, [Clicked (el_id e)]. split_and!; [apply adds_after_click| |account..].
      apply Forall_singleton.
      apply (querySelector_live loginSelector _ e); [done..|by left].
    + exists 0, []. split_and!; [apply adds_refl|account..].
  - rewrite clickUserSelectionTile_run.
    destruct (querySelector _ _) as [e|] eqn:He.
    + exists 1, [Clicked (el_id e)]. split_and!; [| |account..].
      * apply (adds_trans 0 1 [Clicked (el_id e)] [] _ _ _ (adds_after_click _ _)).
        apply adds_waitForTextboxToAppear.
      * apply Forall_singleton.
        apply (querySelector_live tileSelector _ e); [done..|by right].
    + exists 0, []. split_and!; [apply adds_refl|account..].
  - rewrite focusTextbox_run.
    destruct (querySelector _ _) as [e|] eqn:He; cbn [snd from_option].
    + exists 0, [Focused (el_id e)].
      split_and!; [apply adds_after_focus| |account..].
      apply Forall_singleton. by apply (querySelector_live passwdSelector _ e).
    + exists 0, []. split_and!; [apply adds_refl|account..].
Qed.

(** A call by name makes one call on an element at most, on an element of
    the document, and only the tile clicker creates an observer. *)
Lemma call_adds name h :
  ∃ n evs, adds n evs h (final (call name) h) ∧
           Forall (live (document h)) evs ∧
           n ≤ weight "clickUserSelectionTile" (Call name) ∧
           click_count evs ≤ weight "clickUniversityLoginButton" (Call name)
                             + weight "clickUserSelectionTile" (Call name).
Proof.
  unfold call. destruct (window !! name) as [f|] eqn:Hf.
  - apply window_lookup in Hf as ->.
    destruct (run_exported_adds f h) as (n & evs & ? & ? & ? & ?).
    exists n, evs. split_and!; [done..| |]; by destruct f.
  - exists 0, []. split_and!; [apply adds_refl|done|lia|cbn; lia].
Qed.

Lemma adds_page_edit ed h : adds 0 [] h (page_edit ed h).
Proof.
  split; [by rewrite page_edit_log, app_nil_r|rewrite page_edit_length; lia].
Qed.

(** The account of one action. *)
Lemma exec_adds a h :
  ∃ n evs, adds n evs h (exec a h) ∧
           n ≤ weight "clickUserSelectionTile" a ∧
           click_count evs ≤ weight "clickUniversityLoginButton" a
                             + weight "clickUserSelectionTile" a.
Proof.
  destruct a as [name|ed|]; cbn [exec].
  - destruct (call_adds name h) as (n & evs & ? & _ & ? & ?). by exists n, evs.
  - exists 0, []. split_and!; [apply adds_page_edit|lia|cbn; lia].
  - destruct (checkpoint_focuses h) as (evs & Hadds & Hevs).
    exists 0, evs. split_and!; [done|lia|]. rewrite click_count_focus by done. lia.
Qed.

(** C28. What a run can use up.  Observers are never freed and only the tile
    clicker creates them, one per call at most: their number never goes
    down and grows by at most the number of calls of
    [clickUserSelectionTile].  Clicks are made by the two clickers only, one
    per call at most: page edits and checkpoints never click. *)
Theorem run_bounds acts h :
  length (observers h) ≤ length (observers (run acts h)) ∧
  length (observers (run acts h))
    ≤ length (observers h) + calls "clickUserSelectionTile" acts ∧
  click_count (log (run acts h))
    ≤ click_count (log h) + calls "clickUniversityLoginButton" acts
      + calls "clickUserSelectionTile" acts.
Proof.
  unfold calls. revert h. induction acts as [|a acts IH]; intros h; [cbn; lia|].
  rewrite run_cons, !count_cons. fold (weight "clickUserSelectionTile" a).
  fold (weight "clickUniversityLoginButton" a).
  destruct (exec_adds a h) as (n & evs & [Hlog Hlen] & Hn & Hc).
  specialize (IH (exec a h)). rewrite Hlog, Hlen in IH.
  unfold click_count in *. rewrite count_app in IH. lia.
Qed.

(** ** The focus budget *)

Lemma budget_page_edit ed h : budget (page_edit ed h) = budget h.
Proof.
  unfold budget. rewrite page_edit_log. f_equal. unfold page_edit.
  destruct (apply_edit _ _); [|done]. destruct (edit_record _ _); [|done].
  apply count_fmap_same. intros ob. unfold is_armed.
  by rewrite enqueue_registrations.
Qed.

Lemma budget_after_click i h : budget (after_click i h) = budget h.
Proof.
  unfold after_click. rewrite (page_edits_preserves budget) by apply budget_page_edit.
  unfold budget, focus_count, armed. cbn [log observers add_effect].
  rewrite count_snoc. case_decide as Hf; [destruct Hf|lia].
Qed.

Lemma budget_after_focus i h : budget (after_focus i h) = S (budget h).
Proof.
  unfold after_focus.
  rewrite (page_edits_preserves budget) by apply budget_page_edit.
  unfold budget, armed, focus_count.
  rewrite take_focus_log, take_focus_observers, count_snoc.
  case_decide as Hf; [lia|destruct Hf; exact I].
Qed.

Lemma budget_clear_records o h : budget (clear_records o h) = budget h.
Proof. unfold budget. f_equal. by apply count_alter_same. Qed.

(** Disconnecting an armed observer uses up its focus. *)
Lemma budget_after_disconnect o ob h :
  observers h !! o = Some ob → is_armed ob →
  S (budget (after_disconnect o h)) = budget h.
Proof.
  intros Hob Harmed. unfold budget, armed. cbn [log observers after_disconnect set_observers].
  pose proof (count_alter is_armed (λ ob, Observer (callback ob) [] []) o _ _ Hob) as Hc.
  rewrite decide_True, decide_False in Hc by (done || by intros ?). lia.
Qed.

(** A turn of an observer converts budget, it does not create any. *)
Lemma budget_notify_observer o h : inv h → budget (notify_observer o h) = budget h.
Proof.
  intros [_ Hobs].
  destruct (notify_observer_cases o h)
    as [[-> _]|(ob & Hob & Hrs & [->|(e & _ & ->)])];
    [done|apply budget_clear_records|].
  destruct (after_focus_lookup (el_id e) o _ _ (clear_records_lookup o ob h Hob))
    as (ob' & Hob' & _ & Hreg & _).
  pose proof (budget_after_disconnect o ob' _ Hob') as Hd.
  rewrite budget_after_focus, budget_clear_records in Hd.
  apply eq_add_S, Hd. unfold is_armed. rewrite Hreg.
  by apply (ok_pending ob (Forall_lookup_1 _ _ _ _ Hobs Hob)).
Qed.

Lemma budget_notify_from os h : inv h → budget (notify_from os h) = budget h.
Proof. apply (inv_turns_notify_from (unchanged budget) budget_notify_observer). Qed.

Lemma budget_checkpoint h : inv h → budget (checkpoint h) = budget h.
Proof. apply (inv_turns_checkpoint (unchanged budget) budget_notify_observer). Qed.

Lemma budget_waitForTextboxToAppear h :
  budget (final waitForTextboxToAppear h) ≤ S (budget h).
Proof.
  unfold final. rewrite waitForTextboxToAppear_run.
  destruct (document_body _);
    unfold budget, armed, after_new_observer, set_observers;
    cbn [snd log observers]; rewrite count_snoc; case_decide; lia.
Qed.

Lemma budget_run_exported f h :
  budget (final (run_exported f) h) ≤
    budget h + match f with ClickUniversityLoginButton => 0 | _ => 1 end.
Proof.
  unfold final. destruct f; cbn [run_exported].
  - rewrite clickUniversityLoginButton_run. cbn [snd].
    destruct (querySelector _ _); cbn [from_option];
      rewrite ?budget_after_click; lia.
  - rewrite clickUserSelectionTile_run.
    destruct (querySelector _ _) as [e|]; [|cbn [snd]; lia].
    pose proof (budget_waitForTextboxToAppear (after_click (el_id e) h)) as Hw.
    rewrite budget_after_click in Hw. unfold final in Hw. lia.
  - rewrite focusTextbox_run. cbn [snd].
    destruct (querySelector _ _); cbn [from_option];
      rewrite ?budget_after_focus; lia.
Qed.

Lemma budget_exec a h :
  inv h →
  budget (exec a h) ≤
    budget h + (if decide (is_call "focusTextbox" a) then 1 else 0)
             + (if decide (is_call "clickUserSelectionTile" a) then 1 else 0).
Proof.
  intros Hinv. destruct a as [name|ed|]; cbn [exec].
  - unfold call. destruct (window !! name) as [f|] eqn:Hf;
      [|unfold final, throw; cbn [snd]; lia].
    apply window_lookup in Hf as ->. pose proof (budget_run_exported f h).
    unfold is_call.
    destruct f; cbn [export_name] in *; repeat case_decide; simplify_eq; lia.
  - rewrite budget_page_edit. lia.
  - rewrite budget_checkpoint by done. lia.
Qed.

(** The budget of a run grows with the calls that can focus only. *)
Lemma budget_run acts h :
  inv h →
  budget (run acts h)
    ≤ budget h + calls "focusTextbox" acts + calls "clickUserSelectionTile" acts.
Proof.
  unfold calls. revert h.
  induction acts as [|a acts IH]; intros h Hinv; [cbn; lia|].
  rewrite run_cons, !count_cons.
  pose proof (budget_exec a h Hinv). pose proof (IH _ (inv_exec a h Hinv)). lia.
Qed.

(** C3. The focus budget.  In every run from a state that satisfies the
    invariant, the number of focus calls made plus the number of observers
    still armed grows by at most one for each call of [focusTextbox] and
    each call of [clickUserSelectionTile], and by nothing else: page edits,
    checkpoints and clicks on the login link never add a focus, and an
    observer focuses at most once, when it is disarmed. *)
Theorem focus_budget acts h :
  inv h →
  focus_count (log (run acts h)) + armed (run acts h) ≤
    focus_count (log h) + armed h
    + calls "focusTextbox" acts + calls "clickUserSelectionTile" acts.
Proof. apply budget_run. Qed.

(** ** Pages whose focus listeners edit nothing *)

Section quiet.
Context `{!QuietFocus}.

Lemma notify_from_adds os h :
  ∃ evs, adds 0 evs h (notify_from os h) ∧
         Forall (λ ev, is_focus ev ∧ live (document h) ev) evs.
Proof.
  revert h. induction os as [|o os IH]; intros h.
  { exists []. split; [apply adds_refl|done]. }
  destruct (notify_observer_adds o h) as (evs1 & Hadds1 & Hevs1).
  destruct (IH (notify_observer o h)) as (evs2 & Hadds2 & Hevs2).
  rewrite notify_observer_document in Hevs2.
  exists (evs1 ++ evs2). split; [|by apply Forall_app].
  rewrite notify_from_cons. apply (adds_trans 0 0 _ _ _ _ _ Hadds1 Hadds2).
Qed.

(** On a page whose focus listeners edit nothing, whatever an action adds
    to the log is a call on an element that is in the document when the
    action starts. *)
Lemma exec_live a h :
  ∃ evs, log (exec a h) = log h ++ evs ∧ Forall (live (document h)) evs.
Proof.
  destruct a as [name|ed|]; cbn [exec].
  - destruct (call_adds name h) as (n & evs & [Hlog _] & Hlive & _).
    by exists evs.
  - exists []. by rewrite page_edit_log, app_nil_r.
  - rewrite checkpoint_notify, notify_unfold.
    destruct (notify_from_adds (seq 0 (length (observers h))) h)
      as (evs & [Hlog _] & Hevs).
    exists evs. split; [done|]. by apply Forall_and in Hevs as [_ ?].
Qed.
End quiet.

(** C29. Every call the script makes on an element is made on an element of
    the document of that moment, and on nothing but what it looks for.  On
    every page, whatever a call of an exported function and whatever the
    turn of an observer adds to the log is a click on a login link or a
    tile, or a focus on a password input, that is in the document when the
    function or the callback starts: the script never acts on a handle
    that went stale.  On a page whose focus listeners edit nothing the
    same holds of every action as a whole, a checkpoint with all its turns
    included, for the document at the start of the action. *)
Theorem exec_targets :
  (∀ name h, ∃ evs, log (final (call name) h) = log h ++ evs ∧
                    Forall (live (document h)) evs) ∧
  (∀ o h, ∃ evs, log (notify_observer o h) = log h ++ evs ∧
                 Forall (live (document h)) evs) ∧
  (QuietFocus → ∀ a h, ∃ evs, log (exec a h) = log h ++ evs ∧
                              Forall (live (document h)) evs).
Proof.
  split_and!.
  - intros name h. destruct (call_adds name h) as (n & evs & [Hlog _] & ? & _).
    by exists evs.
  - intros o h. destruct (notify_observer_adds o h) as (evs & [Hlog _] & Hevs).
    exists evs. split; [done|]. by apply Forall_and in Hevs as [_ ?].
  - intros ? a h. apply exec_live.
Qed.
End resources.
