(* ===== verification/Rounds.v ===== *)
(** * Rounds: the checkpoint loop ends

    A focus call of a callback can make the page edit the document, and
    such an edit can leave records in the queues of observers that have
    had their turn already: a checkpoint may need more than one round of
    turns.  It still ends.  A round in which no callback focuses leaves
    every queue empty, and a round in which one does disarms an observer;
    so the number of armed observers bounds the number of rounds that
    leave a record behind ([drain_terminates]).  With one observer armed
    the checkpoint is the turn of that observer
    ([sole_waiter_checkpoint]); with two, and nobody else holding a
    record, a round is their two turns in the order of their creation
    ([notify_two]). *)

From stdpp Require Import gmap.
From S2P Require Import Prelude Text Dom Selector Edit Host Script EventLoop.
From S2P Require Import Resources.

Local Open Scope string_scope.
Local Open Scope list_scope.
Local Open Scope nat_scope.

Section rounds.
Context `{Page}.
Implicit Types (h : host callback_id) (ob : observer callback_id).

(** ** Definitions *)

(** The state after [n] rounds of turns. *)
Fixpoint rounds (n : nat) h : host callback_id :=
  match n with
  | 0 => h
  | S n => rounds n (notify h)
  end.

(** ** One round *)

(** A turn makes a focus call, or it leaves the log, the document and the
    other observers as they are. *)
Lemma notify_observer_progress o h :
  (log (notify_observer o h) = log h ∧
   document (notify_observer o h) = document h ∧
   ∀ o', o' ≠ o → observers (notify_observer o h) !! o' = observers h !! o') ∨
  focus_count (log h) < focus_count (log (notify_observer o h)).
Proof.
  destruct (notify_observer_cases o h)
    as [[-> _]|(ob & _ & _ & [->|(e & _ & ->)])]; [by left| |right].
  - left. split_and!; [done..|]. intros o' Hne. by apply list_lookup_alter_ne.
  - change (log (after_disconnect o ?x)) with (log x).
    rewrite after_focus_log. unfold focus_count. rewrite count_snoc.
    change (log (clear_records o h)) with (log h).
    rewrite decide_True by exact I. lia.
Qed.

Lemma focus_count_mono h h' :
  log_grows h h' → focus_count (log h) ≤ focus_count (log h').
Proof. intros [evs ->]. unfold focus_count. rewrite count_app. lia. Qed.

(** The turns of [os] leave no record behind, if none waits elsewhere, or
    one of them makes a focus call. *)
Lemma notify_from_progress os h :
  (∀ o ob, observers h !! o = Some ob → o ∉ os → records ob = []) →
  quiescent (notify_from os h) ∨
  focus_count (log h) < focus_count (log (notify_from os h)).
Proof.
  revert h. induction os as [|o1 os IH]; intros h Hh.
  { left. apply Forall_lookup. intros o ob Hob.
    apply (Hh o ob Hob), not_elem_of_nil. }
  rewrite notify_from_cons.
  pose proof (focus_count_mono _ _
    (preserved_notify_from (R:=log_grows) os (notify_observer o1 h))) as Hmono.
  destruct (notify_observer_progress o1 h) as [(Hlog & _ & Hne)|Hlt]; [|right; lia].
  rewrite <-Hlog. apply IH. intros o ob Hob Hnotin.
  destruct (decide (o = o1)) as [->|Hneq]; [by eapply notify_observer_lookup|].
  rewrite Hne in Hob by done. apply (Hh o ob Hob). set_solver.
Qed.

(** A round of turns delivers everything, or a callback focuses. *)
Lemma notify_progress h :
  quiescent (notify h) ∨ focus_count (log h) < focus_count (log (notify h)).
Proof.
  rewrite notify_unfold. apply notify_from_progress. intros o ob Hob Hnotin.
  destruct Hnotin. apply elem_of_seq. apply lookup_lt_Some in Hob. lia.
Qed.

(** Under the invariant a round that leaves a record behind has disarmed
    an observer. *)
Lemma round_progress h :
  inv h → quiescent (notify h) ∨ armed (notify h) < armed h.
Proof.
  intros Hinv. destruct (notify_progress h) as [?|Hlt]; [by left|right].
  pose proof (budget_notify_from (seq 0 (length (observers h))) h Hinv) as Hb.
  rewrite <-notify_unfold in Hb. unfold budget in Hb. lia.
Qed.

(** Without an armed observer no record waits for delivery. *)
Lemma unarmed_quiescent h : inv h → armed h = 0 → quiescent h.
Proof.
  intros [_ Hok] Ha%count_0. unfold quiescent. rewrite Forall_forall in *.
  intros ob Hin. apply ok_unregistered; [by apply Hok|].
  specialize (Ha ob Hin). unfold is_armed in Ha.
  destruct (registrations ob); [done|]. by destruct Ha.
Qed.

(** ** The loop *)

(** The result of the loop does not depend on the fuel. *)
Lemma drain_agree fuel1 fuel2 h h1 h2 :
  drain fuel1 h = Some h1 → drain fuel2 h = Some h2 → h1 = h2.
Proof.
  revert fuel2 h. induction fuel1 as [|fuel1 IH]; intros [|fuel2] h;
    cbn [drain]; case_decide; intros; simplify_eq; eauto.
Qed.

(** As many rounds as there are armed observers are enough. *)
Lemma drain_armed fuel h :
  inv h → armed h ≤ fuel →
  ∃ n, n ≤ armed h ∧ drain fuel h = Some (rounds n h) ∧ quiescent (rounds n h).
Proof.
  revert h. induction fuel as [|fuel IH]; intros h Hinv Hfuel.
  { exists 0. assert (quiescent h) by (apply unarmed_quiescent; [done|lia]).
    split; [lia|]. by rewrite drain_quiescent. }
  destruct (decide (quiescent h)) as [Hq|Hq].
  { exists 0. split; [lia|]. by rewrite drain_quiescent. }
  assert (armed h ≠ 0) by (intros ?; by apply Hq, unarmed_quiescent).
  rewrite drain_S by done. destruct (round_progress h Hinv) as [Hq'|Hlt].
  - exists 1. split; [lia|]. by rewrite drain_quiescent.
  - destruct (IH (notify h)) as (n & Hn & Hd & Hqn); [|lia|].
    { rewrite notify_unfold. by apply (preserved_notify_from (R:=keeps inv)). }
    exists (S n). split; [lia|done].
Qed.

(** The fuel of [checkpoint] is enough. *)
Lemma checkpoint_drain h :
  inv h → drain (length (observers h)) h = Some (checkpoint h).
Proof.
  intros Hinv. unfold checkpoint.
  destruct (drain_armed (length (observers h)) h Hinv) as (n & _ & -> & _);
    [apply count_le_length|done].
Qed.

(** A checkpoint is its first round followed by what every turn
    respects. *)
Lemma checkpoint_after_round (R : relation (host callback_id)) `{!PreOrder R} h :
  (∀ o h, R h (notify_observer o h)) → inv h → R (notify h) (checkpoint h).
Proof.
  intros Hturn Hinv. destruct (decide (quiescent h)) as [Hq|Hq].
  { by rewrite checkpoint_quiescent, notify_unfold, notify_from_quiescent. }
  pose proof (checkpoint_drain h Hinv) as Hd.
  destruct (observers h) as [|ob obs] eqn:Hobs.
  { destruct Hq. unfold quiescent. by rewrite Hobs. }
  cbn [length] in Hd. rewrite drain_S in Hd by done.
  by apply (turns_drain R Hturn) in Hd.
Qed.

(** C14. The checkpoint terminates.  From a state that satisfies the
    invariant, the loop that gives the observers rounds of turns until no
    record waits for delivery ends within as many rounds as there are
    armed observers, on every page, whatever its focus listeners edit: with
    that much fuel or more, [drain] returns the state after some number of
    rounds that is not more than the number of armed observers; this is
    the state of [checkpoint], and no record waits for delivery in it. *)
Theorem drain_terminates fuel h :
  inv h → armed h ≤ fuel →
  ∃ n, n ≤ armed h ∧ drain fuel h = Some (rounds n h) ∧
       checkpoint h = rounds n h ∧ quiescent (rounds n h).
Proof.
  intros Hinv Hfuel.
  destruct (drain_armed fuel h Hinv Hfuel) as (n & Hn & Hd & Hq).
  exists n. split_and!; [done..| |done].
  exact (drain_agree _ _ _ _ _ (checkpoint_drain h Hinv) Hd).
Qed.

(** ** The box is focused *)

(** While the password box shows, the turns of observers of which one has
    a record in its queue make a focus call on the box. *)
Lemma notify_from_focuses os o ob i h :
  inv h → visible_textbox (document h) = Some i →
  o ∈ os → observers h !! o = Some ob → records ob ≠ [] →
  Focused i ∈ log (notify_from os h) ∧
  focus_count (log h) < focus_count (log (notify_from os h)).
Proof.
  intros Hinv Hvis Ho Hob Hrs. induction os as [|o1 os IH]; [by inv Ho|].
  rewrite notify_from_cons.
  pose proof (preserved_notify_from (R:=log_grows) os (notify_observer o1 h))
    as Hgrows.
  destruct (notify_observer_cases o1 h)
    as [[-> Hq]|(ob1 & Hob1 & Hrs1 & _)].
  { apply IH. apply elem_of_cons in Ho as [->|?]; [|done].
    rewrite Hob in Hq. by destruct Hrs. }
  pose proof (focus_count_mono _ _ Hgrows) as Hmono. unfold log_grows in Hgrows.
  rewrite (notify_observer_fire o1 ob1), Hvis in Hgrows, Hmono |- * by done.
  cbn [from_option] in *.
  change (log (after_disconnect o1 ?x)) with (log x) in *.
  rewrite after_focus_log in *. change (log (clear_records o1 h)) with (log h) in *.
  split.
  - apply (elem_of_prefix (log h ++ [Focused i])); [|done].
    apply elem_of_app. right. by left.
  - unfold focus_count in *. rewrite count_snoc, decide_True in Hmono by exact I.
    lia.
Qed.

(** ** A single waiter *)

(** The turn of an observer with an empty queue does nothing. *)
Lemma notify_observer_idle o h :
  (∀ ob, observers h !! o = Some ob → records ob = []) → notify_observer o h = h.
Proof.
  intros Hidle.
  destruct (notify_observer_cases o h) as [[-> _]|(ob & Hob & Hrs & _)]; [done|].
  destruct Hrs. by apply Hidle.
Qed.

(** The turns of observers with empty queues do nothing. *)
Lemma notify_from_idle os h :
  (∀ o ob, o ∈ os → observers h !! o = Some ob → records ob = []) →
  notify_from os h = h.
Proof.
  induction os as [|o os IH]; intros Hidle; [done|].
  rewrite notify_from_cons, notify_observer_idle by (intros; eapply Hidle; set_solver).
  apply IH. intros o' ob' ?. apply Hidle. set_solver.
Qed.

(** The turn of an observer with a record in its queue while the password
    box shows: one focus call on the box, and one observer fewer is
    armed. *)
Lemma notify_observer_disarms o ob i h :
  inv h → observers h !! o = Some ob → records ob ≠ [] →
  visible_textbox (document h) = Some i →
  notify_observer o h = after_disconnect o (after_focus i (clear_records o h)) ∧
  log (notify_observer o h) = log h ++ [Focused i] ∧
  S (armed (notify_observer o h)) = armed h.
Proof.
  intros Hinv Hob Hrs Hvis.
  pose proof (notify_observer_fire o ob h Hinv Hob Hrs) as Hfire.
  rewrite Hvis in Hfire. cbn [from_option] in Hfire.
  assert (log (notify_observer o h) = log h ++ [Focused i]) as Hlog.
  { rewrite Hfire. exact (after_focus_log i (clear_records o h)). }
  split_and!; [done..|].
  pose proof (budget_notify_observer o h Hinv) as Hb.
  unfold budget, focus_count in Hb.
  rewrite Hlog, count_snoc, decide_True in Hb by exact I. lia.
Qed.

(** When one observer only has records in its queue and its turn leaves
    none behind, the round is its turn. *)
Lemma notify_from_single os o h :
  o ∈ os → NoDup os →
  (∀ o' ob', o' ≠ o → observers h !! o' = Some ob' → records ob' = []) →
  quiescent (notify_observer o h) →
  notify_from os h = notify_observer o h.
Proof.
  intros Ho Hnd Hidle Hq. induction os as [|o1 os IH]; [by inv Ho|].
  apply NoDup_cons in Hnd as [Hnotin Hnd]. rewrite notify_from_cons.
  destruct (decide (o1 = o)) as [->|Hne].
  - by apply notify_from_quiescent.
  - rewrite notify_observer_idle by eauto. apply IH; [set_solver|done].
Qed.

(** With one observer armed, no other has a record in its queue. *)
Lemma sole_waiter_idle o ob o' ob' h :
  inv h → armed h ≤ 1 → observers h !! o = Some ob → is_armed ob →
  o' ≠ o → observers h !! o' = Some ob' → records ob' = [].
Proof.
  intros [_ Hobs] Harm Hob Ha Hne Hob'.
  apply ok_unregistered; [by apply (Forall_lookup_1 _ _ _ _ Hobs Hob')|].
  destruct (decide (registrations ob' = [])) as [|Ha']; [done|].
  destruct Hne. by apply (count_unique is_armed (observers h) o' o ob' ob).
Qed.

(** With one observer armed, a record in its queue and the password box
    showing, the checkpoint is the turn of that observer: the focus on the
    box, with what the focus listeners of the page do, and the
    disconnection.  Nobody is armed afterwards. *)
Lemma sole_waiter_checkpoint o ob i h :
  inv h → armed h = 1 → observers h !! o = Some ob → records ob ≠ [] →
  visible_textbox (document h) = Some i →
  checkpoint h = after_disconnect o (after_focus i (clear_records o h)) ∧
  checkpoint h = notify_observer o h ∧ armed (checkpoint h) = 0.
Proof.
  intros Hinv Harm Hob Hrs Hvis.
  destruct (notify_observer_disarms o ob i h) as (Hfire & _ & Harm'); [done..|].
  assert (quiescent (notify_observer o h)) as Hq.
  { apply unarmed_quiescent; [|lia].
    by apply (preserved_notify_observer (R:=keeps inv)). }
  assert (notify h = notify_observer o h) as Hn.
  { rewrite notify_unfold. apply notify_from_single; [|apply NoDup_seq| |done].
    - apply elem_of_seq. apply lookup_lt_Some in Hob. lia.
    - intros o' ob' Hne Hob'. apply (sole_waiter_idle o ob o' ob' h); try done; [lia|].
      by apply ok_pending; [apply (Forall_lookup_1 _ _ _ _ (proj2 Hinv) Hob)|]. }
  rewrite checkpoint_one_round, Hn by (by rewrite Hn).
  split_and!; [done..|lia].
Qed.

(** ** Two waiters *)

(** With two observers armed, no third has a record in its queue. *)
Lemma two_waiters_idle o1 o2 ob1 ob2 o' ob' h :
  inv h → armed h ≤ 2 → o1 ≠ o2 →
  observers h !! o1 = Some ob1 → is_armed ob1 →
  observers h !! o2 = Some ob2 → is_armed ob2 →
  o' ≠ o1 → o' ≠ o2 → observers h !! o' = Some ob' → records ob' = [].
Proof.
  intros Hinv Harm Hne Hob1 Ha1 Hob2 Ha2 Hne1 Hne2 Hob'.
  pose proof (budget_after_disconnect o1 ob1 h Hob1 Ha1) as Hb.
  apply (sole_waiter_idle o2 ob2 o' ob' (after_disconnect o1 h)); [| |..|done|].
  - by apply (pres_after_disconnect (R:=keeps inv)).
  - unfold budget in Hb. cbn [log after_disconnect set_observers] in Hb. lia.
  - by rewrite after_disconnect_lookup_ne.
  - done.
  - by rewrite after_disconnect_lookup_ne.
Qed.

(** The turns of the first of two waiters and then of the second are the
    round, when nobody else has a record in its queue before or after the
    first turn and the second turn leaves none behind. *)
Lemma notify_two o1 o2 h :
  o1 < o2 < length (observers h) →
  (∀ o ob, o ≠ o1 → o ≠ o2 → observers h !! o = Some ob → records ob = []) →
  (∀ o ob, o ≠ o2 →
     observers (notify_observer o1 h) !! o = Some ob → records ob = []) →
  quiescent (notify_observer o2 (notify_observer o1 h)) →
  notify h = notify_observer o2 (notify_observer o1 h).
Proof.
  intros [Hlt Hlen] Hidle Hidle1 Hq.
  rewrite notify_unfold, (seq_middle _ o1), notify_from_app by lia.
  rewrite (notify_from_idle (seq 0 o1)), notify_from_cons.
  - apply notify_from_single; [|apply NoDup_seq|done..].
    apply elem_of_seq. lia.
  - intros o ob [_ ?]%elem_of_seq. apply Hidle; lia.
Qed.
End rounds.
