(* ===== verification/Checkpoint.v ===== *)
(** * Checkpoint: what one notification checkpoint does

    On every page, a checkpoint that finds a record in a queue while the
    password box shows focuses the box and disarms an observer
    ([checkpoint_focuses_box]).  When the focus listeners of the page hide
    the box as it is focused, the checkpoint of two waiters is the turn of
    the first, which fires, and the turn of the second, which finds nothing
    and stays armed ([focus_listener_starves_waiter]); the theorem is
    about every state that satisfies the invariant and every page with
    such listeners.  On a page whose focus listeners edit nothing a
    checkpoint is one round of turns, and while the password box shows it
    is decided by the queues alone: exactly the observers with a record in
    their queue fire, each with one focus call on the box, in the order of
    their creation, and each is disarmed by it
    ([checkpoint_fires_pending]).  There an observer's turn does not touch
    the queue of another, so the account of the checkpoint is the sum of
    the accounts of the turns. *)

From stdpp Require Import gmap.
From S2P Require Import Prelude Text Dom Selector Edit Host Script EventLoop.
From S2P Require Import Resources Rounds.

Local Open Scope string_scope.
Local Open Scope list_scope.
Local Open Scope nat_scope.

(** ** Definitions *)

(** An observer with a record waiting for delivery. *)
Definition pending (ob : observer callback_id) : Prop := records ob ≠ [].

(** The same of the observer under a handle, if there is one. *)
Definition pending_at (h : host callback_id) (o : nat) : Prop :=
  from_option records [] (observers h !! o) ≠ [].

Section checkpoint.
Context `{Page}.
Implicit Types (h : host callback_id) (ob : observer callback_id).

(** ** On every page *)

(** C16. The box is focused, on every page.  When a checkpoint starts while
    the password box shows and a record waits in the queue of some
    observer, a callback of the script focuses the box during the
    checkpoint, and fewer observers are armed when it ends: whatever the
    focus listeners of the page edit, a waiter has done its job. *)
Theorem checkpoint_focuses_box h i :
  inv h → visible_textbox (document h) = Some i →
  Exists pending (observers h) →
  Focused i ∈ log (checkpoint h) ∧ armed (checkpoint h) < armed h.
Proof.
  intros Hinv Hvis (ob & Hin & Hrs)%Exists_exists.
  apply list_elem_of_lookup in Hin as [o Hob].
  destruct (notify_from_focuses (seq 0 (length (observers h))) o ob i h)
    as [Hfoc Hlt]; [done|done| |done|done|].
  { apply elem_of_seq. apply lookup_lt_Some in Hob. lia. }
  rewrite <-notify_unfold in Hfoc, Hlt.
  pose proof (checkpoint_after_round log_grows h
    (preserved_notify_observer (R:=log_grows)) Hinv) as Hd.
  split; [by apply (elem_of_prefix _ _ _ Hfoc Hd)|].
  pose proof (focus_count_mono _ _ Hd). pose proof (budget_checkpoint h Hinv) as Hb.
  unfold budget in Hb. lia.
Qed.

(** ** Two waiters and a focus listener that hides the box *)

(** A record in the queue of an observer that passes the invariant: the
    observer is armed. *)
Lemma pending_armed o ob h :
  inv h → observers h !! o = Some ob → pending ob → is_armed ob.
Proof. intros [_ Hok] Hob. apply ok_pending, (Forall_lookup_1 _ _ _ _ Hok Hob). Qed.

(** The turn of a waiter that finds the box hidden: its queue is emptied
    and nothing else happens.  The waiter stays armed. *)
Lemma notify_observer_misses o ob h :
  inv h → observers h !! o = Some ob → pending ob →
  visible_textbox (document h) = None →
  notify_observer o h = clear_records o h.
Proof. intros Hinv Hob Hp Hvis. by rewrite (notify_observer_fire o ob), Hvis. Qed.

(** The turn of a waiter that finds the box showing leaves the document
    that the focus listeners of the page make of the one it found, and the
    waiter disconnected. *)
Lemma notify_observer_shown o ob i h :
  inv h → observers h !! o = Some ob → pending ob →
  visible_textbox (document h) = Some i →
  document (notify_observer o h) = document (after_focus i h) ∧
  ∃ ob', observers (notify_observer o h) !! o = Some ob' ∧
         registrations ob' = [] ∧ records ob' = [].
Proof.
  intros Hinv Hob Hp Hvis.
  destruct (notify_observer_disarms o ob i h) as (-> & _); [done..|]. split.
  - change (document (after_disconnect o ?x)) with (document x).
    by apply after_focus_document_ext.
  - rewrite after_disconnect_focus_lookup, (clear_records_lookup o ob) by done.
    by eexists.
Qed.

(** Emptying the only queue that holds a record leaves none. *)
Lemma clear_records_quiescent o h :
  (∀ o' ob, o' ≠ o → observers h !! o' = Some ob → records ob = []) →
  quiescent (clear_records o h).
Proof.
  intros Hidle. apply Forall_lookup_2. intros o' ob.
  cbn [clear_records observers set_observers].
  destruct (decide (o' = o)) as [->|Hne].
  - rewrite list_lookup_alter_eq. by intros [? [_ ->]]%fmap_Some.
  - rewrite list_lookup_alter_ne by done. by apply Hidle.
Qed.

(** The checkpoint of two waiters with a record each, when the focus
    listeners of the page hide the box: the turn of the first and then the
    second finding nothing. *)
Lemma two_waiters_round o1 o2 ob1 ob2 i h :
  inv h → armed h = 2 → o1 < o2 →
  observers h !! o1 = Some ob1 → pending ob1 →
  observers h !! o2 = Some ob2 → pending ob2 →
  visible_textbox (document h) = Some i →
  visible_textbox (document (after_focus i h)) = None →
  checkpoint h = clear_records o2 (notify_observer o1 h).
Proof.
  intros Hinv Harm Hlt Hob1 Hp1 Hob2 Hp2 Hvis Hhid.
  destruct (notify_observer_disarms o1 ob1 i h) as (_ & _ & Harm1); [done..|].
  destruct (notify_observer_shown o1 ob1 i h) as (Hdoc & _); [done..|].
  destruct (notify_observer_others o1 o2 ob2 h)
    as (ob2' & Hob2' & _ & _ & Hpre); [lia|done|].
  set (h1 := notify_observer o1 h) in *.
  assert (inv h1) as Hinv1
    by by apply (preserved_notify_observer (R:=keeps inv)).
  assert (pending ob2') as Hp2'.
  { intros Hnil. rewrite Hnil in Hpre. by apply prefix_nil_inv in Hpre. }
  assert (∀ o ob, o ≠ o2 → observers h1 !! o = Some ob → records ob = [])
    as Hidle1.
  { intros o ob ??. apply (sole_waiter_idle o2 ob2' o ob h1);
      eauto using pending_armed with lia. }
  assert (notify_observer o2 h1 = clear_records o2 h1) as Hturn.
  { apply (notify_observer_misses o2 ob2'); [done..|by rewrite Hdoc]. }
  assert (notify h = clear_records o2 h1) as Hn.
  { rewrite <-Hturn. apply notify_two; [| |done|].
    - apply lookup_lt_Some in Hob2. lia.
    - intros o ob ???. apply (two_waiters_idle o1 o2 ob1 ob2 o ob h);
        eauto using pending_armed with lia.
    - fold h1. rewrite Hturn. by apply clear_records_quiescent. }
  rewrite checkpoint_one_round; [done|]. rewrite Hn.
  by apply clear_records_quiescent.
Qed.

(** C30. A focus listener of the page starves the second waiter.  Two
    waiters are armed, each with a record in its queue, while the password
    box shows, and the focus listeners of the page hide the box when it is
    focused.  The checkpoint then focuses the box once: the waiter created
    first fires and is disconnected, the second finds the box hidden, loses
    its records and stays armed, waiting for a later change of the page
    that may never come. *)
Theorem focus_listener_starves_waiter o1 o2 ob1 ob2 i h :
  inv h → armed h = 2 → o1 < o2 →
  observers h !! o1 = Some ob1 → pending ob1 →
  observers h !! o2 = Some ob2 → pending ob2 →
  visible_textbox (document h) = Some i →
  visible_textbox (document (after_focus i h)) = None →
  log (checkpoint h) = log h ++ [Focused i] ∧
  (∃ ob, observers (checkpoint h) !! o1 = Some ob ∧ registrations ob = []) ∧
  observers (checkpoint h) !! o2 = Some (set_records [] ob2) ∧
  armed (checkpoint h) = 1 ∧
  visible_textbox (document (checkpoint h)) = None.
Proof.
  intros Hinv Harm Hlt Hob1 Hp1 Hob2 Hp2 Hvis Hhid.
  rewrite (two_waiters_round o1 o2 ob1 ob2 i h) by done.
  destruct (notify_observer_disarms o1 ob1 i h) as (_ & Hlog & Harm1); [done..|].
  destruct (notify_observer_shown o1 ob1 i h)
    as (Hdoc & ob1' & Hob1' & Hreg & _); [done..|].
  pose proof (budget_clear_records o2 (notify_observer o1 h)) as Hb.
  unfold budget in Hb. split_and!.
  - done.
  - exists ob1'. split; [|done]. cbn [clear_records observers set_observers].
    rewrite list_lookup_alter_ne; [done|lia].
  - destruct (notify_observer_others o1 o2 ob2 h)
      as (ob2' & Hob2' & Hc & Hr & _); [lia|done|].
    rewrite (clear_records_lookup o2 ob2') by done.
    unfold set_records. by rewrite Hc, Hr.
  - cbn [clear_records log set_observers] in Hb. lia.
  - change (document (clear_records ?o ?x)) with (document x). by rewrite Hdoc.
Qed.

(** ** Pages whose focus listeners edit nothing *)

Section quiet.
Context `{!QuietFocus}.

(** ** One turn *)

(** While the password box shows, the turn of an observer makes one focus
    call on the box if a record waits for it, and no call otherwise. *)
Lemma notify_observer_log o h i :
  inv h → visible_textbox (document h) = Some i →
  log (notify_observer o h)
  = log h ++ (if decide (pending_at h o) then [Focused i] else []).
Proof.
  intros Hinv Hvis. unfold pending_at.
  destruct (observers h !! o) as [ob|] eqn:Hob; cbn [from_option].
  - case_decide as Hp.
    + rewrite (notify_observer_fire o ob), Hvis by done.
      exact (after_focus_log i (clear_records o h)).
    + unfold notify_observer. rewrite Hob, decide_True, app_nil_r; [done|].
      by destruct (records ob); [|destruct Hp].
  - unfold notify_observer. rewrite Hob, decide_False, app_nil_r; [done|].
    by intros Hp.
Qed.

(** A turn leaves the queues of the other observers as they are. *)
Lemma notify_observer_pending o o' h :
  o ≠ o' → pending_at (notify_observer o h) o' ↔ pending_at h o'.
Proof. intros Hne. unfold pending_at. by rewrite notify_observer_lookup_ne. Qed.

(** ** A round of turns *)

Lemma notify_from_log os h i :
  inv h → visible_textbox (document h) = Some i → NoDup os →
  log (notify_from os h)
  = log h ++ replicate (count (pending_at h) os) (Focused i).
Proof.
  revert h. induction os as [|o os IH]; intros h Hinv Hvis Hnd.
  { by rewrite app_nil_r. }
  apply NoDup_cons in Hnd as [Ho Hos].
  rewrite notify_from_cons, count_cons, IH, (notify_observer_log o h i);
    [|done|done|by apply (preserved_notify_observer (R:=keeps inv))
     |by rewrite notify_observer_document|done].
  rewrite (count_ext (pending_at (notify_observer o h)) (pending_at h) os).
  - case_decide; cbn; by rewrite <-app_assoc.
  - intros o' Ho'. apply notify_observer_pending. by intros ->.
Qed.

(** C27. What a checkpoint does while the password box shows, on a page
    whose focus listeners edit nothing: exactly the
    observers with a record in their queue fire.  The log grows by one
    focus call on the box for each of them and by nothing else, and each of
    them is disarmed: as many observers fewer are armed afterwards.  With
    two waiters armed, the box is focused twice. *)
Theorem checkpoint_fires_pending h i :
  inv h → visible_textbox (document h) = Some i →
  log (checkpoint h)
  = log h ++ replicate (count pending (observers h)) (Focused i) ∧
  armed (checkpoint h) + count pending (observers h) = armed h.
Proof.
  intros Hinv Hvis. rewrite checkpoint_notify.
  assert (log (notify h)
          = log h ++ replicate (count pending (observers h)) (Focused i)) as Hlog.
  { rewrite notify_unfold, (notify_from_log _ h i) by (done || apply NoDup_seq).
    rewrite (count_indices pending (pending_at h)); [done|].
    intros o ob Hob. unfold pending_at. by rewrite Hob. }
  split; [done|].
  pose proof (budget_notify_from (seq 0 (length (observers h))) h Hinv) as Hb.
  rewrite <-notify_unfold in Hb. unfold budget, focus_count in Hb.
  rewrite Hlog, count_app, count_replicate in Hb by done. lia.
Qed.
End quiet.
End checkpoint.
