(* ===== verification/Flow.v ===== *)
(** * Flow: from the click on a tile to the focus in the password box

    The functions of the script, the page and the checkpoints of the
    browser put together: the driver calls [clickUserSelectionTile], the
    page reacts to the click, later shows the password box, and at the next
    checkpoint the waiter that the call armed focuses the box.  [landed]
    says where the focus is afterwards, and [focus_moved] where it can be
    at all: where it was, or on the password input the script finds.  Two
    sides of the same flow: while the box stays hidden the waiter stays
    armed and silent ([hidden_run]), and a box that the page
    shows during the click itself is seen too late ([armed_too_late]).  A
    box that shows but cannot take focus uses up the waiter
    ([unfocusable_box_spends_waiter]).
    The flow is shown twice: on every page, from a state in which no other
    waiter is armed ([tile_flow_fresh]), and with any number of waiters
    armed, on pages whose focus listeners edit nothing ([tile_flow]).  The
    rest holds on every page. *)

From stdpp Require Import gmap.
From S2P Require Import Prelude Text Dom Selector Edit Host Script EventLoop.
From S2P Require Import Resources Rounds.

Local Open Scope string_scope.
Local Open Scope list_scope.
Local Open Scope nat_scope.

Section flow.
Context `{Page}.
Implicit Types (h : host callback_id) (ob : observer callback_id).

(** ** Definitions *)

(** The focus is on element [i], if [i] is an element of the document that
    can take focus. *)
Definition landed (i : nat) h : Prop :=
  ∀ e, find_element i (document h) = Some e → focusable e →
       activeElement h = Some i.

(** From [h] to [h'] the focus has stayed where it was, or it has moved to
    the element the query for the password input finds in the document of
    [h]: the first element of that document, in document order, that
    matches the selector. *)
Definition focus_moved (h h' : host callback_id) : Prop :=
  activeElement h' = activeElement h ∨
  ∃ e, querySelector passwdSelector (document h) = Some e ∧
       activeElement h' = Some (el_id e).

(** From [h] to [h'] the log has grown, and the focus has stayed where it
    was or is on the target of a focus call that was logged on the way. *)
Definition focus_logged (h h' : host callback_id) : Prop :=
  ∃ evs, log h' = log h ++ evs ∧
         (activeElement h' = activeElement h ∨
          ∃ i, Focused i ∈ evs ∧ activeElement h' = Some i).

(** The focus has moved as in [focus_moved], in a document that has stayed
    as it is. *)
Definition focus_moved_in_place (h h' : host callback_id) : Prop :=
  document h' = document h ∧ focus_moved h h'.

(** The observer a call of the tile clicker arms when the body is [b]. *)
Definition waiter (b : nat) : observer callback_id :=
  Observer TextboxWatcher [(b, observeOptions)] [].

(** The password box does not show at any checkpoint of the run [acts]
    from [h]. *)
Fixpoint hidden_at_checkpoints (acts : list action) h : Prop :=
  match acts with
  | [] => True
  | a :: acts =>
      match a with
      | Checkpoint => visible_textbox (document h) = None
      | Call _ | PageEdit _ => True
      end ∧ hidden_at_checkpoints acts (exec a h)
  end.

#[export] Instance hidden_at_checkpoints_dec acts h :
  Decision (hidden_at_checkpoints acts h).
Proof.
  revert h. induction acts as [|a acts IH]; intros h; cbn; [apply _|].
  destruct a; apply _.
Defined.

(** Element [i] is in the document and cannot take focus. *)
Definition inert (i : nat) h : Prop :=
  from_option (λ e, focusable e = false) False (find_element i (document h)).

#[export] Instance inert_dec i h : Decision (inert i h).
Proof. unfold inert. destruct (find_element _ _); cbn; apply _. Defined.

(** ** Where the focus goes *)

Lemma landed_after_focus i h : landed i (after_focus i h).
Proof.
  intros e He Hf. rewrite after_focus_activeElement.
  unfold after_focus, focus_edits in He.
  destruct (find_element i (document h)) as [e0|] eqn:He0.
  - destruct (focusable e0) eqn:Hf0; [done|]. cbn [andb page_edits foldl] in He.
    rewrite take_focus_document, He0 in He. simplify_eq. by rewrite Hf0 in Hf.
  - cbn [page_edits foldl] in He. by rewrite take_focus_document, He0 in He.
Qed.

(** [landed] looks at the document and the active element only. *)
Lemma landed_ext i h h' :
  document h' = document h → activeElement h' = activeElement h →
  landed i h → landed i h'.
Proof. unfold landed. intros -> ->. done. Qed.

(** A turn that fires puts the focus on the password box. *)
Lemma landed_fire o i h : landed i (after_disconnect o (after_focus i h)).
Proof. by apply (landed_ext i (after_focus i h)), landed_after_focus. Qed.

(** While the password box shows, no turn takes the focus away from it. *)
Lemma notify_observer_landed o i h :
  visible_textbox (document h) = Some i →
  landed i h → landed i (notify_observer o h).
Proof.
  intros (e' & He' & _ & ->)%visible_textbox_Some Hl.
  destruct (notify_observer_cases o h)
    as [[-> _]|(ob & _ & _ & [->|(e & He & ->)])]; [done..|].
  replace e with e' by congruence. apply landed_fire.
Qed.

(** The turn of an observer with a record in its queue puts the focus on
    the password box. *)
Lemma notify_observer_lands o ob i h :
  inv h → observers h !! o = Some ob → records ob ≠ [] →
  visible_textbox (document h) = Some i →
  landed i (notify_observer o h).
Proof.
  intros Hinv Hob Hrs Hvis. rewrite (notify_observer_fire o ob), Hvis by done.
  apply landed_fire.
Qed.

(** ** Where the focus can go *)

(** A focus call on the element the query finds moves the focus there, or
    nowhere when the element cannot take focus. *)
Lemma focus_moved_query e h h' :
  querySelector passwdSelector (document h) = Some e →
  activeElement h' = activeElement (after_focus (el_id e) h) →
  focus_moved h h'.
Proof.
  intros He Ha. unfold focus_moved. rewrite Ha, after_focus_activeElement.
  repeat case_match; eauto.
Qed.

Lemma focus_moved_notify_observer o h : focus_moved h (notify_observer o h).
Proof.
  destruct (notify_observer_cases o h)
    as [[-> _]|(ob & _ & _ & [->|(e & He & ->)])]; [by left..|].
  apply (focus_moved_query e); [done|].
  trans (activeElement (after_focus (el_id e) (clear_records o h))); [done|].
  by rewrite !after_focus_activeElement.
Qed.

Lemma focus_moved_run_exported f h : focus_moved h (final (run_exported f) h).
Proof.
  unfold final. destruct f; cbn [run_exported].
  - rewrite clickUniversityLoginButton_run.
    destruct (querySelector _ _); [left; apply after_click_activeElement|by left].
  - rewrite clickUserSelectionTile_run.
    destruct (querySelector _ _); [|by left]. rewrite waitForTextboxToAppear_run.
    destruct (document_body _); left; apply after_click_activeElement.
  - rewrite focusTextbox_run.
    destruct (querySelector _ _) as [e|] eqn:He; [|by left].
    by apply (focus_moved_query e).
Qed.

Lemma focus_moved_call name h : focus_moved h (final (call name) h).
Proof.
  unfold call. destruct (window !! name); [apply focus_moved_run_exported|by left].
Qed.

(** What moves the focus is logged. *)
#[export] Instance focus_logged_preorder : PreOrder focus_logged.
Proof.
  split.
  { intros h. exists []. split; [by rewrite app_nil_r|by left]. }
  intros h1 h2 h3 (evs1 & Hl1 & H1) (evs2 & Hl2 & H2). exists (evs1 ++ evs2).
  split; [by rewrite Hl2, Hl1, app_assoc|].
  destruct H2 as [H2|(i & Hi & H2)]; [|right; exists i; set_solver].
  destruct H1 as [H1|(i & Hi & H1)]; [left; congruence|right].
  exists i. split; [set_solver|congruence].
Qed.

Lemma focus_logged_same h h' :
  log h' = log h → activeElement h' = activeElement h → focus_logged h h'.
Proof. intros Hl Ha. exists []. split; [by rewrite app_nil_r|by left]. Qed.

#[export] Instance focus_logged_preserved : Preserved focus_logged.
Proof.
  split; [apply _|..].
  - intros ed h.
    apply focus_logged_same; [apply page_edit_log|apply page_edit_activeElement].
  - intros ev h. exists [ev]. split; [done|by left].
  - intros i h. exists [Focused i]. split; [apply take_focus_log|].
    rewrite take_focus_activeElement.
    repeat case_match; [right|by left..]. exists i. set_solver.
  - intros o h. by apply focus_logged_same.
  - intros o h. by apply focus_logged_same.
  - intros ob h _ _. by apply focus_logged_same.
Qed.

#[export] Instance focus_moved_in_place_preorder : PreOrder focus_moved_in_place.
Proof.
  split; [by split; [|left]|].
  intros h1 h2 h3 [Hd1 H1] [Hd2 H2]. split; [congruence|].
  unfold focus_moved in *. rewrite Hd1 in H2.
  destruct H2 as [H2|H2]; [|by right]. destruct H1 as [H1|H1]; [left|right].
  - congruence.
  - destruct H1 as (e & ? & ?). exists e. split; [done|congruence].
Qed.

Section quiet_focus.
Context `{!QuietFocus}.

(** On a page whose focus listeners edit nothing, a checkpoint moves the
    focus to the password input of the document it starts in, or
    nowhere. *)
Lemma focus_moved_checkpoint h : focus_moved h (checkpoint h).
Proof.
  apply (turns_checkpoint focus_moved_in_place). intros o h'.
  split; [apply notify_observer_document|apply focus_moved_notify_observer].
Qed.

Lemma focus_moved_exec a h : focus_moved h (exec a h).
Proof.
  destruct a as [name|ed|]; cbn [exec].
  - apply focus_moved_call.
  - left. apply page_edit_activeElement.
  - apply focus_moved_checkpoint.
Qed.
End quiet_focus.

(** C26. The script moves the focus to the password input only, and never
    takes it away.  On every page, after a call of an exported function
    and after the turn of an observer the active element is the one of
    before, or the element that the query for [input[name=passwd]] finds
    in the document in which the function or the callback starts, the
    first match in document order: no function and no callback of the
    script puts the focus on anything else.  On a page whose focus
    listeners edit nothing the same holds of every action as a whole, a
    checkpoint with all its turns included.  And in every run, when the
    focus has moved, the active element is the target of a focus call that
    the run has added to the log. *)
Theorem focus_only_on_password :
  (∀ name h, focus_moved h (final (call name) h)) ∧
  (∀ o h, focus_moved h (notify_observer o h)) ∧
  (QuietFocus → ∀ a h, focus_moved h (exec a h)) ∧
  (∀ acts h, focus_logged h (run acts h)).
Proof.
  split_and!.
  - apply focus_moved_call.
  - apply focus_moved_notify_observer.
  - intros ? a h. apply focus_moved_exec.
  - intros acts h. apply (preserved_run (R:=focus_logged)).
Qed.

(** ** While the password box is hidden *)

Lemma armed_page_edit ed h : armed (page_edit ed h) = armed h.
Proof.
  pose proof (budget_page_edit ed h) as Hb. unfold budget in Hb.
  rewrite page_edit_log in Hb. lia.
Qed.

Lemma armed_after_click i h : armed (after_click i h) = armed h.
Proof.
  unfold after_click. by rewrite (page_edits_preserves armed) by apply armed_page_edit.
Qed.

Lemma armed_after_focus i h : armed (after_focus i h) = armed h.
Proof.
  unfold after_focus.
  rewrite (page_edits_preserves armed) by apply armed_page_edit.
  unfold armed. by rewrite take_focus_observers.
Qed.

Lemma armed_clear_records o h : armed (clear_records o h) = armed h.
Proof. by apply count_alter_same. Qed.

Lemma armed_waitForTextboxToAppear h : armed h ≤ armed (final waitForTextboxToAppear h).
Proof.
  unfold final. rewrite waitForTextboxToAppear_run.
  destruct (document_body _); unfold armed, after_new_observer, set_observers;
    cbn [snd observers]; rewrite count_snoc; lia.
Qed.

(** While the password box is hidden, the turn of an observer makes no
    call, disarms nobody and leaves the document alone. *)
Lemma notify_observer_hidden o h :
  inv h → visible_textbox (document h) = None →
  document (notify_observer o h) = document h ∧
  log (notify_observer o h) = log h ∧ armed (notify_observer o h) = armed h.
Proof.
  intros [Hwf _] Hno. unfold notify_observer.
  destruct (observers h !! o) as [ob|]; [|done]. case_decide; [done|].
  unfold final, run_callback, script_callbacks. destruct (callback ob).
  rewrite textboxCallback_hidden by done.
  split_and!; [done..|apply armed_clear_records].
Qed.

Lemma notify_hidden h :
  inv h → visible_textbox (document h) = None →
  log (notify h) = log h ∧ armed (notify h) = armed h.
Proof.
  intros Hinv Hno. rewrite notify_unfold.
  apply (inv_turns_notify_from
    (keeps (λ h', document h' = document h ∧ log h' = log h ∧ armed h' = armed h)));
    [|done..].
  intros o h' Hinv' (Hdoc & <- & <-). rewrite <-Hdoc in Hno |- *.
  by apply notify_observer_hidden.
Qed.

(** While the password box is hidden a checkpoint is one round of turns:
    no callback focuses, so no listener of the page runs. *)
Lemma checkpoint_hidden h :
  inv h → visible_textbox (document h) = None → checkpoint h = notify h.
Proof.
  intros Hinv Hno. apply checkpoint_one_round.
  destruct (notify_progress h) as [?|Hlt]; [done|].
  destruct (notify_hidden h Hinv Hno) as [Hlog _]. rewrite Hlog in Hlt. lia.
Qed.

(** An exported function focuses only if it is [focusTextbox], and disarms
    nobody. *)
Lemma run_exported_patient f h :
  focus_count (log (final (run_exported f) h))
    ≤ focus_count (log h) + (if decide (f = FocusTextbox) then 1 else 0) ∧
  armed h ≤ armed (final (run_exported f) h).
Proof.
  unfold final, focus_count. destruct f; cbn [run_exported].
  - rewrite clickUniversityLoginButton_run.
    destruct (querySelector _ _); cbn [snd from_option]; [|account].
    rewrite after_click_log, armed_after_click, count_snoc. account.
  - rewrite clickUserSelectionTile_run.
    destruct (querySelector _ _) as [e|]; [|account].
    pose proof (armed_waitForTextboxToAppear (after_click (el_id e) h)) as Ha.
    destruct (adds_waitForTextboxToAppear (after_click (el_id e) h)) as [Hl _].
    rewrite app_nil_r, after_click_log in Hl.
    unfold final in *. rewrite armed_after_click in Ha. rewrite Hl, count_snoc.
    account.
  - rewrite focusTextbox_run.
    destruct (querySelector _ _); cbn [snd from_option]; [|account].
    rewrite after_focus_log, armed_after_focus, count_snoc. account.
Qed.

Lemma exec_patient a h :
  inv h → hidden_at_checkpoints [a] h →
  focus_count (log (exec a h)) ≤ focus_count (log h) + weight "focusTextbox" a ∧
  armed h ≤ armed (exec a h).
Proof.
  intros Hinv [Hhid _]. destruct a as [name|ed|]; cbn [exec].
  - unfold call. destruct (window !! name) as [f|] eqn:Hf; [|account].
    apply window_lookup in Hf as ->. pose proof (run_exported_patient f h).
    by destruct f.
  - rewrite page_edit_log, armed_page_edit. account.
  - rewrite checkpoint_hidden by done.
    destruct (notify_hidden h Hinv Hhid) as [-> ->]. account.
Qed.

(** C11. The waiter is patient.  In a run in which the password box does not
    show at any checkpoint, no observer fires: the only focus calls are
    those the driver asks for by calling [focusTextbox], one for each call
    at most, and every observer that is armed stays armed, however many
    batches of records are delivered to it. *)
Theorem hidden_run acts h :
  inv h → hidden_at_checkpoints acts h →
  focus_count (log (run acts h))
    ≤ focus_count (log h) + calls "focusTextbox" acts ∧
  armed h ≤ armed (run acts h).
Proof.
  unfold calls. revert h. induction acts as [|a acts IH]; intros h Hinv Hhid.
  { cbn. lia. }
  destruct Hhid as [Ha Hhid]. rewrite run_cons, count_cons.
  fold (weight "focusTextbox" a).
  destruct (exec_patient a h Hinv) as [Hf Harm]; [done|].
  destruct (IH (exec a h)) as [Hf' Harm']; [by apply inv_exec|done|]. lia.
Qed.

(** ** The whole flow *)

(** A call of an exported function by its name runs the function. *)
Lemma exec_call f h : exec (Call (export_name f)) h = final (run_exported f) h.
Proof. cbn [exec]. unfold call. by rewrite (proj2 (window_lookup _ f) eq_refl). Qed.

(** The state after a call of the tile clicker that finds a tile and a
    body: the click is made, and a waiter is armed under a new handle. *)
Lemma clickUserSelectionTile_armed h e rest b :
  querySelectorAll tileSelector (document h) = e :: rest →
  document_body (document (after_click (el_id e) h)) = Some b →
  let h1 := exec (Call "clickUserSelectionTile") h in
  document h1 = document (after_click (el_id e) h) ∧
  log h1 = log h ++ [Clicked (el_id e)] ∧
  observers h1 !! length (observers h) = Some (waiter b) ∧
  observers h1 = observers (after_click (el_id e) h) ++ [waiter b].
Proof.
  intros Hall Hb. cbn zeta. rewrite (exec_call ClickUserSelectionTile).
  unfold final. cbn [run_exported].
  rewrite clickUserSelectionTile_run, querySelector_head, Hall. cbn.
  rewrite waitForTextboxToAppear_run, Hb. cbn.
  split_and!; [done|apply after_click_log| |done].
  by rewrite <-(after_click_length (el_id e) h), list_lookup_middle.
Qed.

(** ** Armed too late *)

(** C25. The waiter is armed after the click has returned, and reacts to
    later changes only.  When the page shows the password box while it
    handles the click on the tile, the call leaves the waiter armed with an
    empty queue, and the next checkpoint delivers nothing: the box shows,
    and the only call made is the click.  The box is not focused before
    some later child-list change. *)
Theorem armed_too_late h e rest b i :
  inv h → armed h = 0 →
  querySelectorAll tileSelector (document h) = e :: rest →
  let h1 := after_click (el_id e) h in
  document_body (document h1) = Some b →
  visible_textbox (document h1) = Some i →
  let h' := run [Call "clickUserSelectionTile"; Checkpoint] h in
  visible_textbox (document h') = Some i ∧
  log h' = log h ++ [Clicked (el_id e)] ∧
  observers h' = observers h1 ++ [waiter b].
Proof.
  intros Hinv Harm Hall h1 Hb Hvis.
  destruct (clickUserSelectionTile_armed h e rest b Hall Hb)
    as (Hdoc & Hlog & _ & Hobs).
  set (h2 := exec (Call "clickUserSelectionTile") h) in *.
  assert (quiescent h2) as Hq.
  { unfold quiescent. rewrite Hobs. apply Forall_app.
    split; [|by apply Forall_singleton]. apply unarmed_quiescent.
    - by apply (preserved_after_click (R:=keeps inv)).
    - by rewrite armed_after_click. }
  cbn zeta. change (run _ h) with (checkpoint h2).
  rewrite checkpoint_quiescent by done. by rewrite Hdoc.
Qed.
(** ** The flow on every page *)

(** The call of the tile clicker arms one observer more. *)
Lemma armed_clickUserSelectionTile h e rest b :
  querySelectorAll tileSelector (document h) = e :: rest →
  document_body (document (after_click (el_id e) h)) = Some b →
  armed (exec (Call "clickUserSelectionTile") h) = S (armed h).
Proof.
  intros Hall Hb.
  destruct (clickUserSelectionTile_armed h e rest b Hall Hb) as (_ & _ & _ & Hobs).
  unfold armed. rewrite Hobs, count_snoc, decide_True by done.
  fold (armed (after_click (el_id e) h)). rewrite armed_after_click.
  unfold armed. lia.
Qed.

(** The state after a call of the tile clicker while nobody is armed: the
    invariant holds and the waiter of the call is the one armed observer. *)
Lemma clickUserSelectionTile_fresh h e rest b :
  inv h → armed h = 0 →
  querySelectorAll tileSelector (document h) = e :: rest →
  document_body (document (after_click (el_id e) h)) = Some b →
  let h1 := exec (Call "clickUserSelectionTile") h in
  inv h1 ∧ armed h1 = 1 ∧
  document h1 = document (after_click (el_id e) h) ∧
  log h1 = log h ++ [Clicked (el_id e)] ∧
  observers h1 !! length (observers h) = Some (waiter b).
Proof.
  intros Hinv Harm Hall Hb.
  destruct (clickUserSelectionTile_armed h e rest b Hall Hb) as (? & ? & ? & _).
  pose proof (armed_clickUserSelectionTile h e rest b Hall Hb).
  split_and!; [by apply inv_exec|lia|done..].
Qed.

(** With one observer armed, a change of a child list below the node it is
    registered on that leaves the password box showing, and the next
    checkpoint: the observer focuses the box, and nothing else happens. *)
Lemma sole_waiter_fires o ob b ed r i h :
  inv h → armed h = 1 → observers h !! o = Some ob → b ∈ (registrations ob).*1 →
  edit_record ed (document h) = Some r → mr_type r = ChildList →
  b ∈ inclusive_ancestors (mr_target r) (document h) →
  apply_edit ed (document h) ≫= visible_textbox = Some i →
  let h' := run [PageEdit ed; Checkpoint] h in
  log h' = log h ++ [Focused i] ∧ fired_at o i h' ∧ landed i h' ∧ armed h' = 0.
Proof.
  intros Hinv Harm Hob Hb Hr Hty Hanc Hvis.
  destruct (page_edit_fires o ob b ed r i h) as (ob' & Hob' & Hrs & Hvis');
    [done..|].
  pose proof (inv_page_edit ed h Hinv) as Hinv'.
  destruct (sole_waiter_checkpoint o ob' i _ Hinv') as (Hfire & Hturn & Harm');
    [by rewrite armed_page_edit|done..|].
  cbn zeta. change (run _ h) with (checkpoint (page_edit ed h)).
  split_and!; [| | |done].
  - rewrite Hfire. change (log (after_disconnect ?o ?x)) with (log x).
    rewrite after_focus_log. change (log (clear_records ?o ?x)) with (log x).
    by rewrite page_edit_log.
  - rewrite Hturn. by apply (notify_observer_fires _ ob').
  - rewrite Hturn. by apply (notify_observer_lands _ ob').
Qed.

(** C15. The flow the script is written for, on every page.  No observer is
    armed when the driver calls the tile clicker on a page with a tile; the
    page reacts to the click, and the document it leaves has a body; later
    the page changes a child list somewhere below the body, and after that
    change the password box is in the document with a positive height.
    Then the next checkpoint does exactly this: the waiter the call armed
    focuses the box, the focus listeners of the page run, whatever they
    edit, and the waiter is disconnected.  The log has grown by the click
    on the first tile and one focus on the box, the box is the active
    element if it can take focus, and no observer is armed. *)
Theorem tile_flow_fresh h e rest b ed r i :
  inv h → armed h = 0 →
  querySelectorAll tileSelector (document h) = e :: rest →
  let doc1 := document (after_click (el_id e) h) in
  document_body doc1 = Some b →
  edit_record ed doc1 = Some r → mr_type r = ChildList →
  b ∈ inclusive_ancestors (mr_target r) doc1 →
  apply_edit ed doc1 ≫= visible_textbox = Some i →
  let h' := run [Call "clickUserSelectionTile"; PageEdit ed; Checkpoint] h in
  log h' = log h ++ [Clicked (el_id e); Focused i] ∧
  fired_at (length (observers h)) i h' ∧ landed i h' ∧ armed h' = 0.
Proof.
  intros Hinv Harm Hall doc1 Hb Hr Hty Hanc Hvis.
  destruct (clickUserSelectionTile_fresh h e rest b Hinv Harm Hall Hb)
    as (Hinv1 & Harm1 & Hdoc & Hlog & Hob).
  fold doc1 in Hdoc. rewrite <-Hdoc in Hr, Hanc, Hvis.
  destruct (sole_waiter_fires _ _ b ed r i _ Hinv1 Harm1 Hob)
    as (Hlog' & ? & ? & ?); [by left|done..|].
  cbn zeta. rewrite run_cons. split_and!; [|done..].
  by rewrite Hlog', Hlog, <-app_assoc.
Qed.

(** ** A box that cannot take focus *)

(** Without an armed observer and without a call that can focus, a run
    makes no focus call and arms nobody. *)
Lemma idle_run acts h :
  inv h → armed h = 0 →
  calls "focusTextbox" acts = 0 → calls "clickUserSelectionTile" acts = 0 →
  focus_count (log (run acts h)) = focus_count (log h) ∧ armed (run acts h) = 0.
Proof.
  intros Hinv Harm Hf Ht. pose proof (budget_run acts h Hinv) as Hb.
  pose proof (focus_count_mono _ _ (preserved_run (R:=log_grows) acts h)).
  unfold budget in Hb. lia.
Qed.

(** C19. The one shot of the waiter is spent on a box that cannot take
    focus.  The test of the callback is the rendered height alone: when the
    password box shows with a positive height but cannot take focus (it is
    disabled, say, or hidden by a style that keeps its height), the waiter
    calls focus on it all the same and disconnects.  The checkpoint logs
    that one focus call and changes nothing else: the document and the
    active element stay as they were and no observer is armed any more; and
    in whatever the page and the browser do afterwards, without a new call
    of the driver, the script never focuses again, also when the box can
    take focus later. *)
Theorem unfocusable_box_spends_waiter o ob i acts h :
  inv h → armed h = 1 → observers h !! o = Some ob → records ob ≠ [] →
  visible_textbox (document h) = Some i → inert i h →
  calls "focusTextbox" acts = 0 → calls "clickUserSelectionTile" acts = 0 →
  let h' := checkpoint h in
  log h' = log h ++ [Focused i] ∧ document h' = document h ∧
  activeElement h' = activeElement h ∧ armed h' = 0 ∧
  focus_count (log (run acts h')) = focus_count (log h').
Proof.
  intros Hinv Harm Hob Hrs Hvis Hin Hcf Hct. unfold inert in Hin.
  destruct (find_element i (document h)) as [e|] eqn:He; [|done].
  destruct (sole_waiter_checkpoint o ob i h) as (Hfire & _ & Harm'); [done..|].
  pose proof (inv_exec Checkpoint h Hinv) as Hinv'. cbn [exec] in Hinv'.
  destruct (idle_run acts (checkpoint h)) as [Hidle _]; [done..|].
  cbn zeta. split_and!; [..|done|done].
  all: by rewrite Hfire, (after_focus_unfocusable i e).
Qed.

(** ** Pages whose focus listeners edit nothing *)

Section quiet.
Context `{!QuietFocus}.

(** After a checkpoint in which some observer had a record queued while the
    password box shows, the focus is on the box. *)
Lemma notify_lands o ob i h :
  inv h → observers h !! o = Some ob → records ob ≠ [] →
  visible_textbox (document h) = Some i →
  landed i (notify h).
Proof.
  intros Hinv Hob Hrs Hvis. apply (notify_establishes _ o ob); [| |done..].
  - intros o' h' _ Hdoc. apply notify_observer_landed. by rewrite Hdoc.
  - intros h' Hinv' Hdoc Hob'. apply (notify_observer_lands o ob); [done..|].
    by rewrite Hdoc.
Qed.

(** An armed observer fires at the first checkpoint after a change of a
    child list below its node that leaves the password box showing,
    however many observers fire at that checkpoint. *)
Lemma waiter_fires_quiet o ob b ed r i h :
  inv h → observers h !! o = Some ob → b ∈ (registrations ob).*1 →
  edit_record ed (document h) = Some r → mr_type r = ChildList →
  b ∈ inclusive_ancestors (mr_target r) (document h) →
  apply_edit ed (document h) ≫= visible_textbox = Some i →
  let h' := run [PageEdit ed; Checkpoint] h in
  fired_at o i h' ∧ landed i h'.
Proof.
  intros Hinv Hob Hb Hr Hty Hanc Hvis.
  destruct (page_edit_fires o ob b ed r i h) as (ob' & Hob' & Hrs & Hvis');
    [done..|].
  pose proof (inv_page_edit ed h Hinv) as Hinv'. cbn zeta.
  change (run _ h) with (checkpoint (page_edit ed h)). rewrite checkpoint_notify.
  split; [by eapply notify_fires|by eapply notify_lands].
Qed.

(** C10. The flow the script is written for, on a page whose focus listeners
    edit nothing.  The driver calls the tile
    clicker on a page with a tile; the page reacts to the click, and the
    document it leaves has a body; later the page changes a child list
    somewhere below the body, and after that change the password box is in
    the document with a positive height.  Then at the next checkpoint the
    first tile has been clicked, the box has been focused by the waiter the
    call armed, that waiter is disconnected, and the box is the active
    element if it can take focus. *)
Theorem tile_flow h e rest b ed r i :
  inv h →
  querySelectorAll tileSelector (document h) = e :: rest →
  let doc1 := document (after_click (el_id e) h) in
  document_body doc1 = Some b →
  edit_record ed doc1 = Some r → mr_type r = ChildList →
  b ∈ inclusive_ancestors (mr_target r) doc1 →
  apply_edit ed doc1 ≫= visible_textbox = Some i →
  let h' := run [Call "clickUserSelectionTile"; PageEdit ed; Checkpoint] h in
  Clicked (el_id e) ∈ log h' ∧
  fired_at (length (observers h)) i h' ∧ landed i h'.
Proof.
  intros Hinv Hall doc1 Hb Hr Hty Hanc Hvis.
  destruct (clickUserSelectionTile_armed h e rest b Hall Hb)
    as (Hdoc & Hlog & Hob & _).
  pose proof (inv_exec (Call "clickUserSelectionTile") h Hinv) as Hinv1.
  set (h1 := exec (Call "clickUserSelectionTile") h) in *.
  change (run _ h) with (run [PageEdit ed; Checkpoint] h1). fold doc1 in Hdoc.
  rewrite <-Hdoc in Hr, Hanc, Hvis.
  destruct (page_edit_fires _ _ b ed r i h1 Hinv1 Hob) as (ob' & Hob' & Hrs & Hvis');
    [by left|done..|].
  pose proof (inv_page_edit ed h1 Hinv1) as Hinv2.
  change (run _ h1) with (checkpoint (page_edit ed h1)).
  rewrite checkpoint_notify. split_and!.
  - apply (elem_of_prefix (log h1)); [rewrite Hlog, elem_of_app; right; by left|].
    etrans; [apply (pres_page_edit (R:=log_grows) ed)|].
    rewrite notify_unfold. apply (preserved_notify_from (R:=log_grows)).
  - by eapply notify_fires.
  - by eapply notify_lands.
Qed.
End quiet.

(** C2. The waiter does its job.  Take an observer of the script that is
    registered on a node [b], and an edit of the page that changes the
    child list of a node below [b] (or of [b] itself) and after which the
    password box is in the document with a positive height.  Then after
    the edit and the next checkpoint that password box has been focused,
    the observer is disconnected, and the box is the active element,
    provided it can take focus at all.  This holds on every page when the
    observer is the only one armed, and on a page whose focus listeners
    edit nothing however many observers are armed and fire at that
    checkpoint. *)
Theorem waiter_fires o ob b ed r i h :
  inv h → observers h !! o = Some ob → b ∈ (registrations ob).*1 →
  edit_record ed (document h) = Some r → mr_type r = ChildList →
  b ∈ inclusive_ancestors (mr_target r) (document h) →
  apply_edit ed (document h) ≫= visible_textbox = Some i →
  armed h = 1 ∨ QuietFocus →
  let h' := run [PageEdit ed; Checkpoint] h in
  fired_at o i h' ∧ landed i h'.
Proof.
  intros Hinv Hob Hb Hr Hty Hanc Hvis [Harm|Hq].
  - by destruct (sole_waiter_fires o ob b ed r i h) as (_ & ? & ? & _).
  - by apply (waiter_fires_quiet o ob b ed r).
Qed.
End flow.
