(* ===== verification/Session.v ===== *)
(** * Session: the script across the pages of a login

    The script lives in a page, and a login goes through more than one:
    the click on the login link makes the browser navigate, the new
    document gets a fresh global object and no observers, and the script is
    evaluated again there before the driver can call it.  A [tab] is the
    page of the moment with the properties the script has set on its
    global object; [load_script] is the evaluation of the script (the
    three assignments of lines 52-54), [navigate] the start of a new page,
    and a [tab_event] is a navigation, an evaluation of the script, or an
    action within the page.

    Between two navigations a session is a run of the event loop
    ([srun_within]), so what is proved of runs holds in each page.  Across
    navigations: the invariant and the focus budget hold for the session
    ([session_budget]); a navigation discards the waiters of the page that
    is left ([navigation_discards_waiters]); and the login as a whole, the
    click on the login link, the navigation, the click on the tile and the
    focus on the password box, is one theorem ([login_flow]). *)

From stdpp Require Import gmap.
From S2P Require Import Prelude Text Dom Selector Edit Host Script EventLoop.
From S2P Require Import Resources Rounds Flow.

Local Open Scope string_scope.
Local Open Scope list_scope.
Local Open Scope nat_scope.

(** ** Definitions *)

(** A browser tab: the properties of [window] the script has set, and the
    page. *)
Record tab : Type := Tab {
  globals : gmap string exported;
  page : host callback_id
}.

Definition set_page (h : host callback_id) (t : tab) : tab := Tab (globals t) h.

(** One assignment [window.f = f]: it replaces what the name was bound
    to. *)
Definition export (f : exported) (t : tab) : tab :=
  Tab (<[export_name f := f]> (globals t)) (page t).

(** The evaluation of the script.  The function declarations change
    nothing that can be observed; the three assignments of lines 52-54 run
    in this order. *)
Definition load_script (t : tab) : tab :=
  export FocusTextbox
    (export ClickUserSelectionTile (export ClickUniversityLoginButton t)).

(** The browser loads the document [doc]: the page that is left goes away
    with its observers and its global object, and in the new page nothing
    has the focus and no observer exists.  The log is the record of the
    calls made in the tab and is kept. *)
Definition navigate (doc : node) (t : tab) : tab :=
  Tab ∅ (Host doc (log (page t)) None []).

(** A call of [window[name]()] by the driver in the page of the moment;
    before the script is loaded the name is not defined, the call throws
    and the page stays as it is. *)
Definition tab_call `{Page} (name : string) (t : tab) : tab :=
  match globals t !! name with
  | Some f => set_page (final (run_exported f) (page t)) t
  | None => t
  end.

(** What happens in a tab. *)
Inductive tab_event : Type :=
| Navigate (doc : node)
| Inject
| Within (a : action).

Definition sexec `{Page} (ev : tab_event) (t : tab) : tab :=
  match ev with
  | Navigate doc => navigate doc t
  | Inject => load_script t
  | Within (Call name) => tab_call name t
  | Within a => set_page (exec a (page t)) t
  end.

Definition srun `{Page} (evs : list tab_event) (t : tab) : tab :=
  foldl (λ t ev, sexec ev t) t evs.

(** The invariant of a session: the invariant of the page, and every name
    the script has defined is bound to its own function. *)
Definition sinv (t : tab) : Prop := inv (page t) ∧ globals t ⊆ window.

(** The documents the browser loads are well formed. *)
Definition wf_event (ev : tab_event) : Prop :=
  match ev with
  | Navigate doc => wf_node doc
  | Inject | Within _ => True
  end.

#[export] Instance wf_event_dec ev : Decision (wf_event ev).
Proof. destruct ev; apply _. Defined.

Definition is_scall (name : string) (ev : tab_event) : Prop :=
  match ev with
  | Within a => is_call name a
  | Navigate _ | Inject => False
  end.

#[export] Instance is_scall_dec name ev : Decision (is_scall name ev).
Proof. destruct ev; apply _. Defined.

(** The number of calls of a given name in a session. *)
Definition scalls (name : string) (evs : list tab_event) : nat :=
  count (is_scall name) evs.

Section session.
Context `{Page}.
Implicit Types (t : tab) (h : host callback_id) (ev : tab_event) (a : action).

(** ** Loading the script *)

Lemma load_script_unfold t : load_script t = Tab (window ∪ globals t) (page t).
Proof.
  unfold load_script, export, window. cbn. f_equal.
  by rewrite <-!insert_union_l, (left_id_L ∅ (∪)).
Qed.

(** In a page that has just been loaded, the script defines exactly its
    three exports. *)
Lemma load_script_navigate doc t :
  load_script (navigate doc t) = Tab window (Host doc (log (page t)) None []).
Proof.
  rewrite load_script_unfold. cbn [navigate globals page].
  by rewrite (right_id_L ∅ (∪)).
Qed.

(** A name the script has defined is bound to its own function. *)
Lemma globals_lookup name f t :
  globals t ⊆ window → globals t !! name = Some f → name = export_name f.
Proof.
  intros Hsub Hf. apply window_lookup. by eapply lookup_weaken.
Qed.

(** C32. The evaluation of the script (lines 52-54) binds the three names
    [clickUniversityLoginButton], [clickUserSelectionTile] and
    [focusTextbox] to their functions and nothing else:
    [waitForTextboxToAppear] is not reachable from outside.  It replaces
    whatever these names were bound to, leaves every other name and the
    page alone, and evaluating the script a second time changes nothing. *)
Theorem load_script_exports t :
  page (load_script t) = page t ∧
  globals (load_script t) = window ∪ globals t ∧
  dom window = list_to_set
    ["clickUniversityLoginButton"; "clickUserSelectionTile"; "focusTextbox"] ∧
  load_script (load_script t) = load_script t.
Proof.
  rewrite !load_script_unfold. cbn. split_and!; [done..| |].
  - unfold window. rewrite !dom_insert_L, dom_empty_L. set_solver.
  - by rewrite (assoc_L (∪)), (idemp_L (∪)).
Qed.

(** ** Calls *)

(** A call does nothing, or what the call of the event loop does. *)
Lemma tab_call_cases name t :
  globals t ⊆ window →
  tab_call name t = t ∨
  tab_call name t = set_page (exec (Call name) (page t)) t.
Proof.
  intros Hsub. unfold tab_call.
  destruct (globals t !! name) as [f|] eqn:Hf; [right|by left].
  apply (globals_lookup _ _ _ Hsub) in Hf as ->. by rewrite exec_call.
Qed.

(** Once the script is loaded a call is the call of the event loop. *)
Lemma tab_call_loaded name t :
  globals t = window →
  tab_call name t = set_page (exec (Call name) (page t)) t.
Proof.
  intros Hg. unfold tab_call. rewrite Hg. cbn [exec]. unfold call.
  destruct (window !! name); [done|]. by destruct t.
Qed.

Lemma sexec_within a t :
  globals t = window → sexec (Within a) t = set_page (exec a (page t)) t.
Proof. intros Hg. destruct a; [by apply tab_call_loaded|done..]. Qed.

(** An action within the page does nothing, or what the event loop
    does. *)
Lemma sexec_within_cases a t :
  globals t ⊆ window →
  sexec (Within a) t = t ∨ sexec (Within a) t = set_page (exec a (page t)) t.
Proof. intros Hsub. destruct a; [by apply tab_call_cases|by right..]. Qed.

Lemma srun_cons ev evs t : srun (ev :: evs) t = srun evs (sexec ev t).
Proof. done. Qed.

Lemma srun_app evs1 evs2 t : srun (evs1 ++ evs2) t = srun evs2 (srun evs1 t).
Proof. apply foldl_app. Qed.

(** Between two navigations a session is a run of the event loop. *)
Lemma srun_within acts t :
  globals t = window →
  srun (Within <$> acts) t = set_page (run acts (page t)) t.
Proof.
  revert t. induction acts as [|a acts IH]; intros t Hg; [by destruct t|].
  rewrite fmap_cons, srun_cons, sexec_within, IH by done. by rewrite run_cons.
Qed.

(** ** The invariant *)

Lemma inv_loaded doc l : wf_node doc → inv (Host doc l None []).
Proof. by split. Qed.

(** A page that has just been loaded satisfies the invariant, whatever
    page was left. *)
Lemma sinv_navigate doc t : wf_node doc → sinv (navigate doc t).
Proof. split; [by apply inv_loaded|apply map_empty_subseteq]. Qed.

Lemma sinv_sexec ev t : wf_event ev → sinv t → sinv (sexec ev t).
Proof.
  intros Hev [Hinv Hsub]. destruct ev as [doc| |a].
  - by apply sinv_navigate.
  - cbn [sexec]. rewrite load_script_unfold. split; [done|].
    by apply map_union_least.
  - destruct (sexec_within_cases a t Hsub) as [->| ->]; [done|].
    split; [by apply inv_exec|done].
Qed.

Lemma sinv_srun evs t : Forall wf_event evs → sinv t → sinv (srun evs t).
Proof.
  intros Hevs. revert t.
  induction Hevs as [|ev evs Hev _ IH]; intros t Ht; [done|].
  rewrite srun_cons. by apply IH, sinv_sexec.
Qed.

(** ** The log and the budget of a session *)

Lemma log_grows_sexec ev t : log_grows (page t) (page (sexec ev t)).
Proof.
  destruct ev as [doc| |[name|ed|]]; cbn [sexec].
  - by unfold log_grows.
  - by rewrite load_script_unfold.
  - unfold tab_call. destruct (globals t !! name); [|done].
    apply (preserved_run_exported (R:=log_grows)).
  - apply (pres_page_edit (R:=log_grows)).
  - apply (preserved_checkpoint (R:=log_grows)).
Qed.

Lemma log_grows_srun evs t : log_grows (page t) (page (srun evs t)).
Proof.
  revert t. induction evs as [|ev evs IH]; intros t; [done|].
  rewrite srun_cons. etrans; [apply log_grows_sexec|apply IH].
Qed.

(** A navigation gives up what the armed observers could still do. *)
Lemma budget_navigate doc t :
  budget (page (navigate doc t)) = focus_count (log (page t)).
Proof. apply Nat.add_0_r. Qed.

Lemma budget_sexec ev t :
  sinv t →
  budget (page (sexec ev t))
    ≤ budget (page t) + (if decide (is_scall "focusTextbox" ev) then 1 else 0)
      + (if decide (is_scall "clickUserSelectionTile" ev) then 1 else 0).
Proof.
  intros [Hinv Hsub]. destruct ev as [doc| |a].
  - cbn [sexec]. rewrite budget_navigate. unfold budget. lia.
  - cbn [sexec]. rewrite load_script_unfold. cbn [page]. lia.
  - destruct (sexec_within_cases a t Hsub) as [->| ->]; [lia|].
    by apply budget_exec.
Qed.

Lemma budget_srun evs t :
  sinv t → Forall wf_event evs →
  budget (page (srun evs t))
    ≤ budget (page t) + scalls "focusTextbox" evs
      + scalls "clickUserSelectionTile" evs.
Proof.
  intros Ht Hevs. unfold scalls. revert t Ht.
  induction Hevs as [|ev evs Hev _ IH]; intros t Ht; [cbn; lia|].
  rewrite srun_cons, !count_cons.
  pose proof (budget_sexec ev t Ht). pose proof (IH _ (sinv_sexec ev t Hev Ht)).
  lia.
Qed.

(** C18. The invariant and the focus budget of a session.  Through
    navigations to well-formed documents, evaluations of the script and
    actions within the pages, the page of the moment satisfies the
    invariant of the event loop and every name the script has defined is
    bound to its own function; and the focus calls made in the tab plus
    the observers armed in the page of the moment grow by at most one for
    each call of [focusTextbox] and of [clickUserSelectionTile]: nothing
    that is armed in one page focuses in the next. *)
Theorem session_budget evs t :
  sinv t → Forall wf_event evs →
  sinv (srun evs t) ∧
  focus_count (log (page (srun evs t))) + armed (page (srun evs t))
    ≤ focus_count (log (page t)) + armed (page t)
      + scalls "focusTextbox" evs + scalls "clickUserSelectionTile" evs.
Proof. intros Ht Hevs. split; [by apply sinv_srun|by apply budget_srun]. Qed.

(** C17. A navigation discards the waiters.  When the browser loads a new
    document, the observers armed in the page that is left are gone with
    it, and the script does not arm a waiter when it is evaluated: in the
    new page, whatever the page and the browser do and however often the
    script is loaded, no focus call is made and no observer is armed until
    the driver calls [clickUserSelectionTile] or [focusTextbox] again.  A
    waiter armed by a click that makes the browser navigate never sees the
    password box of the page that follows. *)
Theorem navigation_discards_waiters doc evs t :
  wf_node doc → Forall wf_event evs →
  scalls "focusTextbox" evs = 0 → scalls "clickUserSelectionTile" evs = 0 →
  let t' := srun (Navigate doc :: evs) t in
  focus_count (log (page t')) = focus_count (log (page t)) ∧
  armed (page t') = 0.
Proof.
  intros Hdoc Hevs Hf Ht. cbn zeta. rewrite srun_cons. cbn [sexec].
  pose proof (budget_srun evs _ (sinv_navigate doc t Hdoc) Hevs) as Hb.
  pose proof (focus_count_mono _ _ (log_grows_srun evs (navigate doc t))) as Hm.
  rewrite budget_navigate in Hb. unfold budget in Hb.
  cbn [navigate page log] in Hm. lia.
Qed.

(** ** The login *)

(** The click on the login link, in a page in which the script is
    loaded. *)
Lemma login_click t link :
  querySelector loginSelector (document (page t)) = Some link →
  log (page (srun [Inject; Within (Call "clickUniversityLoginButton")] t))
  = log (page t) ++ [Clicked (el_id link)].
Proof.
  intros Hlink. rewrite !srun_cons, load_script_unfold.
  cbn [srun foldl sexec]. unfold tab_call. cbn [globals page].
  rewrite (lookup_union_Some_l _ _ _ ClickUniversityLoginButton)
    by (by apply window_lookup).
  unfold final. cbn [set_page page run_exported].
  rewrite clickUniversityLoginButton_run, Hlink. apply after_click_log.
Qed.

(** C4. The login, from the first page to the focus in the password box.
    The script is loaded in a page with a login link and the driver calls
    the login clicker; the browser navigates to the account chooser, a
    well-formed document with a tile, where the script is loaded again and
    the driver calls the tile clicker; the page reacts to the click, and
    the document it leaves has a body; later the page changes a child list
    below the body, and after that change the password box is in the
    document with a positive height.  Then after the next checkpoint the
    log of the tab has grown by exactly three calls, the click on the
    first login link, the click on the first tile and one focus on the
    box; the waiter is disconnected, the box is the active element if it
    can take focus, and no observer is armed. *)
Theorem login_flow t link doc2 tile rest b ed r i :
  querySelector loginSelector (document (page t)) = Some link →
  wf_node doc2 →
  querySelectorAll tileSelector doc2 = tile :: rest →
  let h2 : host callback_id :=
    Host doc2 (log (page t) ++ [Clicked (el_id link)]) None [] in
  let doc3 := document (after_click (el_id tile) h2) in
  document_body doc3 = Some b →
  edit_record ed doc3 = Some r → mr_type r = ChildList →
  b ∈ inclusive_ancestors (mr_target r) doc3 →
  apply_edit ed doc3 ≫= visible_textbox = Some i →
  let t' := srun ([Inject; Within (Call "clickUniversityLoginButton");
                   Navigate doc2; Inject]
                  ++ (Within <$> [Call "clickUserSelectionTile"; PageEdit ed;
                                  Checkpoint])) t in
  log (page t')
    = log (page t) ++ [Clicked (el_id link); Clicked (el_id tile); Focused i] ∧
  fired_at 0 i (page t') ∧ landed i (page t') ∧ armed (page t') = 0.
Proof.
  intros Hlink Hdoc Hall h2 doc3 Hb Hr Hty Hanc Hvis. cbn zeta.
  rewrite srun_app.
  change (srun [?a; ?b; ?c; ?d] t) with (sexec d (sexec c (srun [a; b] t))).
  cbn [sexec]. rewrite load_script_navigate, (login_click t link) by done.
  fold h2. rewrite srun_within by done. cbn [set_page page].
  destruct (clickUserSelectionTile_fresh h2 tile rest b)
    as (Hinv1 & Harm1 & Hdoc1 & Hlog1 & Hob); [by apply inv_loaded|done..|].
  fold doc3 in Hdoc1. rewrite <-Hdoc1 in Hr, Hanc, Hvis.
  destruct (sole_waiter_fires _ _ b ed r i _ Hinv1 Harm1 Hob)
    as (Hlog' & ? & ? & ?); [by left|done..|].
  rewrite run_cons. split_and!; [|done..].
  rewrite Hlog', Hlog1. unfold h2. cbn [log]. by rewrite <-!app_assoc.
Qed.
End session.
