(* ===== verification/Scenarios.v ===== *)
(** * Scenarios: concrete pages, and the theorems applied to them

    Sample documents and pages on which the definitions are evaluated; for
    every theorem with hypotheses an application at one of them, the
    hypotheses discharged by computation; and whole runs of the driver, the
    page and the browser on the samples, evaluated step by step.  Two of
    the pages have focus listeners that edit the document: on them a
    checkpoint takes two rounds, and a waiter can miss the password box
    that another waiter has just focused.  The last part follows a tab
    through the pages of a login. *)

From stdpp Require Import gmap.
From S2P Require Import Prelude Text Dom Selector SelectorText Edit Host Script.
From S2P Require Import EventLoop Waiter Resources Rounds Checkpoint Flow.
From S2P Require Import Session.

Local Open Scope string_scope.
Local Open Scope list_scope.

(** ** Sample data *)

(** The login link, two account tiles and a password input that is present
    but not yet rendered. *)
Definition login_link : element :=
  Element 3 "a" [("href", "https://sso.example.ac.jp/auth/saml2/login.php?wants=1")] 20.
Definition other_link : element :=
  Element 5 "a" [("href", "https://sso.example.ac.jp/help")] 20.
Definition tile_one : element :=
  Element 6 "div" [("class", "row table"); ("role", "button")] 48.
Definition tile_two : element :=
  Element 7 "div" [("class", "table"); ("role", "button")] 48.
Definition hidden_passwd : element :=
  Element 8 "input" [("type", "password"); ("name", "passwd")] 0.
Definition shown_passwd : element :=
  Element 8 "input" [("type", "password"); ("name", "passwd")] 24.

Definition page_with (body_children : list node) : node :=
  Elem (Element 0 "html" [] 600)
    [Elem (Element 1 "head" [] 0) [];
     Elem (Element 2 "body" [] 600) body_children].

Definition login_doc : node :=
  page_with
    [Elem other_link [];
     Elem login_link [TextNode 4 "Login"];
     Elem tile_one [];
     Elem tile_two [];
     Elem hidden_passwd []].

(** The same page once the password input is rendered. *)
Definition shown_doc : node :=
  page_with
    [Elem other_link [];
     Elem login_link [TextNode 4 "Login"];
     Elem tile_one [];
     Elem tile_two [];
     Elem shown_passwd []].

(** The account chooser before a tile is clicked: no password input yet. *)
Definition tiles_doc : node :=
  page_with [Elem tile_one []; Elem tile_two []].

(** The page inserts the rendered password input at the end of the body. *)
Definition insert_passwd : edit := InsertChild 2 2 (Elem shown_passwd []).

(** Some other node appears in the body. *)
Definition insert_banner : edit :=
  InsertChild 2 0 (Elem (Element 9 "p" [] 18) [TextNode 10 "Welcome"]).

Definition insert_notice (i : nat) : edit :=
  InsertChild 2 0 (Elem (Element i "p" [] 18) []).

(** A document whose root has no [body] child. *)
Definition bodiless_doc : node :=
  Elem (Element 0 "html" [] 600) [Elem tile_one []].

(** A page with nothing the script looks for. *)
Definition plain_doc : node :=
  page_with [Elem (Element 3 "p" [("class", "tablet")] 20) [TextNode 4 "Hello"]].

(** The page replaces its body: a second [body] element, with a tile of
    its own, is put in front of the first. *)
Definition insert_body : edit :=
  InsertChild 0 1
    (Elem (Element 20 "body" [] 600)
       [Elem (Element 21 "div" [("class", "table"); ("role", "button")] 48) []]).

(** The rendered password input appears in the new body. *)
Definition insert_passwd_new : edit := InsertChild 20 1 (Elem shown_passwd []).

(** A page whose click listeners do nothing, and on which an element can
    take focus when it is rendered. *)
Definition quiet_page : Page :=
  {| on_click := λ _ _, [];
     on_focus := λ _ _, [];
     focusable := λ e, bool_decide (0 < offsetHeight e)%Z |}.

(** A page whose click listener on a tile inserts the rendered password
    input at once, before the click returns. *)
Definition eager_page : Page :=
  {| on_click := λ i _, if decide (i = 6) then [insert_passwd] else [];
     on_focus := λ _ _, [];
     focusable := λ e, bool_decide (0 < offsetHeight e)%Z |}.

(** A page whose focus listener on the password input puts a notice at the
    top of the first body. *)
Definition busy_page : Page :=
  {| on_click := λ _ _, [];
     on_focus := λ i _, if decide (i = 8) then [insert_notice 11] else [];
     focusable := λ e, bool_decide (0 < offsetHeight e)%Z |}.

(** A page whose focus listener on the password input takes the input out
    of the document. *)
Definition fickle_page : Page :=
  {| on_click := λ _ _, [];
     on_focus := λ i _, if decide (i = 8) then [RemoveChild 8] else [];
     focusable := λ e, bool_decide (0 < offsetHeight e)%Z |}.

#[export] Instance quiet_page_quiet : QuietFocus (H:=quiet_page).
Proof. by intros i doc. Qed.

#[export] Instance eager_page_quiet : QuietFocus (H:=eager_page).
Proof. by intros i doc. Qed.

Definition start (doc : node) : host callback_id := Host doc [] None [].

(** The driver picks an account and the page then shows the password
    input. *)
Definition pick_account : list action :=
  [Call "clickUserSelectionTile"; PageEdit insert_passwd; Checkpoint].

(** Decides a decidable hypothesis about sample data by computation. *)
Ltac by_compute := apply (bool_decide_unpack _); vm_compute; exact I.

(** ** The script on the samples *)

Section samples.
#[local] Existing Instance quiet_page.

Lemma clickUniversityLoginButton_absent_witness :
  clickUniversityLoginButton (start plain_doc) = (Ok tt, start plain_doc).
Proof. apply clickUniversityLoginButton_absent. by_compute. Defined.

Lemma clickUniversityLoginButton_first_witness :
  clickUniversityLoginButton (start login_doc)
  = (Ok tt, after_click 3 (start login_doc)) ∧
  log (final clickUniversityLoginButton (start login_doc))
  = log (start login_doc) ++ [Clicked 3].
Proof.
  apply (clickUniversityLoginButton_first (start login_doc)
           [Element 0 "html" [] 600; Element 1 "head" [] 0;
            Element 2 "body" [] 600; other_link]
           login_link [tile_one; tile_two; hidden_passwd]);
    [reflexivity|by_compute|by_compute].
Defined.

Lemma clickUniversityLoginButton_one_click_witness :
  log (final clickUniversityLoginButton (start login_doc)) = [] ++ [Clicked 3].
Proof.
  apply (clickUniversityLoginButton_one_click (start login_doc) login_link).
  reflexivity.
Defined.

Lemma textboxCallback_spec_witness :
  textboxCallback
    [MutationRecord Attributes 8; MutationRecord ChildList 2;
     MutationRecord ChildList 2] 0 (start shown_doc)
  = (Ok tt, after_disconnect 0 (after_focus 8 (start shown_doc))).
Proof.
  apply (textboxCallback_spec
           [MutationRecord Attributes 8; MutationRecord ChildList 2;
            MutationRecord ChildList 2] 0 (start shown_doc)).
  by_compute.
Defined.

Lemma textboxCallback_once_witness :
  let h := start shown_doc in
  let h' := final (textboxCallback [MutationRecord ChildList 2] 0) h in
  document h' = document h ∧
  (h' = h ∨
   ∃ i, log h' = log h ++ [Focused i] ∧
        observers h' = alter (λ ob, Observer (callback ob) [] []) 0 (observers h)).
Proof.
  exact (proj2 (textboxCallback_once [MutationRecord ChildList 2] 0
                  (start shown_doc)) _).
Defined.

Lemma clickUserSelectionTile_none_witness :
  clickUserSelectionTile (start plain_doc) = (Ok tt, start plain_doc).
Proof. apply clickUserSelectionTile_none. reflexivity. Defined.

Lemma clickUserSelectionTile_first_witness :
  log (final clickUserSelectionTile (start login_doc)) = [] ++ [Clicked 6].
Proof.
  apply (clickUserSelectionTile_first (start login_doc) tile_one [tile_two]).
  reflexivity.
Defined.

Lemma clickUserSelectionTile_arms_witness :
  outcome clickUserSelectionTile (start login_doc) = Ok tt ∧
  observers (final clickUserSelectionTile (start login_doc)) =
    observers (after_click 6 (start login_doc))
      ++ [Observer TextboxWatcher [(2, observeOptions)] []].
Proof.
  apply (clickUserSelectionTile_arms (start login_doc) tile_one [tile_two] 2);
    reflexivity.
Defined.

Lemma focusTextbox_absent_witness :
  focusTextbox (start plain_doc) = (Ok tt, start plain_doc).
Proof. apply focusTextbox_absent. by_compute. Defined.

Lemma focusTextbox_ignores_height_witness :
  visible_textbox (document (start login_doc)) = None ∧
  log (final focusTextbox (start login_doc)) = [] ++ [Focused 8].
Proof.
  apply (focusTextbox_ignores_height (start login_doc) hidden_passwd);
    [reflexivity|by_compute].
Defined.

Lemma focusTextbox_twice_witness :
  let h := start shown_doc in
  let h1 := final focusTextbox h in
  let h2 := final focusTextbox h1 in
  activeElement h2 = activeElement h1 ∧ document h2 = document h ∧
  observers h2 = observers h ∧
  ∀ e, querySelector passwdSelector (document h) = Some e →
       log h2 = log h ++ [Focused (el_id e); Focused (el_id e)].
Proof. exact (focusTextbox_twice (start shown_doc)). Defined.

Lemma query_printed_witness :
  document_querySelector (print_selector tileSelector) (start login_doc)
    = (Ok (el_id <$> querySelector tileSelector (document (start login_doc))),
       start login_doc) ∧
  document_querySelectorAll (print_selector tileSelector) (start login_doc)
    = (Ok (el_id <$> querySelectorAll tileSelector (document (start login_doc))),
       start login_doc).
Proof. apply (query_printed tileSelector (start login_doc)). by_compute. Defined.

(** ** Runs on the samples *)

Lemma apply_edit_wf_witness :
  from_option (λ doc', wf_node doc' ∧ node_id doc' = node_id tiles_doc) True
    (apply_edit insert_passwd tiles_doc).
Proof. apply apply_edit_wf. by_compute. Defined.

Lemma inv_run_witness : inv (run pick_account (start tiles_doc)).
Proof. apply inv_run. by_compute. Defined.

Lemma waiter_fires_witness :
  let h' := run [PageEdit insert_passwd; Checkpoint]
              (run [Call "clickUserSelectionTile"] (start tiles_doc)) in
  fired_at 0 8 h' ∧ landed 8 h'.
Proof.
  apply (waiter_fires 0 (Observer TextboxWatcher [(2, observeOptions)] []) 2
           insert_passwd (MutationRecord ChildList 2) 8);
    [by_compute|reflexivity|by_compute|reflexivity|reflexivity|by_compute
    |reflexivity|left; reflexivity].
Defined.

Lemma disconnected_stays_witness :
  let h := run pick_account (start tiles_doc) in
  let acts := [PageEdit insert_banner; Checkpoint; Call "focusTextbox"] in
  ∃ ob', observers (run acts h) !! 0 = Some ob' ∧
         registrations ob' = [] ∧ records ob' = [] ∧
         notify_observer 0 (run acts h) = run acts h.
Proof.
  apply (disconnected_stays _ 0 (Observer TextboxWatcher [] []));
    [by_compute|reflexivity|reflexivity].
Defined.

Lemma focus_budget_witness :
  let h := start tiles_doc in
  let acts := pick_account ++ [PageEdit insert_banner; Checkpoint;
                               Call "focusTextbox"] in
  (focus_count (log (run acts h)) + armed (run acts h) ≤
     focus_count (log h) + armed h
     + calls "focusTextbox" acts + calls "clickUserSelectionTile" acts)%nat.
Proof. apply focus_budget. by_compute. Defined.

Lemma silent_run_witness :
  let h := run [Call "clickUserSelectionTile"] (start login_doc) in
  let acts := [PageEdit (SetHeight 8 24); Checkpoint;
               PageEdit (SetAttribute 8 "style" "display: block"); Checkpoint] in
  log (run acts h) = log h ∧ activeElement (run acts h) = activeElement h ∧
  observers (run acts h) = observers h.
Proof. apply silent_run; by_compute. Defined.

Lemma run_refines_witness :
  let h := start tiles_doc in
  let acts := pick_account ++ [PageEdit insert_banner; Checkpoint;
                               Call "focusTextbox"] in
  ∃ ess, Forall2 allowed acts ess ∧
         asteps (abstract h) (concat ess) (abstract (run acts h)) ∧
         ∀ o, (count (fires o) (concat ess) ≤ 1)%nat.
Proof. apply run_refines. by_compute. Defined.

Lemma tile_flow_witness :
  Clicked (el_id tile_one) ∈ log (run pick_account (start tiles_doc)) ∧
  fired_at (length (observers (start tiles_doc))) 8
    (run pick_account (start tiles_doc)) ∧
  landed 8 (run pick_account (start tiles_doc)).
Proof.
  apply (tile_flow (start tiles_doc) tile_one [tile_two] 2 insert_passwd
           (MutationRecord ChildList 2) 8);
    [by_compute|reflexivity|reflexivity|reflexivity|reflexivity|by_compute
    |reflexivity].
Defined.

Lemma hidden_run_witness :
  let h := start login_doc in
  let acts := [Call "clickUserSelectionTile"; PageEdit insert_banner; Checkpoint;
               Call "focusTextbox"; PageEdit (insert_notice 11); Checkpoint] in
  (focus_count (log (run acts h)) ≤ focus_count (log h) + calls "focusTextbox" acts
   ∧ armed h ≤ armed (run acts h))%nat.
Proof. apply hidden_run; by_compute. Defined.

Lemma checkpoint_fires_pending_witness :
  let h := run [Call "clickUserSelectionTile"; Call "clickUserSelectionTile";
                PageEdit insert_passwd] (start tiles_doc) in
  log (checkpoint h)
  = log h ++ replicate (count pending (observers h)) (Focused 8) ∧
  armed (checkpoint h) + count pending (observers h) = armed h.
Proof. apply (checkpoint_fires_pending _ 8); [by_compute|reflexivity]. Defined.

Lemma exec_targets_witness :
  let h := run [Call "clickUserSelectionTile"; PageEdit insert_passwd]
             (start tiles_doc) in
  ∃ evs, log (exec Checkpoint h) = log h ++ evs ∧ Forall (live (document h)) evs.
Proof.
  exact (proj2 (proj2 exec_targets) _ Checkpoint
           (run [Call "clickUserSelectionTile"; PageEdit insert_passwd]
              (start tiles_doc))).
Defined.

Lemma focus_only_on_password_witness :
  let h := run [Call "clickUserSelectionTile"; PageEdit insert_passwd]
             (start tiles_doc) in
  focus_moved h (exec Checkpoint h).
Proof.
  exact (proj1 (proj2 (proj2 focus_only_on_password)) _ Checkpoint
           (run [Call "clickUserSelectionTile"; PageEdit insert_passwd]
              (start tiles_doc))).
Defined.

(** ** Scenarios *)

(** Two calls, two focus calls.  Each call of the tile clicker arms a
    waiter of its own; when the password box shows, both fire at the same
    checkpoint and the box is focused twice. *)
Example two_calls_two_focuses :
  let h := run [Call "clickUserSelectionTile"; Call "clickUserSelectionTile";
                PageEdit insert_passwd; Checkpoint] (start tiles_doc) in
  log h = [Clicked 6; Clicked 6; Focused 8; Focused 8] ∧
  activeElement h = Some 8 ∧ armed h = 0.
Proof. vm_compute. by repeat split. Qed.

(** The scenario of the specification.  The password input is in the
    document with height zero.  After the tile click, a node inserted
    beside it does not trigger a focus and the observer stays armed; once
    the input has a height, the next insertion triggers the focus and the
    observer is disconnected; a further insertion neither focuses again nor
    throws. *)
Example scenario_hidden_then_shown :
  let armed_run := [Call "clickUserSelectionTile"; PageEdit insert_banner; Checkpoint] in
  let shown_run := armed_run ++ [PageEdit (SetHeight 8 24); PageEdit (insert_notice 11); Checkpoint] in
  let later_run := shown_run ++ [PageEdit (insert_notice 12); Checkpoint] in
  let h1 := run armed_run (start login_doc) in
  let h2 := run shown_run (start login_doc) in
  let h3 := run later_run (start login_doc) in
  (log h1 = [Clicked 6] ∧ registrations <$> observers h1 = [[(2, observeOptions)]]) ∧
  (log h2 = [Clicked 6; Focused 8] ∧ activeElement h2 = Some 8 ∧
   registrations <$> observers h2 = [[]]) ∧
  (log h3 = log h2 ∧ observers h3 = observers h2).
Proof. vm_compute. by repeat split. Qed.

(** A password input that becomes visible by a change of layout alone is
    not noticed: the waiter is armed, the input shows, and checkpoint after
    checkpoint no focus is made. *)
Example reveal_by_layout_is_missed :
  let h := run [Call "clickUserSelectionTile"; PageEdit (SetHeight 8 24);
                Checkpoint; Checkpoint] (start login_doc) in
  visible_textbox (document h) = Some 8 ∧ log h = [Clicked 6] ∧
  activeElement h = None ∧ armed h = 1.
Proof. vm_compute. by repeat split. Qed.

(** On a document without a body the tile is clicked and then the call
    throws: [observe] rejects the null target, and the observer that was
    just created stays behind, unregistered. *)
Example bodiless_throws :
  let h := final clickUserSelectionTile (start bodiless_doc) in
  outcome clickUserSelectionTile (start bodiless_doc) = Throw TypeError ∧
  h = Host bodiless_doc [Clicked 6] None [Observer TextboxWatcher [] []] ∧
  run [PageEdit (InsertChild 0 1 (Elem shown_passwd [])); Checkpoint] h
  = Host (Elem (Element 0 "html" [] 600) [Elem tile_one []; Elem shown_passwd []])
      [Clicked 6] None [Observer TextboxWatcher [] []].
Proof. vm_compute. by repeat split. Qed.
End samples.

Lemma armed_too_late_witness :
  let h := start tiles_doc in
  let h' := run (H:=eager_page) [Call "clickUserSelectionTile"; Checkpoint] h in
  visible_textbox (document h') = Some 8 ∧
  log h' = log h ++ [Clicked (el_id tile_one)] ∧
  observers h' = observers (after_click (H:=eager_page) (el_id tile_one) h)
                   ++ [waiter 2].
Proof.
  apply (armed_too_late (H:=eager_page) (start tiles_doc) tile_one [tile_two] 2 8);
    [by_compute|reflexivity|reflexivity|reflexivity|reflexivity].
Defined.

(** When the click listener of the page inserts the visible password input
    before the click returns, the observer is registered too late to see
    the insertion: the input shows, the waiter is armed with an empty
    queue, and no focus is made until some later child-list change. *)
Example reveal_during_click_is_missed :
  let h := run (H:=eager_page) [Call "clickUserSelectionTile"; Checkpoint]
             (start tiles_doc) in
  visible_textbox (document h) = Some 8 ∧ log h = [Clicked 6] ∧
  observers h = [Observer TextboxWatcher [(2, observeOptions)] []] ∧
  log (run (H:=eager_page) [PageEdit (insert_notice 11); Checkpoint] h)
  = [Clicked 6; Focused 8].
Proof. vm_compute. by repeat split. Qed.

(** ** Pages whose focus listeners edit the document *)

(** The state in which the page has replaced its body between two calls of
    the tile clicker, and then shows the password box in the new body: the
    first waiter watches the old body, the second the new one, and only the
    second has a record in its queue. *)
Definition two_bodies : host callback_id :=
  run (H:=busy_page)
    [Call "clickUserSelectionTile"; PageEdit insert_body;
     Call "clickUserSelectionTile"; PageEdit insert_passwd_new]
    (start tiles_doc).

Lemma drain_terminates_witness :
  ∃ n, (n ≤ armed two_bodies)%nat ∧
       drain (H:=busy_page) 2 two_bodies = Some (rounds (H:=busy_page) n two_bodies) ∧
       checkpoint (H:=busy_page) two_bodies = rounds (H:=busy_page) n two_bodies ∧
       quiescent (rounds (H:=busy_page) n two_bodies).
Proof. apply (drain_terminates (H:=busy_page) 2 two_bodies); by_compute. Defined.

Lemma checkpoint_focuses_box_witness :
  Focused 8 ∈ log (checkpoint (H:=busy_page) two_bodies) ∧
  (armed (checkpoint (H:=busy_page) two_bodies) < armed two_bodies)%nat.
Proof.
  apply (checkpoint_focuses_box (H:=busy_page) two_bodies 8);
    [by_compute|reflexivity|by_compute].
Defined.

Lemma tile_flow_fresh_witness :
  let h := start tiles_doc in
  let h' := run (H:=busy_page) pick_account h in
  log h' = log h ++ [Clicked (el_id tile_one); Focused 8] ∧
  fired_at (length (observers h)) 8 h' ∧ landed (H:=busy_page) 8 h' ∧
  armed h' = 0%nat.
Proof.
  apply (tile_flow_fresh (H:=busy_page) (start tiles_doc) tile_one [tile_two] 2
           insert_passwd (MutationRecord ChildList 2) 8);
    [by_compute|reflexivity|reflexivity|reflexivity|reflexivity|reflexivity
    |by_compute|reflexivity].
Defined.

(** A checkpoint of two rounds.  The waiter of the first call has its
    turn first and finds its queue empty; the waiter of the second call
    focuses the box; the focus listener of the page then puts a notice into
    the old body, which the first waiter watches.  One round is not enough:
    the record of the notice is delivered in a second round, in which the
    first waiter focuses the box too.  With both waiters armed, two rounds
    are needed and two are enough. *)
Example checkpoint_two_rounds :
  let h := checkpoint (H:=busy_page) two_bodies in
  armed two_bodies = 2 ∧
  drain (H:=busy_page) 1 two_bodies = None ∧
  drain (H:=busy_page) 2 two_bodies = Some h ∧
  log h = [Clicked 6; Clicked 21; Focused 8; Focused 8] ∧ armed h = 0.
Proof. vm_compute. by repeat split. Qed.

(** A focus listener can make a waiter miss the box.  Two waiters are
    armed and the box shows; at the checkpoint the first waiter focuses the
    box, the focus listener of the page takes the box out of the document,
    and the second waiter, whose turn comes next, finds no box: it makes no
    call and stays armed.  On a page whose focus listeners edit nothing
    both waiters would have fired. *)
Lemma focus_listener_starves_waiter_witness :
  let h := run (H:=fickle_page)
             [Call "clickUserSelectionTile"; Call "clickUserSelectionTile";
              PageEdit insert_passwd] (start tiles_doc) in
  let h' := checkpoint (H:=fickle_page) h in
  log h' = log h ++ [Focused 8] ∧
  (∃ ob, observers h' !! 0%nat = Some ob ∧ registrations ob = []) ∧
  observers h' !! 1%nat = Some (Observer TextboxWatcher [(2, observeOptions)] []) ∧
  armed h' = 1%nat ∧ visible_textbox (document h') = None.
Proof.
  pose (ob := Observer TextboxWatcher [(2, observeOptions)]
                [MutationRecord ChildList 2]).
  apply (focus_listener_starves_waiter (H:=fickle_page) 0 1 ob ob 8);
    first [by_compute | vm_compute; reflexivity].
Defined.

(** ** A password box that cannot take focus *)

(** A page on which the password input cannot take focus, whatever its
    height: it is disabled, say. *)
Definition inert_page : Page :=
  {| on_click := λ _ _, [];
     on_focus := λ _ _, [];
     focusable := λ e, bool_decide (el_id e ≠ 8) |}.

(** The waiter is armed and the page has just shown the password box. *)
Definition box_shown : host callback_id :=
  run (H:=inert_page) [Call "clickUserSelectionTile"; PageEdit insert_passwd]
    (start tiles_doc).

Lemma unfocusable_box_spends_waiter_witness :
  let acts := [PageEdit insert_banner; Checkpoint;
               Call "clickUniversityLoginButton"] in
  let h' := checkpoint (H:=inert_page) box_shown in
  log h' = log box_shown ++ [Focused 8] ∧
  document h' = document box_shown ∧
  activeElement h' = activeElement box_shown ∧ armed h' = 0 ∧
  focus_count (log (run (H:=inert_page) acts h')) = focus_count (log h').
Proof.
  apply (unfocusable_box_spends_waiter (H:=inert_page) 0
           (Observer TextboxWatcher [(2, observeOptions)]
              [MutationRecord ChildList 2]) 8);
    [by_compute|reflexivity|reflexivity|by_compute|reflexivity..].
Defined.

(** ** A login, page by page *)

(** A tab that shows the page with the login link; the script is not
    loaded yet. *)
Definition login_tab : tab := Tab ∅ (start login_doc).

(** The login as the driver performs it: on the first page the login
    clicker, on the account chooser the tile clicker; the page then shows
    the password box. *)
Definition login : list tab_event :=
  [Inject; Within (Call "clickUniversityLoginButton"); Navigate tiles_doc; Inject]
  ++ (Within <$> pick_account).

Lemma login_flow_witness :
  let t' := srun (H:=busy_page) login login_tab in
  log (page t') = log (page login_tab) ++ [Clicked 3; Clicked 6; Focused 8] ∧
  fired_at 0 8 (page t') ∧ landed (H:=busy_page) 8 (page t') ∧
  armed (page t') = 0.
Proof.
  apply (login_flow (H:=busy_page) login_tab login_link tiles_doc tile_one
           [tile_two] 2 insert_passwd (MutationRecord ChildList 2) 8);
    [reflexivity|by_compute|reflexivity|reflexivity|reflexivity|reflexivity
    |by_compute|reflexivity].
Defined.

Lemma session_budget_witness :
  let evs := login ++ [Within (Call "focusTextbox"); Navigate plain_doc] in
  let t' := srun (H:=busy_page) evs login_tab in
  sinv t' ∧
  (focus_count (log (page t')) + armed (page t')
    ≤ focus_count (log (page login_tab)) + armed (page login_tab)
      + scalls "focusTextbox" evs + scalls "clickUserSelectionTile" evs)%nat.
Proof.
  apply (session_budget (H:=busy_page)); [|by_compute].
  split; [by_compute|apply map_empty_subseteq].
Defined.

(** The tile clicker is called on a page that answers the click with a
    navigation: the waiter of the call is armed in the page that is left,
    and in the page that follows the password box shows unnoticed. *)
Lemma navigation_discards_waiters_witness :
  let t := srun (H:=busy_page) [Inject; Within (Call "clickUserSelectionTile")]
             (Tab ∅ (start tiles_doc)) in
  let t' := srun (H:=busy_page)
              (Navigate plain_doc
               :: [Inject; Within (PageEdit insert_passwd); Within Checkpoint]) t in
  focus_count (log (page t')) = focus_count (log (page t)) ∧
  armed (page t') = 0.
Proof.
  apply (navigation_discards_waiters (H:=busy_page)); [by_compute..|reflexivity|reflexivity].
Defined.

(** The same session, evaluated: one waiter is armed when the browser
    navigates; in the new page the box shows after a change of a child
    list, and the only call in the log is the click on the tile. *)
Example tile_click_that_navigates :
  let t := srun (H:=busy_page) [Inject; Within (Call "clickUserSelectionTile")]
             (Tab ∅ (start tiles_doc)) in
  let t' := srun (H:=busy_page)
              [Navigate plain_doc; Inject; Within (PageEdit insert_passwd);
               Within Checkpoint] t in
  armed (page t) = 1 ∧ visible_textbox (document (page t')) = Some 8 ∧
  log (page t') = [Clicked 6] ∧ observers (page t') = [].
Proof. vm_compute. by repeat split. Qed.

(** Before the script is loaded in the new page the names are not defined:
    a call of the driver that comes too early does nothing. *)
Example call_before_load :
  let t := navigate tiles_doc login_tab in
  sexec (H:=busy_page) (Within (Call "clickUserSelectionTile")) t = t ∧
  log (page (srun (H:=busy_page)
               [Inject; Within (Call "clickUserSelectionTile")] t)) = [Clicked 6].
Proof. vm_compute. by repeat split. Qed.
